(** * Training Tracker: the session model and its derived statistics

    A shallow embedding of [src/App.tsx] (a React component written in
    TypeScript) and the properties its specification states about it.

    Conventions of the embedding.

    - A JavaScript [number] that takes part in floating-point arithmetic
      ([weightKg], [reps], [volumeKg], [distance], [duration],
      [weightVestKg]) is a binary64 value of [PrimFloat]: [+] and [*] below
      are the IEEE 754 operations JavaScript performs.  Counters that only ever hold small
      integers (array lengths, [setCount], the seconds of the Murph timer,
      rounds, [order]) are [nat] or [Z].
    - A [string] is a Rocq [string] holding the UTF-8 bytes of the text.
    - An ISO-8601 time stamp written by [new Date().toISOString()] is the
      instant it denotes, in milliseconds since the epoch ([Z]);
      [new Date(x).getTime()] is then the identity.
    - An optional field ([f?: T]) and a nullable one ([T | null]) are both
      [option T]; so is a [number] field that can come back as [null] from
      the JSON text the database is kept in ([distance], [duration]).
    - [Date.now()], [new Date()] and [Math.random()] read a [World] that is
      threaded through the handlers that use them.
    - A React handler is a closure over the state of the render that created
      it.  Handlers therefore take that state (the _snapshot_ [r]) as an
      explicit first argument and return a transformer of the current state:
      what the source reads from the component scope ([activeSession], [db],
      [activeTab]) is read from the snapshot, what it writes with a
      functional update ([setDB(prev => ...)]) is computed from the current
      state.  A click on the live user interface runs the handler of the
      latest render, whose snapshot is the current state; a closure kept in
      the state (the undo action of the snackbar) keeps its own snapshot.
    - The database lives in [localStorage] as JSON text and a backup is a
      JSON file: [JSON.parse(JSON.stringify(x))] is the function
      [JSON.roundTrip] on the data, which turns a number that is not finite
      into [null] and [-0] into [0]. *)

From Stdlib Require Import ZArith List String Ascii Bool Lia Permutation Sorted.
From Stdlib Require Import PrimFloat FloatOps SpecFloat FloatAxioms.
From Stdlib Require Import DecimalString DecimalN.
Import ListNotations.

Local Open Scope string_scope.
Local Open Scope list_scope.

(** ** Types (App.tsx, lines 4-54) *)

Inductive TrainingType : Type :=
  | push | pull | legs_core | murph | run | dashboard.

Definition TrainingType_eqb (a b : TrainingType) : bool :=
  match a, b with
  | push, push | pull, pull | legs_core, legs_core
  | murph, murph | run, run | dashboard, dashboard => true
  | _, _ => false
  end.

Record SetEntry : Type := mkSetEntry {
  set_id : string;
  weightKg : option float;
  reps : option float;
  set_notes : option string;
  createdAt : Z
}.

Record Exercise : Type := mkExercise {
  ex_id : string;
  name : string;
  variation : option string;
  sets : list SetEntry;
  targetRepHint : option string;
  order : nat
}.

Record Totals : Type := mkTotals {
  volumeKg : option float;
  setCount : option nat
}.

Record MurphData : Type := mkMurphData {
  rounds : Z;
  totalTime : option Z;
  isLite : option bool;
  weightVest : option bool;
  weightVestKg : option float
}.

Record RunData : Type := mkRunData {
  distance : option float;
  duration : option float
}.

Record TrainingSession : Type := mkSession {
  id : string;
  type : TrainingType;
  date : Z;
  completed : bool;
  startedAt : Z;
  endedAt : option Z;
  exercises : list Exercise;
  notes : option string;
  location : option string;
  totals : option Totals;
  murphData : option MurphData;
  runData : option RunData
}.

Record DB : Type := mkDB {
  version : Z;
  sessions : list TrainingSession
}.

Definition initDB : DB := {| version := 1; sessions := [] |}.

(** Object spread with overridden fields, [{ ...s, f: v }]. *)

Definition with_completed (s : TrainingSession) (b : bool) (e : option Z) : TrainingSession :=
  mkSession (id s) (type s) (date s) b (startedAt s) e (exercises s)
            (notes s) (location s) (totals s) (murphData s) (runData s).

Definition with_totals (s : TrainingSession) (t : option Totals) : TrainingSession :=
  mkSession (id s) (type s) (date s) (completed s) (startedAt s) (endedAt s)
            (exercises s) (notes s) (location s) t (murphData s) (runData s).

Definition with_exercises (s : TrainingSession) (l : list Exercise) : TrainingSession :=
  mkSession (id s) (type s) (date s) (completed s) (startedAt s) (endedAt s)
            l (notes s) (location s) (totals s) (murphData s) (runData s).

Definition with_murphData (s : TrainingSession) (m : option MurphData) : TrainingSession :=
  mkSession (id s) (type s) (date s) (completed s) (startedAt s) (endedAt s)
            (exercises s) (notes s) (location s) (totals s) m (runData s).

Definition with_location (s : TrainingSession) (l : option string) : TrainingSession :=
  mkSession (id s) (type s) (date s) (completed s) (startedAt s) (endedAt s)
            (exercises s) (notes s) l (totals s) (murphData s) (runData s).

Definition with_notes (s : TrainingSession) (n : option string) : TrainingSession :=
  mkSession (id s) (type s) (date s) (completed s) (startedAt s) (endedAt s)
            (exercises s) n (location s) (totals s) (murphData s) (runData s).

Definition with_sets (ex : Exercise) (l : list SetEntry) : Exercise :=
  mkExercise (ex_id ex) (name ex) (variation ex) l (targetRepHint ex) (order ex).

Definition with_variation (ex : Exercise) (v : option string) : Exercise :=
  mkExercise (ex_id ex) (name ex) v (sets ex) (targetRepHint ex) (order ex).

Definition with_name (ex : Exercise) (n : string) : Exercise :=
  mkExercise (ex_id ex) n (variation ex) (sets ex) (targetRepHint ex) (order ex).

Definition with_weightKg (s : SetEntry) (w : option float) : SetEntry :=
  mkSetEntry (set_id s) w (reps s) (set_notes s) (createdAt s).

Definition with_reps (s : SetEntry) (r : option float) : SetEntry :=
  mkSetEntry (set_id s) (weightKg s) r (set_notes s) (createdAt s).

(** ** Array helpers

    [mapi], [filteri]: [Array.prototype.map] and [filter] with a callback
    that looks at the index. *)

Section Arrays.
Context {A : Type}.

Fixpoint mapi_from (i : nat) (f : nat -> A -> A) (l : list A) : list A :=
  match l with
  | [] => []
  | x :: l' => f i x :: mapi_from (S i) f l'
  end.

Definition mapi := mapi_from 0.

Fixpoint filteri_from (i : nat) (p : nat -> bool) (l : list A) : list A :=
  match l with
  | [] => []
  | x :: l' => if p i then x :: filteri_from (S i) p l' else filteri_from (S i) p l'
  end.

Definition filteri := filteri_from 0.

(** [l.slice(0, i)] and [l.slice(i)] for an index [i >= 0]. *)
Definition slice_to (i : nat) (l : list A) : list A := firstn i l.
Definition slice_from (i : nat) (l : list A) : list A := skipn i l.
End Arrays.

(** ** The JSON round trip

    [JSON.parse(JSON.stringify(x))] on the data of the application: the
    database read back by [loadDB] (lines 64-71) after [saveDB] (lines 73-75)
    wrote it, the deep clone [handleEdit] makes (line 1972), and a backup
    that [exportBackup] wrote (line 338) and [importBackup] reads (line 357).
    [JSON.stringify] writes a number that is not finite as [null] and [-0]
    as [0]; every other number, every string and every boolean comes back
    as it was, and so does the absence of an optional field. *)

Module JSON.

Definition number (x : float) : option float :=
  if PrimFloat.is_finite x
  then Some (if PrimFloat.eqb x 0%float then 0%float else x)
  else None.

Definition nullable (x : option float) : option float :=
  match x with
  | Some v => number v
  | None => None
  end.

Definition setEntry (s : SetEntry) : SetEntry :=
  mkSetEntry (set_id s) (nullable (weightKg s)) (nullable (reps s))
             (set_notes s) (createdAt s).

Definition exercise (ex : Exercise) : Exercise :=
  mkExercise (ex_id ex) (name ex) (variation ex) (map setEntry (sets ex))
             (targetRepHint ex) (order ex).

Definition totalsOf (t : Totals) : Totals :=
  mkTotals (nullable (volumeKg t)) (setCount t).

Definition murphDataOf (m : MurphData) : MurphData :=
  mkMurphData (rounds m) (totalTime m) (isLite m) (weightVest m)
              (nullable (weightVestKg m)).

Definition runDataOf (d : RunData) : RunData :=
  mkRunData (nullable (distance d)) (nullable (duration d)).

Definition session (s : TrainingSession) : TrainingSession :=
  mkSession (id s) (type s) (date s) (completed s) (startedAt s) (endedAt s)
            (map exercise (exercises s)) (notes s) (location s)
            (option_map totalsOf (totals s)) (option_map murphDataOf (murphData s))
            (option_map runDataOf (runData s)).

Definition roundTrip (d : DB) : DB :=
  mkDB (version d) (map session (sessions d)).

End JSON.

(** ** calcVolume (App.tsx, lines 95-105) *)

Local Open Scope float_scope.

Definition calcVolume (session : TrainingSession) : float :=
  fold_left
    (fun total ex =>
       fold_left
         (fun total set =>
            match weightKg set, reps set with
            | Some w, Some r => total + w * r
            | _, _ => total
            end)
         (sets ex) total)
    (exercises session) 0.

(** [exercises.reduce((sum, ex) => sum + ex.sets.length, 0)]
    (lines 291, 399 and 1990). *)
Definition countSets (l : list Exercise) : nat :=
  fold_left (fun sum ex => (sum + List.length (sets ex))%nat) l 0%nat.

(** *** The volume formula as the specification words it *)

Definition allSets (session : TrainingSession) : list SetEntry :=
  flat_map sets (exercises session).

Definition bothPresent (set : SetEntry) : bool :=
  match weightKg set, reps set with
  | Some _, Some _ => true
  | _, _ => false
  end.

Definition load (set : SetEntry) : float :=
  match weightKg set, reps set with
  | Some w, Some r => w * r
  | _, _ => 0
  end.

(** Sum from [0], left to right in document order, of [weightKg * reps]
    over the sets with both fields present. *)
Definition volume_spec (session : TrainingSession) : float :=
  fold_left PrimFloat.add (map load (filter bothPresent (allSets session))) 0.

Local Close Scope float_scope.

(** ** The environment: clock and random source *)

Record World : Type := mkWorld {
  clock : Z;        (* what [Date.now()] returns *)
  entropy : nat     (* how many random draws have been made *)
}.

Definition Eff (A : Type) : Type := World -> A * World.

Definition ret {A : Type} (a : A) : Eff A := fun w => (a, w).

Definition bind {A B : Type} (m : Eff A) (k : A -> Eff B) : Eff B :=
  fun w => let (a, w') := m w in k a w'.

Notation "x <- m ;; k" := (bind m (fun x => k))
  (at level 61, m at next level, right associativity).

Definition Date_now : Eff Z := fun w => (clock w, w).

(** [Math.random().toString(36).substr(2, 9)]: some text, different at each
    draw. *)
Definition random_suffix : Eff string :=
  fun w => (NilZero.string_of_uint (Nat.to_uint (entropy w)),
            mkWorld (clock w) (S (entropy w))).

(** Line 80. *)
Definition generateId : Eff string :=
  t <- Date_now ;;
  r <- random_suffix ;;
  ret (NilZero.string_of_int (Z.to_int t) ++ "_" ++ r)%string.

Fixpoint replicateM {A : Type} (n : nat) (m : Eff A) : Eff (list A) :=
  match n with
  | O => ret []
  | S n' => x <- m ;; xs <- replicateM n' m ;; ret (x :: xs)
  end.

Fixpoint mapM {A B : Type} (f : A -> Eff B) (l : list A) : Eff (list B) :=
  match l with
  | [] => ret []
  | x :: l' => y <- f x ;; ys <- mapM f l' ;; ret (y :: ys)
  end.

(** ** Templates (lines 118-157) *)

(** [Omit<Exercise, 'id'>] *)
Record ExerciseNoId : Type := mkTemplate {
  t_name : string;
  t_variation : option string;
  t_sets : list SetEntry;
  t_targetRepHint : option string;
  t_order : nat
}.

Definition PUSH_TEMPLATE : list ExerciseNoId :=
  [ mkTemplate "Overhead Press" None [] None 0;
    mkTemplate "Bankdrücken" (Some "Langhantel") [] None 1;
    mkTemplate "Schrägbankdrücken" (Some "Langhantel") [] None 2;
    mkTemplate "Military Press" None [] None 3;
    mkTemplate "SZ-Frontheben" None [] None 4;
    mkTemplate "Dips" None [] None 5;
    mkTemplate "SZ-Trizepsdrücken" None [] None 6 ].

Definition PULL_TEMPLATE : list ExerciseNoId :=
  [ mkTemplate "Klimmzüge" None [] None 0;
    mkTemplate "Schweres Rudern" None [] None 1;
    mkTemplate "Kreuzheben" None [] None 2;
    mkTemplate "Rudern hinten" None [] None 3;
    mkTemplate "Bizepscurls" (Some "SZ-Stange") [] None 4;
    mkTemplate "Shrugs / Nacken" None [] None 5 ].

Definition LEGS_TEMPLATE : list ExerciseNoId :=
  [ mkTemplate "Beinpresse" None [] None 0;
    mkTemplate "Beinbeuger" None [] None 1;
    mkTemplate "Bauch (Schrägbank)" None [] None 2;
    mkTemplate "Waden stehend / sitzend" None [] None 3;
    mkTemplate "Bauch, quer" None [] None 4;
    mkTemplate "Ausfallschritte" None [] None 5 ].

Definition includes (l : list string) (x : string) : bool :=
  existsb (String.eqb x) l.

(** A set as lines 151-156, 1455-1457 and 1617 create it. *)
Definition emptySet : Eff SetEntry :=
  i <- generateId ;;
  t <- Date_now ;;
  ret (mkSetEntry i None None None t).

Definition defaultSetCount (exerciseName : string) : nat :=
  if includes ["Bankdrücken"; "Klimmzüge"; "Kreuzheben"] exerciseName then 5 else 3.

Definition getDefaultSetsForExercise (exerciseName : string) : Eff (list SetEntry) :=
  replicateM (defaultSetCount exerciseName) emptySet.

(** ** The state of the application (lines 179-188) *)

(** The part of the state the session handlers write. *)
Record Core : Type := mkCore {
  db : DB;
  activeSession : option TrainingSession
}.

Inductive TimerAction : Type :=
  | ClearUndoAction     (* [() => setUndoAction(null)] *)
  | ClearSnackbar.      (* [() => setSnackbar(null)] *)

(** What the page holds besides the state of [TrainingTracker]: the state
    of the mounted [HistoryView] that bears on the data ([editingSession],
    line 1964), which instance of [HistoryView] that is (an instance that is
    unmounted loses its state, and a closure made by it no longer reaches the
    instance mounted later), and whether the React root has been unmounted
    by an error thrown while rendering. *)
Record Page : Type := mkPage {
  editingSession : option TrainingSession;
  historyInstance : nat;
  crashed : bool
}.

(** The closure held in [undoAction].  The views of the active session hand
    [showSnackbar] a closure that calls [updateSession]: a function of the
    part of the state it writes.  The edit view of the history hands it the
    closure of lines 2150-2161, which updates the [editingSession] of the
    instance that made it: it is given by that instance, the indices and the
    removed set it closes over. *)
Inductive UndoClosure : Type :=
  | ViewUndo (undo : Core -> Core)
  | EditorUndo (instance exIdx setIdx : nat) (removed : SetEntry).

Record App : Type := mkApp {
  core : Core;
  activeTab : TrainingType;
  showHistory : bool;
  snackbar : option string;
  undoAction : option UndoClosure;
  timers : list (Z * TimerAction);   (* pending [setTimeout]s with their due time *)
  world : World;
  page : Page
}.

Definition with_core (st : App) (c : Core) : App :=
  mkApp c (activeTab st) (showHistory st) (snackbar st) (undoAction st)
        (timers st) (world st) (page st).

Definition with_tab (st : App) (t : TrainingType) : App :=
  mkApp (core st) t (showHistory st) (snackbar st) (undoAction st)
        (timers st) (world st) (page st).

Definition with_showHistory (st : App) (b : bool) : App :=
  mkApp (core st) (activeTab st) b (snackbar st) (undoAction st)
        (timers st) (world st) (page st).

Definition with_world (st : App) (w : World) : App :=
  mkApp (core st) (activeTab st) (showHistory st) (snackbar st) (undoAction st)
        (timers st) w (page st).

Definition with_page (st : App) (g : Page) : App :=
  mkApp (core st) (activeTab st) (showHistory st) (snackbar st) (undoAction st)
        (timers st) (world st) g.

(** [setEditingSession] of the mounted [HistoryView]. *)
Definition setEditingSession (e : option TrainingSession) (st : App) : App :=
  with_page st (mkPage e (historyInstance (page st)) (crashed (page st))).

(** An error thrown while rendering, with no error boundary around it:
    React unmounts the whole tree. *)
Definition crash (st : App) : App :=
  with_page st (mkPage (editingSession (page st)) (historyInstance (page st)) true).

Definition setDB (f : DB -> DB) (st : App) : App :=
  with_core st (mkCore (f (db (core st))) (activeSession (core st))).

Definition setActiveSession (a : option TrainingSession) (st : App) : App :=
  with_core st (mkCore (db (core st)) a).

(** Running an effectful computation against the world held in the state. *)
Definition perform {A : Type} (m : Eff A) (st : App) : A * App :=
  let (a, w) := m (world st) in (a, with_world st w).

Definition initApp (w : World) : App :=
  mkApp (mkCore initDB None) dashboard true None None [] w (mkPage None 0 false).

(** *** showSnackbar (lines 207-214) *)

Definition showSnackbar (message : string) (undo : option UndoClosure) (st : App) : App :=
  let due := (clock (world st) + 5000)%Z in
  mkApp (core st) (activeTab st) (showHistory st) (Some message)
        (match undo with Some u => Some u | None => undoAction st end)
        (timers st
           ++ (match undo with Some _ => [(due, ClearUndoAction)] | None => [] end)
           ++ [(due, ClearSnackbar)])
        (world st) (page st).

Definition fire (a : TimerAction) (st : App) : App :=
  match a with
  | ClearUndoAction =>
      mkApp (core st) (activeTab st) (showHistory st) (snackbar st) None
            (timers st) (world st) (page st)
  | ClearSnackbar =>
      mkApp (core st) (activeTab st) (showHistory st) None (undoAction st)
            (timers st) (world st) (page st)
  end.

(** Time passes: the clock moves on by [dt] milliseconds and the timers that
    are due run, in the order they were set. *)
Definition elapse (dt : Z) (st : App) : App :=
  let now := (clock (world st) + dt)%Z in
  let due := filter (fun t => (fst t <=? now)%Z) (timers st) in
  let later := filter (fun t => negb (fst t <=? now)%Z) (timers st) in
  fold_left (fun s t => fire (snd t) s) due
    (mkApp (core st) (activeTab st) (showHistory st) (snackbar st) (undoAction st)
           later (mkWorld now (entropy (world st))) (page st)).

(** ** Session lifecycle (lines 216-317) *)

Definition template_of (tab : TrainingType) : list ExerciseNoId :=
  match tab with
  | push => PUSH_TEMPLATE
  | pull => PULL_TEMPLATE
  | legs_core => LEGS_TEMPLATE
  | _ => []
  end.

Definition murphSession : Eff TrainingSession :=
  i <- generateId ;;
  d <- Date_now ;;
  s <- Date_now ;;
  ret (mkSession i murph d false s None [] None None None
                 (Some (mkMurphData 0 None None None None)) None).

Definition runSession : Eff TrainingSession :=
  i <- generateId ;;
  d <- Date_now ;;
  s <- Date_now ;;
  ret (mkSession i run d false s None [] None None None
                 None (Some (mkRunData (Some 0%float) (Some 0%float)))).

Definition instantiate (ex : ExerciseNoId) : Eff Exercise :=
  i <- generateId ;;
  l <- getDefaultSetsForExercise (t_name ex) ;;
  ret (mkExercise i (t_name ex) (t_variation ex) l (t_targetRepHint ex) (t_order ex)).

Definition newSession (tab : TrainingType) (template : list ExerciseNoId) : Eff TrainingSession :=
  i <- generateId ;;
  d <- Date_now ;;
  s <- Date_now ;;
  exs <- mapM instantiate template ;;
  ret (mkSession i tab d false s None exs None None None None None).

Definition createNewSession (r : App) (st : App) : App :=
  let template := template_of (activeTab r) in
  match activeTab r with
  | murph =>
      let (s, st') := perform murphSession st in
      with_showHistory (setActiveSession (Some s) st') false
  | run =>
      let (s, st') := perform runSession st in
      with_showHistory (setActiveSession (Some s) st') false
  | tab =>
      if (List.length template =? 0)%nat
      then showSnackbar "Dieser Trainingstyp ist noch nicht implementiert" None st
      else
        let (s, st') := perform (newSession tab template) st in
        with_showHistory (setActiveSession (Some s) st') false
  end.

(** [[...prev.sessions.filter(s => s.id !== x.id), x]] (lines 297, 308, 598). *)
Definition upsert (x : TrainingSession) (prev : DB) : DB :=
  mkDB (version prev)
       (filter (fun s => negb (id s =? id x)) (sessions prev) ++ [x]).

Definition isStrength (t : TrainingType) : bool :=
  negb (TrainingType_eqb t murph) && negb (TrainingType_eqb t run).

(** The object [saveActiveSession] stores (lines 281-293). *)
Definition completedSession (a : TrainingSession) (now : Z) : TrainingSession :=
  let c := with_completed a true (Some now) in
  if isStrength (type a)
  then with_totals c (Some (mkTotals (Some (calcVolume a))
                                     (Some (countSets (exercises a)))))
  else c.

Definition saveActiveSession (r : App) (st : App) : App :=
  match activeSession (core r) with
  | None => st
  | Some a =>
      let (now, st1) := perform Date_now st in
      let c := completedSession a now in
      let st2 := setDB (upsert c) st1 in
      let st3 := setActiveSession None st2 in
      let st4 := with_showHistory st3 true in
      showSnackbar "Training gespeichert!" None st4
  end.

Definition autoSaveSession (session : TrainingSession) (c : Core) : Core :=
  mkCore (upsert session (db c)) (activeSession c).

(** [updateSession] reads [activeSession] from the render that created it
    (it is a plain function of the component body, not a functional state
    update), then writes the result with [setActiveSession] and
    [autoSaveSession]. *)
Definition updateSession (r : Core) (updater : TrainingSession -> TrainingSession)
  : Core -> Core :=
  fun c =>
    match activeSession r with
    | None => c
    | Some a =>
        let updated := updater a in
        autoSaveSession updated (mkCore (db c) (Some updated))
    end.

Definition deleteSession (sessionId : string) (st : App) : App :=
  showSnackbar "Training gelöscht" None
    (setDB (fun prev => mkDB (version prev)
                             (filter (fun s => negb (id s =? sessionId)) (sessions prev)))
           st).

(** A click on the live interface: the handler of the latest render. *)
Definition click (handler : App -> App -> App) (st : App) : App := handler st st.

(** ** findLastSet (lines 319-336) *)

(** [Array.prototype.sort] with a comparator: the stable sort (ECMAScript
    2019), here by insertion. *)
Section Sort.
Context {A : Type} (cmp : A -> A -> Z).

Fixpoint insert_sorted (x : A) (l : list A) : list A :=
  match l with
  | [] => [x]
  | y :: l' => if (cmp x y <=? 0)%Z then x :: y :: l' else y :: insert_sorted x l'
  end.

Definition Array_sort (l : list A) : list A := fold_right insert_sorted [] l.
End Sort.

Definition option_string_eqb (a b : option string) : bool :=
  match a, b with
  | Some x, Some y => (x =? y)%string
  | None, None => true
  | _, _ => false
  end.

(** [s.id !== activeSession?.id] *)
Definition differsFromActive (a : option TrainingSession) (s : TrainingSession) : bool :=
  match a with
  | None => true
  | Some x => negb (id s =? id x)
  end.

Definition completedSessions (r : App) : list TrainingSession :=
  Array_sort (fun a b => (date b - date a)%Z)
    (filter (fun s => TrainingType_eqb (type s) (activeTab r)
                      && completed s
                      && differsFromActive (activeSession (core r)) s)
            (sessions (db (core r)))).

Definition matches (exerciseName : string) (variation' : option string) (ex : Exercise) : bool :=
  (name ex =? exerciseName) && option_string_eqb (variation ex) variation'.

Fixpoint findLastSet_loop (exerciseName : string) (variation' : option string)
    (setIndex : nat) (l : list TrainingSession) : option SetEntry :=
  match l with
  | [] => None
  | session :: rest =>
      match find (matches exerciseName variation') (exercises session) with
      | Some exercise =>
          match nth_error (sets exercise) setIndex with
          | Some s => Some s
          | None =>
              if (0 <? List.length (sets exercise))%nat
              then nth_error (sets exercise) (List.length (sets exercise) - 1)
              else findLastSet_loop exerciseName variation' setIndex rest
          end
      | None => findLastSet_loop exerciseName variation' setIndex rest
      end
  end.

Definition findLastSet (r : App) (exerciseName : string) (variation' : option string)
    (setIndex : nat) : option SetEntry :=
  findLastSet_loop exerciseName variation' setIndex (completedSessions r).

(** ** importBackup (lines 350-379)

    The [onload] callback.  [parsed] is the result of [JSON.parse] on the
    file's text ([None] when it throws); [replace] is the answer to the
    [confirm] dialog. *)

Definition mergeBackup (current imported : DB) : DB :=
  let existingIds := map id (sessions current) in
  mkDB (version imported)
       (sessions current
          ++ filter (fun s => negb (includes existingIds (id s))) (sessions imported)).

Definition importBackup (r : App) (parsed : option DB) (replace : bool) (st : App) : App :=
  match parsed with
  | None => showSnackbar "Fehler beim Importieren!" None st
  | Some imported =>
      if replace
      then with_tab (showSnackbar "Backup wiederhergestellt (ersetzt)!" None
                       (setDB (fun _ => imported) st)) dashboard
      else with_tab (showSnackbar "Backup zusammengeführt!" None
                       (setDB (fun _ => mergeBackup (db (core r)) imported) st)) dashboard
  end.

(** ** Built-in functions of the language the numeric input goes through *)

Module JS.

(** [dropPrefix p s] is [Some r] when [s = p ++ r]. *)
Fixpoint dropPrefix (p s : string) : option string :=
  match p, s with
  | EmptyString, _ => Some s
  | String a p', String b s' => if Ascii.eqb a b then dropPrefix p' s' else None
  | String _ _, EmptyString => None
  end.

Definition utf8 (bytes : list nat) : string :=
  string_of_list_ascii (map ascii_of_nat bytes).

(** WhiteSpace and LineTerminator of ECMAScript, as UTF-8:
    TAB, LF, VT, FF, CR, SP, U+00A0, U+1680, U+2000..U+200A, U+2028,
    U+2029, U+202F, U+205F, U+3000, U+FEFF. *)
Definition whiteSpace : list string :=
  map utf8
    ([ [9]; [10]; [11]; [12]; [13]; [32]; [194; 160]; [225; 154; 128] ]
     ++ map (fun b => [226; 128; b]) (seq 128 11)
     ++ [ [226; 128; 168]; [226; 128; 169]; [226; 128; 175];
          [226; 129; 159]; [227; 128; 128]; [239; 187; 191] ])%list.

Fixpoint firstDrop (tokens : list string) (s : string) : option string :=
  match tokens with
  | [] => None
  | t :: ts => match dropPrefix t s with
               | Some r => Some r
               | None => firstDrop ts s
               end
  end.

Fixpoint trimWith (tokens : list string) (fuel : nat) (s : string) : string :=
  match fuel with
  | O => s
  | S fuel' => match firstDrop tokens s with
               | Some r => trimWith tokens fuel' r
               | None => s
               end
  end.

Definition reverse (s : string) : string :=
  string_of_list_ascii (rev (list_ascii_of_string s)).

Definition trimStart (s : string) : string :=
  trimWith whiteSpace (String.length s) s.

Definition trimEnd (s : string) : string :=
  reverse (trimWith (map reverse whiteSpace) (String.length s) (reverse s)).

(** [String.prototype.trim] *)
Definition trim (s : string) : string := trimEnd (trimStart s).

(** [s.replace(a, b)] with a string pattern of one character: only the
    first occurrence is replaced. *)
Fixpoint replace (a b : ascii) (s : string) : string :=
  match s with
  | EmptyString => EmptyString
  | String c s' => if Ascii.eqb c a then String b s' else String c (replace a b s')
  end.

Definition digitValue (c : ascii) : option Z :=
  let n := nat_of_ascii c in
  if ((48 <=? n) && (n <=? 57))%nat then Some (Z.of_nat (n - 48)) else None.

(** [s.replace(/\D/g, '')] (lines 1069, 1078 and 2127): every character that is not a
    decimal digit is removed. *)
Fixpoint stripNonDigits (s : string) : string :=
  match s with
  | EmptyString => EmptyString
  | String c s' => match digitValue c with
                   | Some _ => String c (stripNonDigits s')
                   | None => stripNonDigits s'
                   end
  end.

Fixpoint takeDigits (s : string) : list Z * string :=
  match s with
  | EmptyString => ([], s)
  | String c s' =>
      match digitValue c with
      | Some d => let (ds, r) := takeDigits s' in (d :: ds, r)
      | None => ([], s)
      end
  end.

Definition decimalValue (ds : list Z) : Z :=
  fold_left (fun acc d => (10 * acc + d)%Z) ds 0%Z.

(** The binary64 value nearest to [m * 10 ^ e] (ties to even), for
    [m >= 0]; the sign is applied by the caller. *)
Definition roundDecimal (m e : Z) : float :=
  match m with
  | Zpos p =>
      if (0 <=? e)%Z
      then SF2Prim (binary_normalize prec emax (m * 10 ^ e) 0 false)
      else SF2Prim (SFdiv prec emax (S754_finite false p 0)
                          (S754_finite false (Z.to_pos (10 ^ (- e))) 0))
  | _ => 0%float
  end.

Definition signed (negative : bool) (x : float) : float :=
  if negative then PrimFloat.opp x else x.

Definition takeSign (s : string) : bool * string :=
  match s with
  | String "-"%char r => (true, r)
  | String "+"%char r => (false, r)
  | _ => (false, s)
  end.

(** ExponentPart: [e] or [E], an optional sign, at least one digit.
    Returns the exponent, [0] when the text has no exponent part. *)
Definition takeExponent (s : string) : Z :=
  match s with
  | String c r =>
      if (Ascii.eqb c "e" || Ascii.eqb c "E")%bool
      then let (neg, r') := takeSign r in
           match takeDigits r' with
           | ([], _) => 0%Z
           | (ds, _) => if neg then (- decimalValue ds)%Z else decimalValue ds
           end
      else 0%Z
  | EmptyString => 0%Z
  end.

(** [parseFloat]: leading white space is skipped and the longest prefix
    that is a StrDecimalLiteral is converted; [NaN] when there is none. *)
Definition parseFloat (input : string) : float :=
  let (neg, s) := takeSign (trimStart input) in
  match dropPrefix "Infinity" s with
  | Some _ => signed neg infinity
  | None =>
      let (ip, s2) := takeDigits s in
      match s2 with
      | String "."%char r =>
          let (fp, s3) := takeDigits r in
          match ip, fp with
          | [], [] => nan
          | _, _ =>
              signed neg
                (roundDecimal (decimalValue (ip ++ fp))
                              (takeExponent s3 - Z.of_nat (List.length fp)))
          end
      | _ =>
          match ip with
          | [] => nan
          | _ => signed neg (roundDecimal (decimalValue ip) (takeExponent s2))
          end
      end
  end.

Definition isNaN (x : float) : bool := PrimFloat.is_nan x.

(** A number used as a condition: [0], [-0] and [NaN] are false. *)
Definition truthy (x : float) : bool :=
  negb (PrimFloat.is_nan x || PrimFloat.is_zero x).

Definition hexValue (c : ascii) : option Z :=
  let n := nat_of_ascii c in
  if ((48 <=? n) && (n <=? 57))%nat then Some (Z.of_nat (n - 48))
  else if ((97 <=? n) && (n <=? 102))%nat then Some (Z.of_nat (n - 87))
  else if ((65 <=? n) && (n <=? 70))%nat then Some (Z.of_nat (n - 55))
  else None.

Fixpoint takeHex (s : string) : list Z :=
  match s with
  | EmptyString => []
  | String c s' => match hexValue c with
                   | Some d => d :: takeHex s'
                   | None => []
                   end
  end.

(** [parseInt] with no radix argument. *)
Definition parseInt (input : string) : float :=
  let (neg, s) := takeSign (trimStart input) in
  match s with
  | String "0"%char (String x r) =>
      if (Ascii.eqb x "x" || Ascii.eqb x "X")%bool
      then match takeHex r with
           | [] => nan
           | ds => signed neg (roundDecimal
                                 (fold_left (fun acc d => (16 * acc + d)%Z) ds 0%Z) 0)
           end
      else signed neg (roundDecimal (decimalValue (fst (takeDigits s))) 0)
  | _ =>
      match takeDigits s with
      | ([], _) => nan
      | (ds, _) => signed neg (roundDecimal (decimalValue ds) 0)
      end
  end.

End JS.

(** ** parseNumber (lines 87-93) *)

Definition parseNumber (value : string) : option float :=
  if ((value =? "") || (JS.trim value =? ""))%bool then None
  else
    let cleaned := JS.replace "," "." (JS.trim value) in
    let parsed := JS.parseFloat cleaned in
    if JS.isNaN parsed then None else Some parsed.

(** ** The views of an active strength session (lines 1427-1942) *)

Definition onCore (f : Core -> Core) (st : App) : App := with_core st (f (core st)).

(** [Math.max(0, x)] *)
Definition max0 (x : float) : float :=
  if PrimFloat.is_nan x then nan
  else if PrimFloat.leb x 0%float then 0%float else x.

(** [x || 0] for a nullable number. *)
Definition orZero (x : option float) : float :=
  match x with
  | Some v => if JS.truthy v then v else 0%float
  | None => 0%float
  end.

Section ActiveSessionView.
(** The render these handlers belong to. *)
Variable r : App.

Definition threeSets : Eff (list SetEntry) :=
  a <- emptySet ;; b <- emptySet ;; c <- emptySet ;; ret [a; b; c].

Definition addNewExercise (name' : string) (variation' : option string) (st : App) : App :=
  let session_length :=
    match activeSession (core r) with
    | Some session => List.length (exercises session)
    | None => 0%nat
    end in
  let (newExercise, st1) :=
    perform (i <- generateId ;;
             l <- threeSets ;;
             ret (mkExercise i name' variation' l None session_length)) st in
  showSnackbar (name' ++ " hinzugefügt") None
    (onCore (updateSession (core r)
               (fun s => with_exercises s (exercises s ++ [newExercise]))) st1).

Definition handleLocationChange (value : string) (st : App) : App :=
  if (value =? "custom")%string then st
  else onCore (updateSession (core r) (fun s => with_location s (Some value))) st.

Definition saveCustomLocation (customLocation : string) (st : App) : App :=
  if (JS.trim customLocation =? "")%string then st
  else onCore (updateSession (core r)
                 (fun s => with_location s (Some (JS.trim customLocation)))) st.

Section ExerciseCard.
(** Props: [exercise] is [session.exercises[exIndex]] of the render. *)
Variables (exercise : Exercise) (exIndex : nat).

Definition updateExercise (updater : Exercise -> Exercise) : Core -> Core :=
  updateSession (core r)
    (fun session =>
       with_exercises session
         (mapi (fun i ex => if (i =? exIndex)%nat then updater ex else ex)
               (exercises session))).

Definition addSet (st : App) : App :=
  let (s, st1) := perform emptySet st in
  onCore (updateExercise (fun ex => with_sets ex (sets ex ++ [s]))) st1.

(** The closure handed to [showSnackbar] by [deleteSet] (lines 1627-1632). *)
Definition undoDelete (setIndex : nat) (deletedSet : SetEntry) : Core -> Core :=
  updateExercise
    (fun ex => with_sets ex (slice_to setIndex (sets ex)
                               ++ [deletedSet]
                               ++ slice_from setIndex (sets ex))).

(** Lines 1621-1633.  The delete button belongs to a rendered row, so
    [exercise.sets[setIndex]] exists. *)
Definition deleteSet (setIndex : nat) (st : App) : App :=
  match nth_error (sets exercise) setIndex with
  | None => st
  | Some deletedSet =>
      showSnackbar "Satz gelöscht" (Some (ViewUndo (undoDelete setIndex deletedSet)))
        (onCore (updateExercise
                   (fun ex => with_sets ex
                                (filteri (fun i => negb (i =? setIndex)%nat) (sets ex))))
                st)
  end.

(** Lines 1653-1661, after the [confirm] dialog was accepted. *)
Definition deleteExercise (st : App) : App :=
  showSnackbar "Übung gelöscht" None
    (onCore (updateSession (core r)
               (fun session =>
                  with_exercises session
                    (filteri (fun i => negb (i =? exIndex)%nat) (exercises session))))
            st).

Definition selectVariation (value : string) (st : App) : App :=
  onCore (updateExercise (fun ex => with_variation ex (Some value))) st.

Section SetRow.
Variables (set : SetEntry) (setIndex : nat).

Definition updateSet (f : SetEntry -> SetEntry) : Core -> Core :=
  updateExercise
    (fun ex => with_sets ex
                 (mapi (fun i s => if (i =? setIndex)%nat then f s else s) (sets ex))).

Definition updateSetWeight (value : string) (st : App) : App :=
  let parsed := parseNumber value in
  onCore (updateSet (fun s => with_weightKg s parsed)) st.

Definition updateSetReps (value : string) (st : App) : App :=
  let parsed :=
    if (value =? "")%string then None
    else let n := JS.parseInt value in
         if JS.truthy n then Some n else None in
  onCore (updateSet (fun s => with_reps s parsed)) st.

Definition adjustWeight (delta multiplier : float) (st : App) : App :=
  let current := orZero (weightKg set) in
  let newValue := max0 (current + delta * multiplier)%float in
  onCore (updateSet (fun s => with_weightKg s (Some newValue))) st.

Definition adjustReps (delta : float) (st : App) : App :=
  let current := orZero (reps set) in
  let newValue := max0 (current + delta)%float in
  onCore (updateSet (fun s => with_reps s (Some newValue))) st.

Definition applyLast (st : App) : App :=
  match findLastSet r (name exercise) (variation exercise) setIndex with
  | Some lastSet =>
      onCore (updateSet (fun s => with_reps (with_weightKg s (weightKg lastSet))
                                            (reps lastSet))) st
  | None => st
  end.
End SetRow.
End ExerciseCard.
End ActiveSessionView.

(** ** MurphView (lines 1113-1425) *)

(** The component's own state. *)
Record MurphView : Type := mkMurphView {
  elapsedTime : Z;
  isRunning : bool;
  showModeSelect : bool;
  selectedMode : option bool;      (* [Some true] is ['lite'] *)
  weightVest' : bool;
  vestWeight : float
}.

Definition MURPH_LITE_TIME : Z := 25 * 60.

Definition with_timer (v : MurphView) (t : Z) (running : bool) : MurphView :=
  mkMurphView t running (showModeSelect v) (selectedMode v) (weightVest' v) (vestWeight v).

(** [s.murphData!]: the view is mounted for murph sessions, which carry
    [murphData]; were it missing, the spread would start from an empty
    object, whose [rounds] reads as [0] (line 1212). *)
Definition murphData_of (s : TrainingSession) : MurphData :=
  match murphData s with
  | Some m => m
  | None => mkMurphData 0 None None None None
  end.

Definition with_totalTime (m : MurphData) (t : option Z) : MurphData :=
  mkMurphData (rounds m) t (isLite m) (weightVest m) (weightVestKg m).

Section MurphViewHandlers.
Variable r : App.

(** [session.murphData?.isLite || false] *)
Definition isLite' : bool :=
  match activeSession (core r) with
  | Some session =>
      match murphData session with
      | Some m => match isLite m with Some b => b | None => false end
      | None => false
      end
  | None => false
  end.

(** The state right after mounting, once the initialising effect
    (lines 1140-1144) has run. *)
Definition mountMurphView : MurphView :=
  let saved :=
    match activeSession (core r) with
    | Some session => match totalTime (murphData_of session) with
                      | Some t => t
                      | None => 0%Z
                      end
    | None => 0%Z
    end in
  mkMurphView saved false true None false 10%float.

(** One run of the interval callback (lines 1150-1167); the interval
    exists only while [isRunning]. *)
Definition tick (v : MurphView) (st : App) : MurphView * App :=
  if isRunning v then
    let newTime := (elapsedTime v + 1)%Z in
    if (isLite' && (MURPH_LITE_TIME <=? newTime)%Z)%bool
    then (with_timer v MURPH_LITE_TIME false, st)
    else (with_timer v newTime true,
          onCore (updateSession (core r)
                    (fun s => with_murphData s
                                (Some (with_totalTime (murphData_of s) (Some newTime)))))
                 st)
  else (v, st).

Definition startTimer (v : MurphView) : MurphView := with_timer v (elapsedTime v) true.
Definition pauseTimer (v : MurphView) : MurphView := with_timer v (elapsedTime v) false.

Definition addRound (st : App) : App :=
  onCore (updateSession (core r)
            (fun s => with_murphData s
                        (Some (let m := murphData_of s in
                               mkMurphData (rounds m + 1) (totalTime m) (isLite m)
                                           (weightVest m) (weightVestKg m)))))
         st.

Definition vestKg (v : MurphView) : option float :=
  if weightVest' v then Some (vestWeight v) else None.

Definition startMode (lite : bool) (v : MurphView) (st : App) : MurphView * App :=
  (mkMurphView (elapsedTime v) (isRunning v) false (Some lite)
               (weightVest' v) (vestWeight v),
   onCore (updateSession (core r)
             (fun s => with_murphData s
                         (Some (mkMurphData 0 None (Some lite)
                                            (Some (weightVest' v)) (vestKg v)))))
          st).

(** Lines 1184-1196: [updateSession], [setIsRunning(false)], then [onSave],
    which is [saveActiveSession] of the same render. *)
Definition Murph_handleSave (v : MurphView) (st : App) : MurphView * App :=
  let st1 :=
    onCore (updateSession (core r)
              (fun s => with_murphData s
                          (Some (let m := murphData_of s in
                                 mkMurphData (rounds m) (Some (elapsedTime v)) (isLite m)
                                             (Some (weightVest' v)) (vestKg v)))))
           st in
  (with_timer v (elapsedTime v) false, saveActiveSession r st1).
End MurphViewHandlers.

(** ** RunView (lines 928-1111) *)

Definition with_runData (s : TrainingSession) (dateTime : Z) (d : RunData) : TrainingSession :=
  mkSession (id s) (type s) dateTime true dateTime (Some dateTime)
            (exercises s) (notes s) (location s) (totals s) (murphData s) (Some d).

(** [handleSave] (lines 963-994) followed by the [onSave] the application
    passes (lines 595-603).  [dateTime] is
    [new Date(customDate + 'T' + customTime).toISOString()], [None] when the
    date is invalid and the call throws. *)
Definition Run_handleSave (r : App) (distance' durationMinutes durationSeconds : string)
    (dateTime : option Z) (st : App) : App :=
  match activeSession (core r) with
  | None => st
  | Some session =>
      let dist := JS.parseFloat (JS.replace "," "." distance') in
      let mins := let m := JS.parseInt durationMinutes in if JS.truthy m then m else 0%float in
      let secs := let s := JS.parseInt durationSeconds in if JS.truthy s then s else 0%float in
      let totalSeconds := (mins * 60 + secs)%float in
      if (negb (JS.truthy dist) || PrimFloat.leb dist 0%float)%bool
      then showSnackbar "Bitte gültige Distanz eingeben" None st
      else if PrimFloat.leb totalSeconds 0%float
      then showSnackbar "Bitte gültige Zeit eingeben" None st
      else
        match dateTime with
        | None => st
        | Some t =>
            let updatedSession :=
              with_runData session t (mkRunData (Some dist) (Some totalSeconds)) in
            showSnackbar "Lauf gespeichert!" None
              (with_showHistory
                 (setActiveSession None (setDB (upsert updatedSession) st)) true)
        end
  end.

(** ** HistoryView: editing a stored session (lines 1944-2215)

    [editingSession] is a deep copy of the stored session; the handlers
    update it with functional state updates, so they are plain functions of
    the session being edited. *)

Definition with_date (s : TrainingSession) (iso : Z) : TrainingSession :=
  mkSession (id s) (type s) iso (completed s) iso (endedAt s)
            (exercises s) (notes s) (location s) (totals s) (murphData s) (runData s).

Definition atIndex {A : Type} (k : nat) (f : A -> A) (l : list A) : list A :=
  mapi (fun i x => if (i =? k)%nat then f x else x) l.

Inductive EditAction : Type :=
  | EditDate (iso : Z)
  | EditLocation (value : string)
  | EditNotes (value : string)
  | EditName (exIdx : nat) (value : string)
  | EditVariation (exIdx : nat) (value : string)
  | EditWeight (exIdx setIdx : nat) (value : string)
  | EditReps (exIdx setIdx : nat) (value : string)
  | EditDeleteSet (exIdx setIdx : nat)
  | EditUndoDeleteSet (exIdx setIdx : nat) (removed : SetEntry)
  | EditAddSet (exIdx : nat) (fresh : SetEntry)
  | EditDeleteExercise (exIdx : nat).

Definition edit (a : EditAction) (s : TrainingSession) : TrainingSession :=
  match a with
  | EditDate iso => with_date s iso
  | EditLocation value => with_location s (Some value)
  | EditNotes value => with_notes s (Some value)
  | EditName exIdx value =>
      with_exercises s (atIndex exIdx (fun e => with_name e value) (exercises s))
  | EditVariation exIdx value =>
      with_exercises s
        (atIndex exIdx
           (fun e => with_variation e (if (value =? "")%string then None else Some value))
           (exercises s))
  | EditWeight exIdx setIdx value =>
      with_exercises s
        (atIndex exIdx
           (fun e => with_sets e
                       (atIndex setIdx (fun x => with_weightKg x (parseNumber value)) (sets e)))
           (exercises s))
  | EditReps exIdx setIdx value =>
      let val := JS.stripNonDigits value in
      let parsed := if (val =? "")%string then None else Some (JS.parseInt val) in
      with_exercises s
        (atIndex exIdx
           (fun e => with_sets e (atIndex setIdx (fun x => with_reps x parsed) (sets e)))
           (exercises s))
  | EditDeleteSet exIdx setIdx =>
      with_exercises s
        (atIndex exIdx
           (fun e => with_sets e (filteri (fun i => negb (i =? setIdx)%nat) (sets e)))
           (exercises s))
  | EditUndoDeleteSet exIdx setIdx removed =>
      with_exercises s
        (atIndex exIdx
           (fun e => with_sets e (slice_to setIdx (sets e) ++ [removed]
                                    ++ slice_from setIdx (sets e)))
           (exercises s))
  | EditAddSet exIdx fresh =>
      with_exercises s
        (atIndex exIdx (fun e => with_sets e (sets e ++ [fresh])) (exercises s))
  | EditDeleteExercise exIdx =>
      with_exercises s (filteri (fun i => negb (i =? exIdx)%nat) (exercises s))
  end.

(** [session.exercises[i]?.sets[j]] *)
Definition setAt (s : TrainingSession) (i j : nat) : option SetEntry :=
  match nth_error (exercises s) i with
  | Some ex => nth_error (sets ex) j
  | None => None
  end.

(** [handleSaveEdit] (lines 1985-2001): the stored object and the new
    database. *)
Definition editedSession (updated : TrainingSession) : TrainingSession :=
  if isStrength (type updated)
  then with_totals updated (Some (mkTotals (Some (calcVolume updated))
                                           (Some (countSets (exercises updated)))))
  else updated.

Definition handleSaveEdit (updated : TrainingSession) (st : App) : App :=
  let u := editedSession updated in
  showSnackbar "Änderungen gespeichert" None
    (setDB (fun prev => mkDB (version prev)
                             (map (fun s => if (id s =? id u)%string then u else s)
                                  (sessions prev)))
           st).

(** ** The application as a state machine

    An [Event] is something the user, the clock or the browser does; [step]
    runs the handler the latest render attached to it, provided the render
    shows the control at all.  The state of the Murph timer and the text
    typed into a field come with the event; the copy being edited in the
    history view is part of the state ([editingSession]), since it lives
    across other events. *)

Definition isTemplateTab (t : TrainingType) : bool :=
  match t with
  | push | pull | legs_core => true
  | _ => false
  end.

(** The session [ActiveSessionView] is rendered for, if it is rendered
    (lines 646-659).  Nothing is rendered once the root is unmounted. *)
Definition strengthView (st : App) : option TrainingSession :=
  if crashed (page st) then None
  else
  match activeSession (core st) with
  | Some a =>
      if (isTemplateTab (activeTab st) && negb (showHistory st)
          && TrainingType_eqb (type a) (activeTab st))%bool
      then Some a else None
  | None => None
  end.

(** The session [MurphView] is rendered for (line 569). *)
Definition murphView (st : App) : option TrainingSession :=
  if crashed (page st) then None
  else
  match activeSession (core st) with
  | Some a => if TrainingType_eqb (type a) murph then Some a else None
  | None => None
  end.

(** The session [RunView] is rendered for (line 592). *)
Definition runView (st : App) : option TrainingSession :=
  if crashed (page st) then None
  else
  match activeSession (core st) with
  | Some a => if TrainingType_eqb (type a) run then Some a else None
  | None => None
  end.

(** The card of exercise [exIndex], and the row of its set [setIndex]. *)
Definition card (st : App) (exIndex : nat) : option Exercise :=
  match strengthView st with
  | Some a => nth_error (exercises a) exIndex
  | None => None
  end.

Definition row (st : App) (exIndex setIndex : nat) : option (Exercise * SetEntry) :=
  match card st exIndex with
  | Some ex => match nth_error (sets ex) setIndex with
               | Some s => Some (ex, s)
               | None => None
               end
  | None => None
  end.

(** Lines 381-384. *)
Definition filteredSessions (st : App) : list TrainingSession :=
  firstn 10
    (Array_sort (fun a b => (date b - date a)%Z)
       (filter (fun s => TrainingType_eqb (type s) (activeTab st) && completed s)
               (sessions (db (core st))))).

(** [HistoryView] is rendered at three places of the tree (lines 581, 612,
    661): three positions, so three component instances, each with a state
    of its own; the conditions exclude one another, so at most one of them is
    mounted. *)
Inductive Slot : Type := StrengthHistory | MurphHistory | RunHistory.

Definition historySlot (st : App) : option Slot :=
  if crashed (page st) then None
  else
  match activeTab st, activeSession (core st) with
  | (push | pull | legs_core), _ => Some StrengthHistory
  | murph, None => Some MurphHistory
  | run, None => Some RunHistory
  | _, _ => None
  end.

Definition historyView (st : App) : bool :=
  match historySlot st with
  | Some _ => true
  | None => false
  end.

(** [HistoryView] shows the edit form instead of the list while
    [editingSession] is set (line 2021). *)
Definition historyList (st : App) : bool :=
  historyView st
  && match editingSession (page st) with Some _ => false | None => true end.

Definition editorView (st : App) : option TrainingSession :=
  if historyView st then editingSession (page st) else None.

Definition Slot_eqb (a b : option Slot) : bool :=
  match a, b with
  | Some StrengthHistory, Some StrengthHistory
  | Some MurphHistory, Some MurphHistory
  | Some RunHistory, Some RunHistory
  | None, None => true
  | _, _ => false
  end.

(** What a render does to [HistoryView]: when the position it is rendered
    at is no longer the one of the render before, the instance that was
    mounted is gone with its state and the one mounted now is new. *)
Definition remount (before after : App) : App :=
  if Slot_eqb (historySlot before) (historySlot after) then after
  else with_page after
         (mkPage None (S (historyInstance (page after))) (crashed (page after))).

Definition onCancel (st : App) : App :=
  with_showHistory (setActiveSession None st) true.

(** *** The handlers of [HistoryView] (lines 1970-2001 and 2021-2225)

    They write [editingSession] with functional updates, so they act on the
    current state; what they take from the render (the session, the
    indices, the set to remove) comes as an argument. *)

Definition handleEdit (session : TrainingSession) (st : App) : App :=
  setEditingSession (Some (JSON.session session)) st.

Definition updateEditingSession (updater : TrainingSession -> TrainingSession)
    (st : App) : App :=
  match editingSession (page st) with
  | Some prev => setEditingSession (Some (updater prev)) st
  | None => st
  end.

Definition handleCancelEdit (st : App) : App := setEditingSession None st.

(** The button "Änderungen speichern": [handleSaveEdit(editingSession)]
    with the [editingSession] of the render. *)
Definition saveEdit (r : App) (st : App) : App :=
  match editingSession (page r) with
  | Some updated => setEditingSession None (handleSaveEdit updated st)
  | None => st
  end.

(** Lines 2143-2162. *)
Definition editorDeleteSet (exIdx setIdx : nat) (removed : SetEntry) (st : App) : App :=
  showSnackbar "Satz gelöscht"
    (Some (EditorUndo (historyInstance (page st)) exIdx setIdx removed))
    (updateEditingSession (edit (EditDeleteSet exIdx setIdx)) st).

(** Lines 2175-2188. *)
Definition editorAddSet (exIdx : nat) (st : App) : App :=
  match editingSession (page st) with
  | Some _ =>
      let (fresh, st1) := perform emptySet st in
      updateEditingSession (edit (EditAddSet exIdx fresh)) st1
  | None => st
  end.

(** The controls of the edit form that only update the copy: each exists
    for an exercise or a set the form shows. *)
Definition plainControl (a : EditAction) (s : TrainingSession) : bool :=
  match a with
  | EditDate _ | EditLocation _ | EditNotes _ => true
  | EditName exIdx _ | EditVariation exIdx _ | EditDeleteExercise exIdx =>
      (exIdx <? List.length (exercises s))%nat
  | EditWeight exIdx setIdx _ | EditReps exIdx setIdx _ =>
      match setAt s exIdx setIdx with Some _ => true | None => false end
  | EditDeleteSet _ _ | EditUndoDeleteSet _ _ _ | EditAddSet _ _ => false
  end.

(** The Undo button of the snackbar (lines 667-681); it is rendered only
    while both [snackbar] and [undoAction] are set.  The closure of the edit
    view reaches the instance that made it only; there it does nothing when
    nothing is being edited (line 1978), and with a session being edited it
    reads [exercises[exIdx].sets], which throws when that session has no
    exercise [exIdx]: the error is raised while rendering and takes the
    application down. *)
Definition clickUndo (st : App) : App :=
  match snackbar st, undoAction st with
  | Some _, Some (ViewUndo undo) =>
      mkApp (undo (core st)) (activeTab st) (showHistory st) None None
            (timers st) (world st) (page st)
  | Some _, Some (EditorUndo instance exIdx setIdx removed) =>
      let cleared :=
        mkApp (core st) (activeTab st) (showHistory st) None None
              (timers st) (world st) (page st) in
      if (instance =? historyInstance (page st))%nat
      then match editingSession (page st) with
           | Some s =>
               if (exIdx <? List.length (exercises s))%nat
               then setEditingSession
                      (Some (edit (EditUndoDeleteSet exIdx setIdx removed) s)) cleared
               else crash cleared
           | None => cleared
           end
      else cleared
  | _, _ => st
  end.

(** [exportBackup] (lines 338-348), as far as the state goes. *)
Definition exportBackup (st : App) : App := showSnackbar "Backup erstellt!" None st.

(** Loading the page again: every component state starts anew, the
    database is what [loadDB] reads from [localStorage], where [saveDB] put
    the database of the last render (lines 59-75, 180-192). *)
Definition reload (st : App) : App :=
  mkApp (mkCore (JSON.roundTrip (db (core st))) None) dashboard true None None []
        (world st) (mkPage None (S (historyInstance (page st))) false).

Inductive Event : Type :=
  | SelectTab (t : TrainingType)
  | NewTraining
  | ResumeTraining                     (* the "Training läuft..." card *)
  | Cancel
  | Save
  | AddExercise (name' : string) (variation' : option string)
  | ChooseLocation (value : string)
  | CustomLocation (value : string)
  | AddSet (exIndex : nat)
  | DeleteSet (exIndex setIndex : nat)
  | DeleteExercise (exIndex : nat)
  | SelectVariation (exIndex : nat) (value : string)
  | TypeWeight (exIndex setIndex : nat) (value : string)
  | TypeReps (exIndex setIndex : nat) (value : string)
  | AdjustWeight (exIndex setIndex : nat) (delta multiplier : float)
  | AdjustReps (exIndex setIndex : nat) (delta : float)
  | ApplyLast (exIndex setIndex : nat)
  | Undo
  | Elapse (dt : Z)
  | MurphMode (lite : bool) (v : MurphView)
  | MurphTick (v : MurphView)
  | MurphRound
  | MurphSave (v : MurphView)
  | RunSave (distance' minutes seconds : string) (dateTime : option Z)
  | DeleteStored (sessionId : string)
  | OpenEdit (k : nat)                 (* the pencil of entry [k] of the list *)
  | EditorChange (a : EditAction)
  | EditorDeleteSet (exIdx setIdx : nat)
  | EditorAddSet (exIdx : nat)
  | SaveEdit
  | CancelEdit
  | Export
  | Reload.

Definition whenSome {A : Type} (o : option A) (f : A -> App) (st : App) : App :=
  match o with
  | Some a => f a
  | None => st
  end.

(** The handler behind an event, run on the render it belongs to. *)
Definition handle (e : Event) (st : App) : App :=
  match e with
  | SelectTab t => with_tab st t
  | NewTraining =>
      match activeTab st, activeSession (core st) with
      | (push | pull | legs_core | murph | run), None => click createNewSession st
      | _, _ => st
      end
  | ResumeTraining =>
      match activeSession (core st) with
      | Some a =>
          if (isTemplateTab (activeTab st) && showHistory st
              && TrainingType_eqb (type a) (activeTab st))%bool
          then with_showHistory st false else st
      | None => st
      end
  | Cancel =>
      match strengthView st, murphView st, runView st with
      | None, None, None => st
      | _, _, _ => onCancel st
      end
  | Save => whenSome (strengthView st) (fun _ => click saveActiveSession st) st
  | AddExercise n v =>
      whenSome (strengthView st) (fun _ => addNewExercise st n v st) st
  | ChooseLocation value =>
      whenSome (strengthView st) (fun _ => handleLocationChange st value st) st
  | CustomLocation value =>
      whenSome (strengthView st) (fun _ => saveCustomLocation st value st) st
  | AddSet i => whenSome (card st i) (fun _ => addSet st i st) st
  | DeleteSet i j => whenSome (card st i) (fun ex => deleteSet st ex i j st) st
  | DeleteExercise i => whenSome (card st i) (fun _ => deleteExercise st i st) st
  | SelectVariation i value =>
      whenSome (card st i) (fun _ => selectVariation st i value st) st
  | TypeWeight i j value =>
      whenSome (row st i j) (fun _ => updateSetWeight st i j value st) st
  | TypeReps i j value =>
      whenSome (row st i j) (fun _ => updateSetReps st i j value st) st
  | AdjustWeight i j delta multiplier =>
      whenSome (row st i j) (fun p => adjustWeight st i (snd p) j delta multiplier st) st
  | AdjustReps i j delta =>
      whenSome (row st i j) (fun p => adjustReps st i (snd p) j delta st) st
  | ApplyLast i j =>
      whenSome (row st i j) (fun p => applyLast st (fst p) i j st) st
  | Undo => clickUndo st
  | Elapse dt => if (0 <=? dt)%Z then elapse dt st else st
  | MurphMode lite v => whenSome (murphView st) (fun _ => snd (startMode st lite v st)) st
  | MurphTick v => whenSome (murphView st) (fun _ => snd (tick st v st)) st
  | MurphRound => whenSome (murphView st) (fun _ => addRound st st) st
  | MurphSave v => whenSome (murphView st) (fun _ => snd (Murph_handleSave st v st)) st
  | RunSave d m s t => whenSome (runView st) (fun _ => Run_handleSave st d m s t st) st
  | DeleteStored i =>
      if (historyList st && existsb (fun s => (id s =? i)%string) (filteredSessions st))%bool
      then deleteSession i st else st
  | OpenEdit k =>
      if historyList st
      then whenSome (nth_error (filteredSessions st) k) (fun s => handleEdit s st) st
      else st
  | EditorChange a =>
      whenSome (editorView st)
        (fun s => if plainControl a s then updateEditingSession (edit a) st else st) st
  | EditorDeleteSet i j =>
      whenSome (editorView st)
        (fun s => whenSome (setAt s i j) (fun removed => editorDeleteSet i j removed st) st)
        st
  | EditorAddSet i =>
      whenSome (editorView st)
        (fun s => if (i <? List.length (exercises s))%nat then editorAddSet i st else st) st
  | SaveEdit => whenSome (editorView st) (fun _ => click saveEdit st) st
  | CancelEdit => whenSome (editorView st) (fun _ => handleCancelEdit st) st
  | Export =>
      if TrainingType_eqb (activeTab st) dashboard then exportBackup st else st
  | Reload => st
  end.

(** One event: nothing but loading the page again happens once the root is
    unmounted; otherwise the handler runs and the tree is rendered. *)
Definition step (e : Event) (st : App) : App :=
  match e with
  | Reload => reload st
  | _ => if crashed (page st) then st else remount st (handle e st)
  end.

Definition run_events (l : list Event) (st : App) : App :=
  fold_left (fun s e => step e s) l st.

(** The file chosen in the import dialog has been read (lines 354-376):
    [r] is the render in which it was chosen. *)
Definition fileLoaded (r : App) (parsed : option DB) (replace : bool) (st : App) : App :=
  if crashed (page st) then st else remount st (importBackup r parsed replace st).

(** The states the application can be in.  It starts from an empty store;
    then events happen; and a backup can be imported that the application
    itself exported, in this or in another of its states.  The render in
    which the file was chosen is some state before; any state the
    application can be in is allowed for it here.  A file that is not JSON
    only brings up a message. *)
Inductive reachable : App -> Prop :=
  | reach_start (w : World) : reachable (initApp w)
  | reach_step (e : Event) (st : App) : reachable st -> reachable (step e st)
  | reach_import (r exported st : App) (replace : bool) :
      reachable r -> reachable exported -> reachable st ->
      reachable (fileLoaded r (Some (JSON.roundTrip (db (core exported)))) replace st)
  | reach_import_failed (r st : App) :
      reachable r -> reachable st -> reachable (fileLoaded r None false st).

(** The sessions that exist in a state: the stored ones, the active one and
    the copy being edited. *)
Definition session_of (st : App) (s : TrainingSession) : Prop :=
  In s (sessions (db (core st)))
  \/ activeSession (core st) = Some s
  \/ editingSession (page st) = Some s.

(** *** The three kinds of content a session can carry *)

Definition hasStrength (s : TrainingSession) : bool :=
  negb (List.length (exercises s) =? 0)%nat
  || match totals s with Some _ => true | None => false end.

Definition hasMurph (s : TrainingSession) : bool :=
  match murphData s with Some _ => true | None => false end.

Definition hasRun (s : TrainingSession) : bool :=
  match runData s with Some _ => true | None => false end.

(** Exactly one of the three, the one the type selects. *)
Definition exclusive (s : TrainingSession) : bool :=
  match type s with
  | murph => negb (hasStrength s) && hasMurph s && negb (hasRun s)
  | run => negb (hasStrength s) && negb (hasMurph s) && hasRun s
  | _ => hasStrength s && negb (hasMurph s) && negb (hasRun s)
  end.

(** A strength session that has not been finalized and has lost all its
    exercises. *)
Definition emptied (s : TrainingSession) : bool :=
  isStrength (type s) && negb (completed s)
  && negb (hasStrength s) && negb (hasMurph s) && negb (hasRun s).

(** ** Sample data *)

Definition w0 : World := mkWorld 1700000000000 0.

Definition sampleSet (i : string) (w r : option float) : SetEntry :=
  mkSetEntry i w r None 1700000000000.

Definition sampleExercise (i n : string) (v : option string) (l : list SetEntry) : Exercise :=
  mkExercise i n v l None 0.

Definition sampleSession (i : string) (t : TrainingType) (d : Z) (done : bool)
    (l : list Exercise) : TrainingSession :=
  mkSession i t d done d None l None None None None None.

(** A session whose sets are all incomplete. *)
Definition blankSession : TrainingSession :=
  sampleSession "b" push 1 false
    [ sampleExercise "e1" "Dips" None
        [ sampleSet "s1" None None; sampleSet "s2" (Some 20%float) None ];
      sampleExercise "e2" "Military Press" None [ sampleSet "s3" None (Some 8%float) ] ].

(** A push session started from the template, with set 1 of Bankdrücken
    filled in as 80 kg x 5. *)
Definition pushScenario (w : World) : App :=
  run_events [ SelectTab push; NewTraining;
               TypeWeight 1 0 "80"; TypeReps 1 0 "5" ] (initApp w).

Definition pushInProgress : App := pushScenario w0.

Definition theActive (st : App) : TrainingSession :=
  match activeSession (core st) with
  | Some a => a
  | None => blankSession
  end.

(** A store holding one finished session, and a backup whose only session
    has the same id but other content. *)
Definition storedA : TrainingSession :=
  sampleSession "a" pull 5 true
    [ sampleExercise "e" "Klimmzüge" None [ sampleSet "s" (Some 10%float) (Some 8%float) ] ].

Definition importedA : TrainingSession :=
  sampleSession "a" push 9 true [].

Definition storeWithA : App :=
  mkApp (mkCore (mkDB 1 [storedA]) None) dashboard true None None [] w0
        (mkPage None 0 false).

Definition backupOfA : DB := mkDB 1 [importedA].

(** A store whose only finished pull session has Klimmzüge with five
    sets, looked at from the pull tab. *)
Definition fiveSets : list SetEntry :=
  [ sampleSet "k1" (Some 0%float) (Some 10%float);
    sampleSet "k2" (Some 0%float) (Some 9%float);
    sampleSet "k3" (Some 0%float) (Some 8%float);
    sampleSet "k4" (Some 0%float) (Some 7%float);
    sampleSet "k5" (Some 0%float) (Some 6%float) ].

Definition klimmzuege : Exercise := sampleExercise "k" "Klimmzüge" None fiveSets.

Definition pullDay : TrainingSession :=
  sampleSession "p1" pull 1700000000000 true
    [ sampleExercise "r" "Schweres Rudern" None [ sampleSet "r1" None None ]; klimmzuege ].

Definition pullTab : App :=
  mkApp (mkCore (mkDB 1 [ sampleSession "x" push 1700000500000 true []; pullDay ]) None)
        pull true None None [] w0 (mkPage None 0 false).

(** The same store with an earlier pull session in front, looked at while
    a pull session is going on that has the id of [pullDay]. *)
Definition oneSet : list SetEntry := [ sampleSet "j1" (Some 5%float) (Some 3%float) ].

Definition earlierPull : TrainingSession :=
  sampleSession "p0" pull 1690000000000 true
    [ sampleExercise "j" "Klimmzüge" None oneSet ].

Definition pullGoingOn : TrainingSession :=
  sampleSession "p1" pull 1700000900000 false [ klimmzuege ].

Definition pullActive : App :=
  mkApp (mkCore (mkDB 1 [ earlierPull; pullDay ]) (Some pullGoingOn))
        pull false None None [] w0 (mkPage None 0 false).

(** The session stored last. *)
Definition lastStored (st : App) : option TrainingSession :=
  match rev (sessions (db (core st))) with
  | x :: _ => Some x
  | [] => None
  end.

(** The sets of exercise [exIndex] of the active session. *)
Definition activeSets (st : App) (exIndex : nat) : option (list SetEntry) :=
  match activeSession (core st) with
  | Some a => option_map sets (nth_error (exercises a) exIndex)
  | None => None
  end.

(** The persisted time of the active Murph session. *)
Definition activeTotalTime (st : App) : option Z :=
  match activeSession (core st) with
  | Some a => totalTime (murphData_of a)
  | None => None
  end.

Definition pushFinished : App := step Save pushInProgress.

(** A Murph Lite workout whose timer has run for 1499 seconds. *)
Definition liteAt1499 : App :=
  run_events [ SelectTab murph; NewTraining;
               MurphMode true (mountMurphView (initApp w0));
               MurphTick (mkMurphView 1498 true false (Some true) false 10%float) ]
             (initApp w0).

Definition timerAt1499 : MurphView :=
  mkMurphView 1499 true false (Some true) false 10%float.

(** *** The numeric input contract as the specification words it

    "Accepts digits with either [,] or [.] as decimal separator; any other
    non-numeric residue is stripped before parse; empty or unparseable input
    maps to [null]." *)

Definition isNumericChar (c : ascii) : bool :=
  match JS.digitValue c with
  | Some _ => true
  | None => (Ascii.eqb c "," || Ascii.eqb c ".")%bool
  end.

Fixpoint stripResidue (s : string) : string :=
  match s with
  | EmptyString => EmptyString
  | String c s' => if isNumericChar c then String c (stripResidue s') else stripResidue s'
  end.

Definition parseNumber_as_specified (value : string) : option float :=
  let cleaned := JS.replace "," "." (stripResidue value) in
  if (cleaned =? "")%string then None
  else let parsed := JS.parseFloat cleaned in
       if JS.isNaN parsed then None else Some parsed.

(** The character [c] occurs in [t]. *)
Definition mentions (c : ascii) (t : string) : bool :=
  existsb (Ascii.eqb c) (list_ascii_of_string t).

(** *** The shape every session built by the application has

    A murph session carries [murphData] and nothing else, a run session
    [runData] and nothing else, and any other session carries neither of
    the two and has [totals] once it is completed. *)
Definition wellKeyed (s : TrainingSession) : bool :=
  match type s with
  | murph => hasMurph s && negb (hasRun s) && negb (hasStrength s)
  | run => hasRun s && negb (hasMurph s) && negb (hasStrength s)
  | _ => negb (hasMurph s) && negb (hasRun s)
         && (negb (completed s) || match totals s with Some _ => true | None => false end)
  end.

(** *** The status of a session

    A session's [completed], [endedAt] and [totals] fit together: a
    completed session has an end time and, when it is a strength session,
    totals whose set count is that of its own exercises; a session that is
    not completed has neither an end time nor totals.  (The volume in the
    totals is not part of this: a volume that is not finite comes back as
    [null] when the database is read again.) *)
Definition inSync (s : TrainingSession) : Prop :=
  if completed s
  then endedAt s <> None
       /\ (isStrength (type s) = true ->
           exists v, totals s = Some (mkTotals v (Some (countSets (exercises s)))))
  else endedAt s = None /\ totals s = None.

Definition finished (s : TrainingSession) : Prop :=
  completed s = true /\ endedAt s <> None.

(** What holds of a stored session, of the active session and of the copy
    in the editor. *)
Definition storedOk (s : TrainingSession) : Prop := wellKeyed s = true /\ inSync s.

Definition activeOk (a : TrainingSession) : Prop :=
  wellKeyed a = true /\ inSync a /\ completed a = false.

Definition editingOk (e : TrainingSession) : Prop := wellKeyed e = true /\ finished e.

Definition goodCore (c : Core) : Prop :=
  NoDup (map id (sessions (db c)))
  /\ Forall storedOk (sessions (db c))
  /\ (forall a, activeSession c = Some a -> activeOk a).

(** What a closure kept for Undo does to the part of the state it writes;
    the closure of the edit view only moves a set within the copy being
    edited. *)
Definition keeps (P : Core -> Prop) (u : UndoClosure) : Prop :=
  match u with
  | ViewUndo undo => forall c, P c -> P (undo c)
  | EditorUndo _ _ _ _ => True
  end.

Definition invariant (st : App) : Prop :=
  goodCore (core st)
  /\ (forall e, editingSession (page st) = Some e -> editingOk e)
  /\ (forall u, undoAction st = Some u -> keeps goodCore u).

(** Two states with the same sessions, the same copy in the editor and the
    same undo closure. *)
Definition sameCore (st st' : App) : Prop :=
  core st' = core st
  /\ editingSession (page st') = editingSession (page st)
  /\ undoAction st' = undoAction st.

(** A push session all of whose exercises were deleted before saving. *)
Definition emptiedPush : App :=
  run_events [ SelectTab push; NewTraining;
               DeleteExercise 0; DeleteExercise 0; DeleteExercise 0; DeleteExercise 0;
               DeleteExercise 0; DeleteExercise 0; DeleteExercise 0 ]
             (initApp w0).

Definition emptyingEvents : list Event :=
  [ SelectTab push; NewTraining;
    DeleteExercise 0; DeleteExercise 0; DeleteExercise 0; DeleteExercise 0;
    DeleteExercise 0; DeleteExercise 0; DeleteExercise 0 ].

Definition pushEvents : list Event :=
  [ SelectTab push; NewTraining; TypeWeight 1 0 "80"; TypeReps 1 0 "5" ].

(** The card of Bankdrücken in [pushInProgress] and its first set. *)
Definition bankdruecken : Exercise :=
  match card pushInProgress 1 with
  | Some ex => ex
  | None => sampleExercise "" "" None []
  end.

Definition firstSet : SetEntry :=
  match nth_error (sets bankdruecken) 0 with
  | Some x => x
  | None => sampleSet "" None None
  end.

(** ** Updaters *)

(** An updater that leaves the identity and the status of a session alone. *)
Definition keepsStatus (f : TrainingSession -> TrainingSession) : Prop :=
  forall s, id (f s) = id s /\ completed (f s) = completed s
            /\ endedAt (f s) = endedAt s /\ totals (f s) = totals s.

(** ** formatTime (lines 159-168)

    Durations are whole, non-negative numbers of seconds ([totalTime],
    [duration], the timer), so the argument is a natural number ([N]). *)







(** ** MurphView: the round button and the displayed time *)

(** [session.murphData?.rounds || 0] (line 1212). *)
Definition Murph_rounds (r : App) : Z :=
  match activeSession (core r) with
  | Some session => rounds (murphData_of session)
  | None => 0%Z
  end.

(** The button "+ Runde abgeschlossen" (lines 1373-1379): it is disabled
    when [!isLite && rounds >= 20]. *)
Definition clickAddRound (r : App) (st : App) : App :=
  if (negb (isLite' r) && (20 <=? Murph_rounds r)%Z)%bool then st else addRound r st.

(** Line 1137. *)
Definition timeRemaining (r : App) (v : MurphView) : Z :=
  if isLite' r then Z.max 0 (MURPH_LITE_TIME - elapsedTime v) else 0%Z.

(** [n] runs of the interval callback, each one created by the render that
    followed the one before. *)
Fixpoint ticks (n : nat) (v : MurphView) (st : App) : MurphView * App :=
  match n with
  | O => (v, st)
  | S n' => let (v', st') := tick st v st in ticks n' v' st'
  end.

Fixpoint clicks (n : nat) (handler : App -> App -> App) (st : App) : App :=
  match n with
  | O => st
  | S n' => clicks n' handler (click handler st)
  end.

(** ** DashboardView (lines 689-760)

    [now] is [new Date().getTime()] at the time of the render.  A date key
    ([toISOString().split('T')[0]], the UTC calendar day) is the number of
    that day since the epoch. *)

Module Dashboard.

Definition DAY : Z := 24 * 60 * 60 * 1000.

Definition dateKey (ms : Z) : Z := (ms / DAY)%Z.

(** [(m[key] || 0) + 1] stored back under [key]: an object used as a map
    from keys to counts, its keys in the order of their first insertion. *)
Section Counts.
Context {K : Type} (eqb : K -> K -> bool).

Fixpoint bump (key : K) (m : list (K * nat)) : list (K * nat) :=
  match m with
  | [] => [(key, 1%nat)]
  | (k, n) :: m' => if eqb k key then (k, S n) :: m' else (k, n) :: bump key m'
  end.

(** [m[key] || 0] *)
Fixpoint lookup (key : K) (m : list (K * nat)) : nat :=
  match m with
  | [] => 0%nat
  | (k, n) :: m' => if eqb k key then n else lookup key m'
  end.

Definition tally (keys : list K) : list (K * nat) :=
  fold_left (fun m k => bump k m) keys [].
End Counts.

Section View.
Variables (db' : DB) (now : Z).

Definition completedSessions : list TrainingSession :=
  filter completed (sessions db').

Definition since (days : Z) (l : list TrainingSession) : list TrainingSession :=
  filter (fun s => (now - days * DAY <=? date s)%Z) l.

Definition last30Days : list TrainingSession := since 30 completedSessions.
Definition last7Days : list TrainingSession := since 7 completedSessions.

(** [s.totals?.volumeKg] *)
Definition totalsVolume (s : TrainingSession) : option float :=
  match totals s with
  | Some t => volumeKg t
  | None => None
  end.

Definition volumeOver (l : list TrainingSession) : float :=
  fold_left (fun sum s => (sum + orZero (totalsVolume s))%float)
    (filter (fun s => match totalsVolume s with
                      | Some v => JS.truthy v
                      | None => false
                      end) l)
    0%float.

Definition volumeLast30Days : float := volumeOver last30Days.
Definition volumeLast7Days : float := volumeOver last7Days.

Definition typeLabel (t : TrainingType) : string :=
  match t with
  | push => "Push"
  | pull => "Pull"
  | legs_core => "Beine/Bauch"
  | murph => "Murph"
  | _ => "Laufen"
  end.

Definition splitCounts : list (string * nat) :=
  tally String.eqb (map (fun s => typeLabel (type s)) last30Days).

(** [Object.values(splitCounts).reduce((a, b) => a + b, 0)] *)
Definition total : nat :=
  fold_left (fun a b => (a + b)%nat) (map snd splitCounts) 0%nat.

Definition heatmapData : list (Z * nat) :=
  tally Z.eqb (map (fun s => dateKey (date s)) (since 90 completedSessions)).

(** The count behind cell [i] of the ninety cells (lines 776-790). *)
Definition cellKey (i : nat) : Z := dateKey (now - (89 - Z.of_nat i) * DAY).

Definition cellCount (i : nat) : nat := lookup Z.eqb (cellKey i) heatmapData.

Definition intensity (count : nat) : string :=
  match count with
  | 0 => "bg-gray-700"
  | 1 => "bg-green-900"
  | 2 => "bg-green-700"
  | _ => "bg-green-500"
  end.
End View.

End Dashboard.

(** The finished push session with the filled-in set deleted again in the
    history view. *)
Definition editedPush : App :=
  run_events (pushEvents ++ [Save; OpenEdit 0; EditorDeleteSet 1 0; SaveEdit]) (initApp w0).

Definition theLast (st : App) : TrainingSession :=
  match lastStored st with
  | Some s => s
  | None => blankSession
  end.

(** The finished push session opened in the history editor, and the same
    with the filled-in set deleted there. *)
Definition editingPush : App :=
  run_events (pushEvents ++ [Save; OpenEdit 0]) (initApp w0).

Definition deletingInEditor : App := step (EditorDeleteSet 1 0) editingPush.

(** In the editor, a set of the last exercise is deleted and then the
    exercise itself. *)
Definition crashingEvents : list Event :=
  pushEvents ++ [ Save; OpenEdit 0; EditorDeleteSet 6 0;
                  EditorChange (EditDeleteExercise 6) ].

Definition beforeCrash : App := run_events crashingEvents (initApp w0).

(** A push session saved with a weight that [parseFloat] reads as
    [Infinity]. *)
Definition hugeEvents : list Event :=
  [ SelectTab push; NewTraining; TypeWeight 1 0 "1e999"; TypeReps 1 0 "5"; Save ].

Definition hugePush : App := run_events hugeEvents (initApp w0).

(** A Murph Full workout right after the mode was chosen, and a running
    timer. *)
Definition fullStarted : App :=
  run_events [ SelectTab murph; NewTraining;
               MurphMode false (mountMurphView (initApp w0)) ]
             (initApp w0).

Definition runningAt (t : Z) : MurphView :=
  mkMurphView t true false None false 10%float.

(** ** Fresh sets and exercises *)

(** A set as it is created: neither weight nor repetitions. *)
Definition blankSet (x : SetEntry) : bool :=
  match weightKg x, reps x with
  | None, None => true
  | _, _ => false
  end.

Definition allBlank (ex : Exercise) : bool := forallb blankSet (sets ex).

(** What [createNewSession] makes of an entry of a template. *)
Definition fromTemplate (t : ExerciseNoId) (ex : Exercise) : Prop :=
  name ex = t_name t /\ variation ex = t_variation t
  /\ targetRepHint ex = t_targetRepHint t /\ order ex = t_order t
  /\ List.length (sets ex) = defaultSetCount (t_name t)
  /\ allBlank ex = true.

(** An exercise without its sets. *)
Definition header (ex : Exercise) : Exercise := with_sets ex [].

(** * Properties *)

(** ** Volume *)

Lemma fold_sets_volume (l : list SetEntry) (total : float) :
  fold_left
    (fun total set =>
       match weightKg set, reps set with
       | Some w, Some r => (total + w * r)%float
       | _, _ => total
       end) l total
  = fold_left PrimFloat.add (map load (filter bothPresent l)) total.
Proof.
  revert total.
  induction l as [|set l IH]; intro total; simpl; [reflexivity|].
  unfold bothPresent at 1.
  destruct set as [i [w|] [r|] n c]; simpl; apply IH.
Qed.

Lemma fold_exercises_volume (exs : list Exercise) (total : float) :
  fold_left
    (fun total ex =>
       fold_left
         (fun total set =>
            match weightKg set, reps set with
            | Some w, Some r => (total + w * r)%float
            | _, _ => total
            end) (sets ex) total) exs total
  = fold_left PrimFloat.add (map load (filter bothPresent (flat_map sets exs))) total.
Proof.
  revert total.
  induction exs as [|ex exs IH]; intro total; simpl; [reflexivity|].
  rewrite IH, fold_sets_volume, filter_app, map_app, fold_left_app.
  reflexivity.
Qed.

Lemma calcVolume_volume_spec (session : TrainingSession) :
  calcVolume session = volume_spec session.
Proof. apply fold_exercises_volume. Qed.

Lemma filter_none {A : Type} (p : A -> bool) (l : list A) :
  forallb (fun x => negb (p x)) l = true -> filter p l = [].
Proof.
  induction l as [|x l IH]; simpl; [reflexivity|].
  destruct (p x); simpl; [discriminate|exact IH].
Qed.

Lemma countSets_from (l : list Exercise) (n : nat) :
  fold_left (fun sum ex => (sum + List.length (sets ex))%nat) l n
  = (n + List.length (flat_map sets l))%nat.
Proof.
  revert n; induction l as [|ex l IH]; intro n; simpl; [lia|].
  rewrite IH, length_app; lia.
Qed.

Lemma countSets_allSets (l : list Exercise) :
  countSets l = List.length (flat_map sets l).
Proof. unfold countSets; rewrite countSets_from; reflexivity. Qed.

Lemma countSets_list_sum (l : list Exercise) :
  countSets l = list_sum (map (fun ex => List.length (sets ex)) l).
Proof.
  rewrite countSets_allSets.
  induction l as [|ex l IH]; simpl; [reflexivity|].
  rewrite length_app, IH; reflexivity.
Qed.

(** C1.  The volume [calcVolume] returns is the sum, taken from 0 in the
    order of the session, of [weightKg * reps] over the sets of all
    exercises that have both fields; a set with a missing field adds
    nothing, wherever it stands; and a session all of whose sets miss a
    field has volume 0. *)
Theorem calcVolume_is_sum_over_complete_sets (session : TrainingSession) :
  calcVolume session = volume_spec session
  /\ (forall (before after : list Exercise) (ex : Exercise)
             (l1 l2 : list SetEntry) (set : SetEntry),
        exercises session = before ++ with_sets ex (l1 ++ set :: l2) :: after ->
        bothPresent set = false ->
        calcVolume session
        = calcVolume (with_exercises session
                        (before ++ with_sets ex (l1 ++ l2) :: after)))
  /\ (forallb (fun set => negb (bothPresent set)) (allSets session) = true ->
      calcVolume session = 0%float).
Proof.
  split; [apply calcVolume_volume_spec|split].
  - intros before after ex l1 l2 set Hex Hset.
    rewrite !calcVolume_volume_spec.
    unfold volume_spec, allSets; simpl; rewrite Hex.
    rewrite !flat_map_app; simpl.
    rewrite !filter_app; simpl; rewrite Hset; reflexivity.
  - intro Hall.
    rewrite calcVolume_volume_spec; unfold volume_spec.
    rewrite (filter_none _ _ Hall); reflexivity.
Qed.

Lemma calcVolume_is_sum_over_complete_sets_witness :
  calcVolume blankSession
  = calcVolume (with_exercises blankSession
                  ([] ++ with_sets (sampleExercise "e1" "Dips" None [])
                                   ([sampleSet "s1" None None] ++ [])
                      :: [ sampleExercise "e2" "Military Press" None
                             [ sampleSet "s3" None (Some 8%float) ] ]))
  /\ calcVolume blankSession = 0%float.
Proof.
  destruct (calcVolume_is_sum_over_complete_sets blankSession) as (_ & Hskip & Hzero).
  split.
  - apply (Hskip [] _ (sampleExercise "e1" "Dips" None [])
                 [sampleSet "s1" None None] [] (sampleSet "s2" (Some 20%float) None));
      reflexivity.
  - apply Hzero; reflexivity.
Defined.

(** ** Finalization *)

Lemma saveActiveSession_core (st : App) (a : TrainingSession) :
  activeSession (core st) = Some a ->
  core (click saveActiveSession st)
  = mkCore (upsert (completedSession a (clock (world st))) (db (core st))) None.
Proof.
  intro Ha; unfold click, saveActiveSession; rewrite Ha; reflexivity.
Qed.

Lemma completedSession_frame (a : TrainingSession) (now : Z) :
  let c := completedSession a now in
  id c = id a /\ type c = type a /\ date c = date a /\ startedAt c = startedAt a
  /\ exercises c = exercises a /\ location c = location a /\ notes c = notes a
  /\ murphData c = murphData a /\ runData c = runData a
  /\ completed c = true /\ endedAt c = Some now.
Proof.
  unfold completedSession; destruct (isStrength (type a)); simpl; repeat split.
Qed.

Lemma includes_In (l : list string) (x : string) :
  includes l x = true <-> In x l.
Proof.
  unfold includes; rewrite existsb_exists; split.
  - intros (y & Hy & Heq); apply String.eqb_eq in Heq; subst; exact Hy.
  - intro Hx; exists x; split; [exact Hx|apply String.eqb_refl].
Qed.

Lemma filter_filter_same {A : Type} (p : A -> bool) (l : list A) :
  filter p (filter p l) = filter p l.
Proof.
  induction l as [|x l IH]; simpl; [reflexivity|].
  destruct (p x) eqn:E; simpl; rewrite ?E, IH; reflexivity.
Qed.

(** C2.  Saving a strength session (neither murph nor run) that is active
    stores it, as the last session of the store, with [completed] set,
    [endedAt] the current time, [totals.setCount] the sum of the lengths of
    the set arrays of its exercises (every set counts, filled in or not) and
    [totals.volumeKg] the volume formula; the active-session slot is
    cleared. *)
Theorem finalize_strength_session (st : App) (a : TrainingSession) :
  activeSession (core st) = Some a ->
  isStrength (type a) = true ->
  exists c : TrainingSession,
    sessions (db (core (click saveActiveSession st)))
    = filter (fun s => negb (id s =? id a)%string) (sessions (db (core st))) ++ [c]
    /\ activeSession (core (click saveActiveSession st)) = None
    /\ completed c = true
    /\ endedAt c = Some (clock (world st))
    /\ totals c
       = Some (mkTotals (Some (volume_spec a))
                        (Some (list_sum (map (fun ex => List.length (sets ex))
                                             (exercises a))))).
Proof.
  intros Ha Hty.
  exists (completedSession a (clock (world st))).
  rewrite (saveActiveSession_core st a Ha); simpl.
  destruct (completedSession_frame a (clock (world st)))
    as (Hid & _ & _ & _ & _ & _ & _ & _ & _ & Hc & He).
  rewrite Hid, Hc, He.
  repeat split.
  unfold completedSession; rewrite Hty; simpl.
  rewrite calcVolume_volume_spec, countSets_list_sum; reflexivity.
Qed.

Lemma finalize_strength_session_witness :
  exists c : TrainingSession,
    sessions (db (core (click saveActiveSession pushInProgress)))
    = filter (fun s => negb (id s =? id (theActive pushInProgress))%string)
             (sessions (db (core pushInProgress))) ++ [c]
    /\ activeSession (core (click saveActiveSession pushInProgress)) = None
    /\ completed c = true
    /\ endedAt c = Some (clock (world pushInProgress))
    /\ totals c
       = Some (mkTotals (Some (volume_spec (theActive pushInProgress)))
                        (Some (list_sum (map (fun ex => List.length (sets ex))
                                             (exercises (theActive pushInProgress)))))).
Proof.
  apply (finalize_strength_session pushInProgress (theActive pushInProgress));
    vm_compute; reflexivity.
Defined.

(** C10.  Saving the active session changes, in the stored copy, only
    [completed], [endedAt] and, for a strength session, [totals]; [id],
    [type], [date], [startedAt], [exercises] (hence every set with its id,
    weight, repetitions and creation time), [location], [notes], [murphData]
    and [runData] are those of the active session.  The sessions with
    another id stay in the store as they were and in the same order, and
    the store's version is kept. *)
Theorem finalize_frame (st : App) (a : TrainingSession) :
  activeSession (core st) = Some a ->
  exists c : TrainingSession,
    sessions (db (core (click saveActiveSession st)))
    = filter (fun s => negb (id s =? id a)%string) (sessions (db (core st))) ++ [c]
    /\ version (db (core (click saveActiveSession st))) = version (db (core st))
    /\ (id c = id a /\ type c = type a /\ date c = date a
        /\ startedAt c = startedAt a /\ exercises c = exercises a
        /\ location c = location a /\ notes c = notes a
        /\ murphData c = murphData a /\ runData c = runData a)
    /\ (isStrength (type a) = false -> totals c = totals a)
    /\ filter (fun s => negb (id s =? id a)%string)
              (sessions (db (core (click saveActiveSession st))))
       = filter (fun s => negb (id s =? id a)%string) (sessions (db (core st))).
Proof.
  intro Ha.
  exists (completedSession a (clock (world st))).
  rewrite (saveActiveSession_core st a Ha); simpl.
  destruct (completedSession_frame a (clock (world st)))
    as (Hid & Hty & Hd & Hs & Hex & Hl & Hn & Hm & Hr & _ & _).
  rewrite Hid.
  split; [reflexivity|].
  split; [reflexivity|].
  split; [repeat split; assumption|].
  split.
  - intro Hns; unfold completedSession; rewrite Hns; reflexivity.
  - rewrite filter_app, filter_filter_same; simpl.
    rewrite Hid, String.eqb_refl; simpl; apply app_nil_r.
Qed.

Lemma finalize_frame_witness :
  exists c : TrainingSession,
    sessions (db (core (click saveActiveSession pushInProgress)))
    = filter (fun s => negb (id s =? id (theActive pushInProgress))%string)
             (sessions (db (core pushInProgress))) ++ [c]
    /\ exercises c = exercises (theActive pushInProgress).
Proof.
  destruct (finalize_frame pushInProgress (theActive pushInProgress))
    as (c & Hs & _ & (_ & _ & _ & _ & Hex & _) & _).
  - vm_compute; reflexivity.
  - exists c; split; assumption.
Defined.

(** ** Import *)

Lemma importBackup_merge (r st : App) (imported : DB) :
  db (core (importBackup r (Some imported) false st))
  = mergeBackup (db (core r)) imported.
Proof. reflexivity. Qed.

(** C5.  Answering the import dialog with "merge" keeps the sessions of the
    current store, in order and unchanged, and appends the imported
    sessions whose id does not occur in the current store, and only those;
    an imported session whose id is taken is dropped, so every session of
    the result with that id is one of the current store; and when the
    backup holds a single session whose id is taken, the store's sessions,
    and so their number, are unchanged. *)
Theorem merge_import_policy (r st : App) (imported : DB) :
  let current := db (core r) in
  let merged := db (core (importBackup r (Some imported) false st)) in
  let taken := fun s : TrainingSession =>
                 if in_dec string_dec (id s) (map id (sessions current))
                 then true else false in
  sessions merged
  = sessions current ++ filter (fun s => negb (taken s)) (sessions imported)
  /\ (forall s x : TrainingSession,
        In s (sessions imported) -> taken s = true ->
        In x (sessions merged) -> id x = id s ->
        In x (sessions current))
  /\ (forall s : TrainingSession,
        sessions imported = [s] -> taken s = true ->
        sessions merged = sessions current
        /\ List.length (sessions merged) = List.length (sessions current)).
Proof.
  intros current merged taken.
  assert (Hf : forall l : list TrainingSession,
             filter (fun s => negb (includes (map id (sessions current)) (id s))) l
             = filter (fun s => negb (taken s)) l).
  { intro l; apply filter_ext; intro s; unfold taken.
    destruct (in_dec string_dec (id s) (map id (sessions current))) as [Hin|Hout].
    - apply includes_In in Hin; rewrite Hin; reflexivity.
    - destruct (includes (map id (sessions current)) (id s)) eqn:E; [|reflexivity].
      apply includes_In in E; contradiction. }
  assert (Hm : sessions merged
               = sessions current ++ filter (fun s => negb (taken s)) (sessions imported)).
  { unfold merged; rewrite importBackup_merge.
    unfold mergeBackup; simpl; fold current; rewrite Hf; reflexivity. }
  split; [exact Hm|split].
  - intros s x _ Hs Hx Hid.
    rewrite Hm in Hx; apply in_app_or in Hx; destruct Hx as [Hx|Hx]; [exact Hx|].
    apply filter_In in Hx; destruct Hx as (_ & Hx).
    unfold taken in Hs, Hx; rewrite Hid in Hx.
    destruct (in_dec string_dec (id s) (map id (sessions current))); discriminate.
  - intros s Hone Hs.
    rewrite Hm, Hone; simpl; rewrite Hs; simpl.
    rewrite app_nil_r; split; reflexivity.
Qed.

Lemma merge_import_policy_witness :
  sessions (db (core (importBackup storeWithA (Some backupOfA) false storeWithA)))
  = sessions (db (core storeWithA))
  /\ List.length (sessions (db (core (importBackup storeWithA (Some backupOfA)
                                                   false storeWithA))))
     = List.length (sessions (db (core storeWithA))).
Proof.
  destruct (merge_import_policy storeWithA storeWithA backupOfA) as (_ & _ & H).
  apply (H importedA); reflexivity.
Defined.

(** ** The look-up of the last performance *)

Section SortByKey.
Context {A : Type} (key : A -> Z).

Let cmp := fun a b : A => (key b - key a)%Z.
Let later_first := fun a b : A => (key b <= key a)%Z.

Lemma insert_sorted_perm (x : A) (l : list A) :
  Permutation (insert_sorted cmp x l) (x :: l).
Proof.
  induction l as [|y l IH]; simpl; [apply Permutation_refl|].
  destruct (cmp x y <=? 0)%Z; [apply Permutation_refl|].
  eapply perm_trans; [apply perm_skip, IH|apply perm_swap].
Qed.

Lemma Array_sort_perm (l : list A) : Permutation (Array_sort cmp l) l.
Proof.
  induction l as [|x l IH]; simpl; [apply perm_nil|].
  eapply perm_trans; [apply insert_sorted_perm|apply perm_skip, IH].
Qed.

Lemma insert_sorted_sorted (x : A) (l : list A) :
  StronglySorted later_first l -> StronglySorted later_first (insert_sorted cmp x l).
Proof.
  induction 1 as [|y l Hl IH Hy]; simpl.
  - constructor; constructor.
  - destruct (cmp x y <=? 0)%Z eqn:E.
    + apply Z.leb_le in E; unfold cmp in E.
      constructor; [constructor; assumption|].
      constructor; [unfold later_first; lia|].
      eapply Forall_impl; [|exact Hy].
      unfold later_first; intros z Hz; lia.
    + apply Z.leb_gt in E; unfold cmp in E.
      constructor; [exact IH|].
      eapply Permutation_Forall; [apply Permutation_sym, insert_sorted_perm|].
      constructor; [unfold later_first; lia|exact Hy].
Qed.

Lemma Array_sort_sorted (l : list A) : StronglySorted later_first (Array_sort cmp l).
Proof.
  induction l as [|x l IH]; simpl; [constructor|].
  apply insert_sorted_sorted, IH.
Qed.
End SortByKey.

Lemma matches_exact (exerciseName : string) (variation' : option string) (ex : Exercise) :
  matches exerciseName variation' ex = true
  <-> name ex = exerciseName /\ variation ex = variation'.
Proof.
  unfold matches, option_string_eqb; rewrite andb_true_iff, String.eqb_eq.
  destruct (variation ex) as [v|], variation' as [v'|];
    try rewrite String.eqb_eq; intuition congruence.
Qed.

Lemma findLastSet_loop_skip (n : string) (v : option string) (i : nat)
    (before rest : list TrainingSession) :
  (forall s, In s before -> find (matches n v) (exercises s) = None) ->
  findLastSet_loop n v i (before ++ rest) = findLastSet_loop n v i rest.
Proof.
  induction before as [|s before IH]; intro Hnone; simpl; [reflexivity|].
  rewrite (Hnone s (or_introl eq_refl)).
  apply IH; intros s' Hs'; apply Hnone; right; exact Hs'.
Qed.

Lemma nth_error_last_some {A : Type} (l : list A) :
  l <> [] -> nth_error l (List.length l - 1) <> None.
Proof.
  intros Hl Hnone; apply nth_error_None in Hnone.
  destruct l; [congruence|simpl in Hnone; lia].
Qed.

(** An exercise that matches but has no sets does not end the scan. *)
Lemma findLastSet_loop_empty_exercise (n : string) (v : option string) (i : nat)
    (session : TrainingSession) (rest : list TrainingSession) (exercise : Exercise) :
  find (matches n v) (exercises session) = Some exercise ->
  sets exercise = [] ->
  findLastSet_loop n v i (session :: rest) = findLastSet_loop n v i rest.
Proof.
  intros Hfind Hsets; simpl; rewrite Hfind, Hsets.
  destruct i; reflexivity.
Qed.

(** What [s.type === activeTab && s.completed && s.id !== activeSession?.id]
    says of a session. *)
Lemma scanned_filter (r : App) (s : TrainingSession) :
  (TrainingType_eqb (type s) (activeTab r) && completed s
   && match activeSession (core r) with
      | Some a => negb (id s =? id a)%string
      | None => true
      end)%bool = true
  <-> type s = activeTab r /\ completed s = true
      /\ (forall a, activeSession (core r) = Some a -> id s <> id a).
Proof.
  rewrite !andb_true_iff.
  assert (Hty : TrainingType_eqb (type s) (activeTab r) = true <-> type s = activeTab r).
  { destruct (type s), (activeTab r); simpl; split; intro H;
      try discriminate H; reflexivity. }
  rewrite Hty; destruct (activeSession (core r)) as [a|].
  - rewrite negb_true_iff; split.
    + intros ((H1 & H2) & H3); split; [exact H1|split; [exact H2|]].
      intros a' Ha'; injection Ha' as <-.
      apply String.eqb_neq, H3.
    + intros (H1 & H2 & H3); split; [split; assumption|].
      apply String.eqb_neq, H3; reflexivity.
  - split.
    + intros ((H1 & H2) & _); split; [exact H1|split; [exact H2|]].
      intros a Ha; discriminate Ha.
    + intros (H1 & H2 & _); split; [split; assumption|reflexivity].
Qed.

(** C3.  [findLastSet] scans the stored sessions that are completed, of the
    type of the current tab and whose id is not the id of the active
    session (when there is one), each as often as it is stored, latest date
    first.  In the first of them that has an exercise with exactly the given
    name and variation, it takes the first such exercise and returns its set
    at [setIndex] when there is one, and otherwise its last set when it has
    any.  When none of them has such an exercise the result is [null]. *)
Theorem findLastSet_two_tier (r : App) (exerciseName : string)
    (variation' : option string) (setIndex : nat) :
  let scanned := completedSessions r in
  let found := findLastSet r exerciseName variation' setIndex in
  (forall s, In s scanned <->
             In s (sessions (db (core r)))
             /\ type s = activeTab r /\ completed s = true
             /\ (forall a, activeSession (core r) = Some a -> id s <> id a))
  /\ Permutation scanned
       (filter (fun s => TrainingType_eqb (type s) (activeTab r) && completed s
                         && match activeSession (core r) with
                            | Some a => negb (id s =? id a)%string
                            | None => true
                            end)
               (sessions (db (core r))))
  /\ StronglySorted (fun a b => (date b <= date a)%Z) scanned
  /\ (forall ex, matches exerciseName variation' ex = true
                 <-> name ex = exerciseName /\ variation ex = variation')
  /\ (forall before session after exercise,
        scanned = before ++ session :: after ->
        (forall s, In s before ->
                   find (matches exerciseName variation') (exercises s) = None) ->
        find (matches exerciseName variation') (exercises session) = Some exercise ->
        (forall set, nth_error (sets exercise) setIndex = Some set -> found = Some set)
        /\ (nth_error (sets exercise) setIndex = None -> sets exercise <> [] ->
            found = nth_error (sets exercise) (List.length (sets exercise) - 1)
            /\ found <> None))
  /\ ((forall s, In s scanned ->
                 find (matches exerciseName variation') (exercises s) = None) ->
      found = None).
Proof.
  intros scanned found.
  assert (Hperm : Permutation scanned
            (filter (fun s => TrainingType_eqb (type s) (activeTab r) && completed s
                              && match activeSession (core r) with
                                 | Some a => negb (id s =? id a)%string
                                 | None => true
                                 end)
                    (sessions (db (core r)))))
    by apply (Array_sort_perm date).
  split.
  { intro s; split; intro H.
    - eapply Permutation_in in H; [|exact Hperm].
      apply filter_In in H; destruct H as (H1 & H2); split; [exact H1|].
      apply (scanned_filter r s), H2.
    - eapply Permutation_in; [apply Permutation_sym, Hperm|].
      apply filter_In; destruct H as (H1 & H2); split; [exact H1|].
      apply (scanned_filter r s), H2. }
  split; [exact Hperm|].
  split; [apply (Array_sort_sorted date)|].
  split; [intro ex; apply matches_exact|].
  split.
  - intros before session after exercise Hscan Hbefore Hfind.
    unfold found, findLastSet; fold scanned; rewrite Hscan.
    rewrite (findLastSet_loop_skip _ _ _ before _ Hbefore); simpl; rewrite Hfind.
    split.
    + intros set Hset; rewrite Hset; reflexivity.
    + intros Hnone Hsets; rewrite Hnone.
      destruct (sets exercise) as [|x l] eqn:E; [congruence|].
      simpl Nat.ltb; cbv iota.
      split; [reflexivity|].
      apply nth_error_last_some; discriminate.
  - intro Hnone.
    unfold found, findLastSet; fold scanned.
    rewrite <- (app_nil_r scanned).
    apply (findLastSet_loop_skip _ _ _ scanned [] Hnone).
Qed.

Lemma findLastSet_two_tier_witness :
  findLastSet pullTab "Klimmzüge" None 10 = nth_error fiveSets 4
  /\ findLastSet pullTab "Klimmzüge" None 10 <> None
  /\ findLastSet pullTab "Klimmzüge" None 2 = nth_error fiveSets 2
  /\ findLastSet pullTab "Kreuzheben" None 0 = None
  /\ In pullDay (sessions (db (core pullActive)))
  /\ ~ In pullDay (completedSessions pullActive)
  /\ findLastSet pullActive "Klimmzüge" None 2 = nth_error oneSet 0.
Proof.
  destruct (findLastSet_two_tier pullTab "Klimmzüge" None 10)
    as (_ & _ & _ & _ & H10 & _).
  destruct (H10 [] pullDay [] klimmzuege) as (_ & Hlast);
    [reflexivity|intros s []|reflexivity|].
  destruct Hlast as (Hlast & Hsome); [reflexivity|discriminate|].
  destruct (findLastSet_two_tier pullTab "Klimmzüge" None 2)
    as (_ & _ & _ & _ & H2 & _).
  destruct (H2 [] pullDay [] klimmzuege) as (Hat & _);
    [reflexivity|intros s []|reflexivity|].
  destruct (findLastSet_two_tier pullTab "Kreuzheben" None 0)
    as (_ & _ & _ & _ & _ & H0).
  destruct (findLastSet_two_tier pullActive "Klimmzüge" None 2)
    as (Hin & _ & _ & _ & Hskip & _).
  destruct (Hskip [] earlierPull [] (sampleExercise "j" "Klimmzüge" None oneSet))
    as (_ & Hfall); [reflexivity|intros s []|reflexivity|].
  destruct Hfall as (Hfall & _); [reflexivity|discriminate|].
  split; [exact Hlast|].
  split; [exact Hsome|].
  split; [exact (Hat _ eq_refl)|].
  split; [apply H0; intros s [<-|[]]; reflexivity|].
  split; [right; left; reflexivity|].
  split; [|exact Hfall].
  intro Hscanned; apply Hin in Hscanned.
  destruct Hscanned as (_ & _ & _ & Hid).
  apply (Hid pullGoingOn); reflexivity.
Defined.

(** ** Numeric input *)

Lemma parseNumber_blank (value : string) :
  JS.trim value = "" -> parseNumber value = None.
Proof.
  intro H; unfold parseNumber; rewrite H; simpl.
  rewrite orb_true_r; reflexivity.
Qed.

Lemma parseNumber_not_nan (value : string) (x : float) :
  parseNumber value = Some x -> PrimFloat.is_nan x = false.
Proof.
  unfold parseNumber, JS.isNaN.
  destruct (_ || _)%bool; [discriminate|].
  destruct (PrimFloat.is_nan _) eqn:E; [discriminate|].
  intro H; injection H as <-; exact E.
Qed.

Lemma parseNumber_separators :
  parseNumber "82,5" = Some 82.5%float /\ parseNumber "82.5" = Some 82.5%float
  /\ parseNumber "" = None /\ parseNumber "   " = None /\ parseNumber "kg" = None.
Proof. vm_compute; repeat split; reflexivity. Qed.

Lemma dropPrefix_before (c : ascii) (t u r : string) :
  mentions c t = false ->
  JS.dropPrefix t (u ++ String c "")%string = Some r ->
  exists u', r = (u' ++ String c "")%string.
Proof.
  revert u; induction t as [|a t IH]; intros u Ht H; simpl in H.
  - injection H as <-; exists u; reflexivity.
  - unfold mentions in Ht; simpl in Ht; apply orb_false_iff in Ht; destruct Ht as (Hca & Ht).
    destruct u as [|b u]; simpl in H.
    + rewrite Ascii.eqb_sym, Hca in H; discriminate H.
    + destruct (Ascii.eqb a b); [|discriminate H].
      apply (IH u Ht H).
Qed.

Lemma firstDrop_before (c : ascii) (tokens : list string) (u r : string) :
  forallb (fun t => negb (mentions c t)) tokens = true ->
  JS.firstDrop tokens (u ++ String c "")%string = Some r ->
  exists u', r = (u' ++ String c "")%string.
Proof.
  induction tokens as [|t tokens IH]; intros Hall H; simpl in H; [discriminate H|].
  simpl in Hall; apply andb_true_iff in Hall; destruct Hall as (Ht & Hall).
  destruct (JS.dropPrefix t (u ++ String c "")%string) as [r'|] eqn:E.
  - injection H as <-; apply negb_true_iff in Ht.
    apply (dropPrefix_before c t u r' Ht E).
  - apply (IH Hall H).
Qed.

Lemma trimWith_before (c : ascii) (tokens : list string) (fuel : nat) (u : string) :
  forallb (fun t => negb (mentions c t)) tokens = true ->
  exists u', JS.trimWith tokens fuel (u ++ String c "")%string = (u' ++ String c "")%string.
Proof.
  intro Hall; revert u; induction fuel as [|fuel IH]; intro u; simpl.
  - exists u; reflexivity.
  - destruct (JS.firstDrop tokens (u ++ String c "")%string) as [r|] eqn:E.
    + destruct (firstDrop_before c tokens u r Hall E) as (u' & ->); apply IH.
    + exists u; reflexivity.
Qed.

Lemma list_ascii_of_string_app (a b : string) :
  list_ascii_of_string (a ++ b)%string = list_ascii_of_string a ++ list_ascii_of_string b.
Proof. induction a as [|x a IH]; simpl; [reflexivity|rewrite IH; reflexivity]. Qed.

Lemma string_of_list_ascii_snoc (l : list ascii) (c : ascii) :
  string_of_list_ascii (l ++ [c]) = (string_of_list_ascii l ++ String c "")%string.
Proof. induction l as [|x l IH]; simpl; [reflexivity|rewrite IH; reflexivity]. Qed.

Lemma reverse_cons (c : ascii) (s : string) :
  JS.reverse (String c s) = (JS.reverse s ++ String c "")%string.
Proof. unfold JS.reverse; simpl; apply string_of_list_ascii_snoc. Qed.

Lemma reverse_snoc (c : ascii) (s : string) :
  JS.reverse (s ++ String c "")%string = String c (JS.reverse s).
Proof.
  unfold JS.reverse; rewrite list_ascii_of_string_app, rev_app_distr; reflexivity.
Qed.

Lemma trim_keeps_x (rest : string) :
  exists rest', JS.trim (String "x" rest) = String "x" rest'.
Proof.
  unfold JS.trim.
  assert (Hs : JS.trimStart (String "x" rest) = String "x" rest) by reflexivity.
  rewrite Hs; unfold JS.trimEnd; rewrite reverse_cons.
  destruct (trimWith_before "x" (map JS.reverse JS.whiteSpace)
              (String.length (String "x" rest)) (JS.reverse rest)) as (u' & ->);
    [vm_compute; reflexivity|].
  rewrite reverse_snoc; eexists; reflexivity.
Qed.

(** C9.  What the code does with residue.  [parseNumber] removes nothing
    but the surrounding white space: a text that starts with a letter is
    rejected whatever follows it, digits included, and [parseFloat] reads
    the longest numeric prefix and ignores what follows, so ["x80"] gives
    [null] and ["8x0"] gives 8, where stripping the residue first gives 80
    for both.  Only the first comma becomes a dot. *)
Theorem parseNumber_does_not_strip_residue (rest : string) :
  parseNumber (String "x" rest) = None
  /\ parseNumber_as_specified "x80" = Some 80%float
  /\ parseNumber "8x0" = Some 8%float
  /\ parseNumber_as_specified "8x0" = Some 80%float
  /\ parseNumber "1,5,5" = Some 1.5%float.
Proof.
  split.
  - unfold parseNumber.
    destruct (trim_keeps_x rest) as (rest' & ->).
    reflexivity.
  - split; [vm_compute; reflexivity|].
    split; [vm_compute; reflexivity|].
    split; vm_compute; reflexivity.
Qed.

(** ** What the views are rendered for *)

Lemma strengthView_active (st : App) (a : TrainingSession) :
  strengthView st = Some a ->
  activeSession (core st) = Some a /\ isStrength (type a) = true.
Proof.
  unfold strengthView; destruct (crashed (page st)); [discriminate|].
  destruct (activeSession (core st)) as [a'|]; [|discriminate].
  destruct (isTemplateTab (activeTab st)) eqn:Htab; [|discriminate].
  destruct (showHistory st); [discriminate|]; simpl.
  destruct (TrainingType_eqb (type a') (activeTab st)) eqn:Hty; [|discriminate].
  intro H; injection H as <-; split; [reflexivity|].
  destruct (type a'), (activeTab st); try discriminate; reflexivity.
Qed.

Lemma card_active (st : App) (i : nat) (ex : Exercise) :
  card st i = Some ex ->
  exists a, activeSession (core st) = Some a /\ isStrength (type a) = true.
Proof.
  unfold card; destruct (strengthView st) as [a|] eqn:E; [|discriminate].
  intros _; exists a; apply strengthView_active, E.
Qed.

Lemma row_active (st : App) (i j : nat) (p : Exercise * SetEntry) :
  row st i j = Some p ->
  exists a, activeSession (core st) = Some a /\ isStrength (type a) = true.
Proof.
  unfold row; destruct (card st i) as [ex|] eqn:E; [|discriminate].
  intros _; apply (card_active st i ex E).
Qed.

Lemma murphView_active (st : App) (a : TrainingSession) :
  murphView st = Some a -> activeSession (core st) = Some a /\ type a = murph.
Proof.
  unfold murphView; destruct (crashed (page st)); [discriminate|].
  destruct (activeSession (core st)) as [a'|]; [|discriminate].
  destruct (TrainingType_eqb (type a') murph) eqn:Hty; [|discriminate].
  intro H; injection H as <-; split; [reflexivity|].
  destruct (type a'); try discriminate; reflexivity.
Qed.

Lemma runView_active (st : App) (a : TrainingSession) :
  runView st = Some a -> activeSession (core st) = Some a /\ type a = run.
Proof.
  unfold runView; destruct (crashed (page st)); [discriminate|].
  destruct (activeSession (core st)) as [a'|]; [|discriminate].
  destruct (TrainingType_eqb (type a') run) eqn:Hty; [|discriminate].
  intro H; injection H as <-; split; [reflexivity|].
  destruct (type a'); try discriminate; reflexivity.
Qed.

Lemma strengthView_live (st : App) (a : TrainingSession) :
  strengthView st = Some a -> crashed (page st) = false.
Proof. unfold strengthView; destruct (crashed (page st)); [discriminate|reflexivity]. Qed.

Lemma card_live (st : App) (i : nat) (ex : Exercise) :
  card st i = Some ex -> crashed (page st) = false.
Proof.
  unfold card; destruct (strengthView st) as [a|] eqn:E; [|discriminate].
  intros _; apply (strengthView_live st a E).
Qed.

(** ** Rendering after an event *)

Lemma remount_core (before after : App) : core (remount before after) = core after.
Proof. unfold remount; destruct (Slot_eqb _ _); reflexivity. Qed.

Lemma remount_undoAction (before after : App) :
  undoAction (remount before after) = undoAction after.
Proof. unfold remount; destruct (Slot_eqb _ _); reflexivity. Qed.

Lemma remount_snackbar (before after : App) :
  snackbar (remount before after) = snackbar after.
Proof. unfold remount; destruct (Slot_eqb _ _); reflexivity. Qed.

Lemma remount_world (before after : App) : world (remount before after) = world after.
Proof. unfold remount; destruct (Slot_eqb _ _); reflexivity. Qed.

Lemma remount_timers (before after : App) : timers (remount before after) = timers after.
Proof. unfold remount; destruct (Slot_eqb _ _); reflexivity. Qed.

Lemma remount_activeTab (before after : App) :
  activeTab (remount before after) = activeTab after.
Proof. unfold remount; destruct (Slot_eqb _ _); reflexivity. Qed.

Lemma remount_showHistory (before after : App) :
  showHistory (remount before after) = showHistory after.
Proof. unfold remount; destruct (Slot_eqb _ _); reflexivity. Qed.

Lemma remount_crashed (before after : App) :
  crashed (page (remount before after)) = crashed (page after).
Proof. unfold remount; destruct (Slot_eqb _ _); reflexivity. Qed.

Lemma Slot_eqb_refl (a : option Slot) : Slot_eqb a a = true.
Proof. destruct a as [[]|]; reflexivity. Qed.

(** An event that leaves the tab, the crash flag and the presence of an
    active session alone leaves [HistoryView] mounted as it is. *)
Lemma remount_same (before after : App) :
  historySlot after = historySlot before -> remount before after = after.
Proof. intro H; unfold remount; rewrite H, Slot_eqb_refl; reflexivity. Qed.

Lemma historySlot_strength (st : App) (a : TrainingSession) :
  strengthView st = Some a -> historySlot st = Some StrengthHistory.
Proof.
  unfold strengthView, historySlot; destruct (crashed (page st)); [discriminate|].
  destruct (activeSession (core st)) as [a'|]; [|discriminate].
  destruct (activeTab st); simpl; try discriminate; reflexivity.
Qed.

(** While the tab is a strength tab, whatever a handler does to the
    sessions, [HistoryView] stays mounted. *)
Lemma remount_strength (st after : App) (a : TrainingSession) :
  strengthView st = Some a ->
  activeTab after = activeTab st -> crashed (page after) = false ->
  remount st after = after.
Proof.
  intros Hv Htab Hlive; apply remount_same.
  rewrite (historySlot_strength st a Hv).
  unfold historySlot; rewrite Hlive, Htab.
  unfold strengthView in Hv; destruct (crashed (page st)); [discriminate|].
  destruct (activeSession (core st)) as [a'|]; [|discriminate].
  destruct (activeTab st); simpl in Hv; try discriminate; reflexivity.
Qed.

Lemma remount_strength_tab (before after : App) :
  isTemplateTab (activeTab before) = true ->
  activeTab after = activeTab before ->
  crashed (page before) = false -> crashed (page after) = false ->
  remount before after = after.
Proof.
  intros Htab Hsame Hb Ha; apply remount_same.
  unfold historySlot; rewrite Hb, Ha, Hsame.
  destruct (activeTab before); try discriminate Htab;
    destruct (activeSession (core before)), (activeSession (core after)); reflexivity.
Qed.

Lemma strengthView_tab (st : App) (a : TrainingSession) :
  strengthView st = Some a -> isTemplateTab (activeTab st) = true.
Proof.
  unfold strengthView; destruct (crashed (page st)); [discriminate|].
  destruct (activeSession (core st)) as [a'|]; [|discriminate].
  destruct (isTemplateTab (activeTab st)); [reflexivity|discriminate].
Qed.

Lemma card_view (st : App) (i : nat) (ex : Exercise) :
  card st i = Some ex -> exists a, strengthView st = Some a.
Proof.
  unfold card; destruct (strengthView st) as [a|]; [|discriminate].
  intros _; exists a; reflexivity.
Qed.

Lemma fire_all_frame (l : list (Z * TimerAction)) :
  forall s, core (fold_left (fun s t => fire (snd t) s) l s) = core s
            /\ activeTab (fold_left (fun s t => fire (snd t) s) l s) = activeTab s
            /\ page (fold_left (fun s t => fire (snd t) s) l s) = page s.
Proof.
  induction l as [|[d t] l IH]; intro s; [repeat split|].
  simpl fold_left; destruct (IH (fire t s)) as (Hc & Ht & Hp); rewrite Hc, Ht, Hp.
  destruct t; repeat split.
Qed.

Lemma elapse_frame (dt : Z) (st : App) :
  core (elapse dt st) = core st /\ activeTab (elapse dt st) = activeTab st
  /\ page (elapse dt st) = page st.
Proof.
  unfold elapse.
  match goal with
  | |- context [fold_left ?f ?l ?s] => destruct (fire_all_frame l s) as (Hc & Ht & Hp)
  end.
  rewrite Hc, Ht, Hp; repeat split.
Qed.

Lemma historySlot_frame (st st' : App) :
  core st' = core st -> activeTab st' = activeTab st -> page st' = page st ->
  historySlot st' = historySlot st.
Proof. intros Hc Ht Hp; unfold historySlot; rewrite Hc, Ht, Hp; reflexivity. Qed.

Lemma step_handle (e : Event) (st : App) :
  crashed (page st) = false -> e <> Reload ->
  step e st = remount st (handle e st).
Proof. intros Hlive He; destruct e; simpl; rewrite ?Hlive; try reflexivity; congruence. Qed.

Lemma step_DeleteSet (st : App) (ex : Exercise) (i j : nat) :
  card st i = Some ex -> step (DeleteSet i j) st = deleteSet st ex i j st.
Proof.
  intro Hcard.
  destruct (card_view st i ex Hcard) as (a & Hv).
  pose proof (strengthView_live st a Hv) as Hlive.
  rewrite step_handle by (exact Hlive || discriminate).
  unfold handle, whenSome; rewrite Hcard.
  apply remount_strength_tab; [apply (strengthView_tab st a Hv)| |exact Hlive|].
  - unfold deleteSet; destruct (nth_error (sets ex) j); reflexivity.
  - unfold deleteSet; destruct (nth_error (sets ex) j); [exact Hlive|exact Hlive].
Qed.

Lemma step_Undo (st : App) :
  isTemplateTab (activeTab st) = true -> crashed (page st) = false ->
  (forall i e j x, undoAction st <> Some (EditorUndo i e j x)) ->
  step Undo st = clickUndo st.
Proof.
  intros Htab Hlive Hview.
  rewrite step_handle by (exact Hlive || discriminate).
  unfold handle; apply remount_strength_tab; try assumption;
    unfold clickUndo; destruct (snackbar st); try reflexivity; try exact Hlive;
    destruct (undoAction st) as [[undo|inst e j x]|]; try reflexivity; try exact Hlive;
    exfalso; apply (Hview inst e j x); reflexivity.
Qed.

Lemma step_Elapse (dt : Z) (st : App) :
  (0 <= dt)%Z -> crashed (page st) = false -> step (Elapse dt) st = elapse dt st.
Proof.
  intros Hdt Hlive.
  rewrite step_handle by (exact Hlive || discriminate).
  unfold handle; apply Z.leb_le in Hdt; rewrite Hdt.
  destruct (elapse_frame dt st) as (Hc & Ht & Hp).
  apply remount_same, historySlot_frame; assumption.
Qed.

(** ** The push scenario *)

Lemma push_template_default_sets :
  map (fun ex => (t_name ex, defaultSetCount (t_name ex))) PUSH_TEMPLATE
  = [ ("Overhead Press", 3); ("Bankdrücken", 5); ("Schrägbankdrücken", 3);
      ("Military Press", 3); ("SZ-Frontheben", 3); ("Dips", 3);
      ("SZ-Trizepsdrücken", 3) ].
Proof. reflexivity. Qed.

(** C4, as the specification states it, fails: the set count of the
    finalized push session is not 35, and neither is the sum of the default
    set counts of the push template. *)
Lemma push_scenario_not_35 :
  option_map totals (lastStored pushFinished)
  <> Some (Some (mkTotals (Some 400%float) (Some 35)))
  /\ list_sum (map (fun ex => defaultSetCount (t_name ex)) PUSH_TEMPLATE) <> 35.
Proof.
  split.
  - vm_compute; intro H; discriminate H.
  - vm_compute; intro H; discriminate H.
Qed.

Lemma lastStored_saved (st : App) (a : TrainingSession) :
  strengthView st = Some a ->
  lastStored (step Save st) = Some (completedSession a (clock (world st))).
Proof.
  intro Hv; destruct (strengthView_active st a Hv) as (Ha & _).
  rewrite step_handle by (apply (strengthView_live st a Hv) || discriminate).
  unfold lastStored; rewrite remount_core.
  unfold handle, whenSome; rewrite Hv.
  rewrite (saveActiveSession_core st a Ha).
  unfold upsert, db, sessions; rewrite rev_app_distr; reflexivity.
Qed.

(** Evaluation that leaves the text of the generated ids alone. *)
Ltac symbolic_eval :=
  lazy -[NilZero.string_of_int NilZero.string_of_uint Z.to_int Nat.to_uint].

(** C4, amended.  Whatever the clock and the random source: a push session
    created from the template, with set 1 of Bankdrücken set to 80 kg and 5
    repetitions and then saved, is stored completed with
    [totals.volumeKg = 400] and [totals.setCount = 23].  The push template
    has seven exercises, of which only Bankdrücken is one of the three
    names that get five default sets, so the sets number 5 + 6 * 3. *)
Theorem push_scenario_totals (w : World) :
  option_map totals (lastStored (step Save (pushScenario w)))
  = Some (Some (mkTotals (Some 400%float) (Some 23)))
  /\ option_map completed (lastStored (step Save (pushScenario w))) = Some true
  /\ list_sum (map (fun ex => defaultSetCount (t_name ex)) PUSH_TEMPLATE) = 23
  /\ (forall n : string,
        defaultSetCount n
        = if in_dec string_dec n ["Bankdrücken"; "Klimmzüge"; "Kreuzheben"]
          then 5 else 3).
Proof.
  assert (Hv : strengthView (pushScenario w) = activeSession (core (pushScenario w)))
    by (symbolic_eval; reflexivity).
  assert (Ht : option_map
                 (fun a => totals (completedSession a (clock (world (pushScenario w)))))
                 (activeSession (core (pushScenario w)))
               = Some (Some (mkTotals (Some 400%float) (Some 23))))
    by (symbolic_eval; reflexivity).
  destruct (activeSession (core (pushScenario w))) as [a|]; [|discriminate Ht].
  rewrite (lastStored_saved _ a Hv).
  cbn [option_map] in Ht |- *.
  split; [exact Ht|].
  split.
  { destruct (completedSession_frame a (clock (world (pushScenario w))))
      as (_ & _ & _ & _ & _ & _ & _ & _ & _ & Hc & _).
    rewrite Hc; reflexivity. }
  split; [reflexivity|].
  intro n; unfold defaultSetCount.
  destruct (in_dec string_dec n ["Bankdrücken"; "Klimmzüge"; "Kreuzheben"]) as [Hin|Hout].
  - apply includes_In in Hin; rewrite Hin; reflexivity.
  - destruct (includes ["Bankdrücken"; "Klimmzüge"; "Kreuzheben"] n) eqn:E; [|reflexivity].
    apply includes_In in E; contradiction.
Qed.

(** ** The Murph Lite cap *)

Lemma tick_at_cap (r : App) (v : MurphView) (st : App) :
  isRunning v = true -> isLite' r = true ->
  (MURPH_LITE_TIME <= elapsedTime v + 1)%Z ->
  tick r v st = (with_timer v MURPH_LITE_TIME false, st).
Proof.
  intros Hrun Hlite Hcap; unfold tick; rewrite Hrun, Hlite.
  apply Z.leb_le in Hcap; rewrite Hcap; reflexivity.
Qed.

Lemma tick_lite_bounded (r : App) (v : MurphView) (st : App) :
  isLite' r = true ->
  (elapsedTime v <= MURPH_LITE_TIME)%Z ->
  (elapsedTime (fst (tick r v st)) <= MURPH_LITE_TIME)%Z.
Proof.
  intros Hlite Hle; unfold tick.
  destruct (isRunning v); [|exact Hle].
  rewrite Hlite; simpl andb.
  destruct (MURPH_LITE_TIME <=? elapsedTime v + 1)%Z eqn:E; simpl.
  - apply Z.le_refl.
  - apply Z.leb_gt in E; lia.
Qed.

(** What a tick of a Lite workout persists is below the cap. *)
Lemma tick_lite_persists_below_cap (r : App) (v : MurphView) (st : App) :
  isLite' r = true ->
  snd (tick r v st) = st
  \/ (elapsedTime v + 1 < MURPH_LITE_TIME)%Z
     /\ core (snd (tick r v st))
        = updateSession (core r)
            (fun s => with_murphData s
                        (Some (with_totalTime (murphData_of s) (Some (elapsedTime v + 1)%Z))))
            (core st).
Proof.
  intro Hlite; unfold tick.
  destruct (isRunning v); [|left; reflexivity].
  rewrite Hlite; simpl andb.
  destruct (MURPH_LITE_TIME <=? elapsedTime v + 1)%Z eqn:E; [left; reflexivity|].
  right; apply Z.leb_gt in E; split; [exact E|reflexivity].
Qed.

(** C7.  What the code does at the cap.  In a Murph Lite workout with the
    timer running at 1499 seconds, the next tick sets the view's counter to
    1500 and stops the timer, and writes nothing: the session, and with it
    [murphData.totalTime], stays as it was (1499 when every earlier tick was
    persisted).  A tick after that changes nothing.  Saving then stores the
    old [totalTime] as well: [handleSave] writes the counter with
    [updateSession], but the [saveActiveSession] it calls next belongs to
    the same render and stores that render's session. *)
Theorem lite_cap_tick_is_not_persisted (r : App) (v : MurphView) (st : App)
    (a : TrainingSession) :
  isLite' r = true ->
  isRunning v = true ->
  elapsedTime v = 1499%Z ->
  activeSession (core st) = Some a ->
  let v' := fst (tick r v st) in
  elapsedTime v' = 1500%Z
  /\ isRunning v' = false
  /\ snd (tick r v st) = st
  /\ tick r v' st = (v', st)
  /\ option_map (fun s => totalTime (murphData_of s))
                (lastStored (snd (Murph_handleSave st v' st)))
     = Some (totalTime (murphData_of a)).
Proof.
  intros Hlite Hrun Hel Ha v'.
  assert (Ht : tick r v st = (with_timer v MURPH_LITE_TIME false, st)).
  { apply tick_at_cap; try assumption; rewrite Hel; discriminate. }
  unfold v'; rewrite Ht; simpl fst; simpl snd.
  split; [reflexivity|].
  split; [reflexivity|].
  split; [reflexivity|].
  split; [reflexivity|].
  unfold Murph_handleSave, saveActiveSession; rewrite Ha.
  unfold lastStored; simpl.
  rewrite rev_app_distr; simpl.
  destruct (completedSession_frame a (clock (world st)))
    as (_ & _ & _ & _ & _ & _ & _ & Hm & _).
  unfold murphData_of; rewrite Hm; reflexivity.
Qed.

Lemma lite_cap_tick_is_not_persisted_witness :
  activeTotalTime liteAt1499 = Some 1499%Z
  /\ elapsedTime (fst (tick liteAt1499 timerAt1499 liteAt1499)) = 1500%Z
  /\ activeTotalTime (snd (tick liteAt1499 timerAt1499 liteAt1499)) = Some 1499%Z
  /\ option_map (fun s => totalTime (murphData_of s))
       (lastStored (snd (Murph_handleSave liteAt1499
                           (fst (tick liteAt1499 timerAt1499 liteAt1499)) liteAt1499)))
     = Some (Some 1499%Z).
Proof.
  destruct (lite_cap_tick_is_not_persisted liteAt1499 timerAt1499 liteAt1499
              (theActive liteAt1499))
    as (Hel & _ & Hsame & _ & Hsave); try (vm_compute; reflexivity).
  split; [vm_compute; reflexivity|].
  split; [exact Hel|].
  split; [rewrite Hsame; vm_compute; reflexivity|].
  rewrite Hsave; vm_compute; reflexivity.
Defined.

(** ** Undoing the deletion of a set *)

Lemma nth_error_mapi_from {A : Type} (f : nat -> A -> A) (l : list A) (k i : nat) :
  nth_error (mapi_from k f l) i = option_map (f (k + i)%nat) (nth_error l i).
Proof.
  revert k i; induction l as [|x l IH]; intros k i; simpl.
  - destruct i; reflexivity.
  - destruct i as [|i]; simpl.
    + rewrite Nat.add_0_r; reflexivity.
    + rewrite IH; replace (S k + i)%nat with (k + S i)%nat by lia; reflexivity.
Qed.

Lemma nth_error_mapi {A : Type} (f : nat -> A -> A) (l : list A) (i : nat) :
  nth_error (mapi f l) i = option_map (f i) (nth_error l i).
Proof. apply (nth_error_mapi_from f l 0 i). Qed.

Lemma filteri_from_remove {A : Type} (l : list A) (k j : nat) :
  filteri_from k (fun i => negb (i =? k + j)%nat) l = firstn j l ++ skipn (S j) l.
Proof.
  revert k j; induction l as [|x l IH]; intros k j; simpl.
  - destruct j; reflexivity.
  - destruct j as [|j]; simpl.
    + rewrite Nat.add_0_r, Nat.eqb_refl; simpl.
      clear IH; revert k.
      assert (H : forall m k, (k < m)%nat ->
                    filteri_from m (fun i => negb (i =? k)%nat) l = l).
      { induction l as [|y l IHl]; intros m k Hlt; simpl; [reflexivity|].
        destruct (m =? k)%nat eqn:E; [apply Nat.eqb_eq in E; lia|simpl].
        rewrite IHl; [reflexivity|lia]. }
      intro k; apply H; lia.
    + destruct (k =? k + S j)%nat eqn:E; [apply Nat.eqb_eq in E; lia|simpl].
      replace (k + S j)%nat with (S k + j)%nat by lia.
      rewrite IH; reflexivity.
Qed.

Lemma filteri_remove {A : Type} (l : list A) (j : nat) :
  filteri (fun i => negb (i =? j)%nat) l = firstn j l ++ skipn (S j) l.
Proof. apply (filteri_from_remove l 0 j). Qed.

Lemma insert_lengthens {A : Type} (l : list A) (j : nat) (x : A) :
  firstn j l ++ x :: skipn j l <> l.
Proof.
  intro H; apply (f_equal (@List.length A)) in H.
  rewrite length_app in H; simpl in H.
  rewrite <- (firstn_skipn j l) in H at 3; rewrite length_app in H; lia.
Qed.

Lemma card_sets (st : App) (i : nat) (ex : Exercise) :
  card st i = Some ex -> activeSets st i = Some (sets ex).
Proof.
  unfold card, activeSets; intro Hc.
  destruct (strengthView st) as [a|] eqn:Hv; [|discriminate].
  apply strengthView_active in Hv; destruct Hv as (-> & _).
  rewrite Hc; reflexivity.
Qed.

Lemma clickUndo_no_snackbar (st : App) : snackbar st = None -> clickUndo st = st.
Proof. intro H; unfold clickUndo; rewrite H; reflexivity. Qed.

Lemma snackbar_expires (st : App) (l : list (Z * TimerAction)) (due dt : Z) :
  timers st = l ++ [(due, ClearUndoAction); (due, ClearSnackbar)] ->
  (due <= clock (world st) + dt)%Z ->
  snackbar (elapse dt st) = None.
Proof.
  intros Ht Hdue; unfold elapse; rewrite Ht, filter_app, fold_left_app; simpl.
  apply Z.leb_le in Hdue; rewrite Hdue; reflexivity.
Qed.

(** After deleting a set and pressing Undo, the exercise holds the sets it
    had before the deletion with the deleted set inserted once more. *)
Lemma delete_then_undo (st : App) (ex : Exercise) (x : SetEntry) (i j : nat) :
  card st i = Some ex ->
  nth_error (sets ex) j = Some x ->
  activeSets (step Undo (step (DeleteSet i j) st)) i
  = Some (firstn j (sets ex) ++ x :: skipn j (sets ex)).
Proof.
  intros Hcard Hrow.
  destruct (card_view st i ex Hcard) as (v & Hv).
  rewrite (step_DeleteSet st ex i j Hcard).
  unfold deleteSet; rewrite Hrow.
  rewrite step_Undo;
    [|apply (strengthView_tab st v Hv)|apply (strengthView_live st v Hv)
     |intros ? ? ? ?; discriminate].
  clear v Hv.
  unfold clickUndo, showSnackbar; simpl.
  unfold card in Hcard.
  destruct (strengthView st) as [a|] eqn:Hview; [|discriminate].
  apply strengthView_active in Hview; destruct Hview as (Ha & _).
  unfold activeSets, undoDelete, updateExercise, updateSession; rewrite Ha; simpl.
  rewrite nth_error_mapi, Hcard; simpl.
  rewrite Nat.eqb_refl; reflexivity.
Qed.

(** C8.  What the code does.  For every exercise card and every row of it:
    deleting the set removes it from the array; pressing Undo right after
    (within the five seconds, nothing else happening in between) does not
    give back the array from before the deletion but that array with the
    deleted set inserted once more at its index, one element longer,
    because the undo closure updates the session of the render in which
    the set was deleted.  Once the five seconds are over the Undo button is
    gone and pressing it changes nothing. *)
Theorem undo_after_delete_duplicates_the_set (st : App) (ex : Exercise) (x : SetEntry)
    (i j : nat) :
  card st i = Some ex ->
  nth_error (sets ex) j = Some x ->
  let deleted := step (DeleteSet i j) st in
  activeSets st i = Some (sets ex)
  /\ activeSets deleted i = Some (firstn j (sets ex) ++ skipn (S j) (sets ex))
  /\ activeSets (step Undo deleted) i = Some (firstn j (sets ex) ++ x :: skipn j (sets ex))
  /\ firstn j (sets ex) ++ x :: skipn j (sets ex) <> sets ex
  /\ step Undo (step (Elapse 5000) deleted) = step (Elapse 5000) deleted.
Proof.
  intros Hcard Hrow deleted.
  split; [apply card_sets, Hcard|].
  split.
  { unfold deleted; rewrite (step_DeleteSet st ex i j Hcard).
    unfold deleteSet; rewrite Hrow.
    pose proof (card_sets st i ex Hcard) as Hsets.
    unfold activeSets in Hsets |- *.
    destruct (activeSession (core st)) as [a|] eqn:Ha; [|discriminate].
    unfold showSnackbar, onCore, updateExercise, updateSession; simpl; rewrite Ha; simpl.
    rewrite nth_error_mapi.
    destruct (nth_error (exercises a) i) as [ex'|]; [|discriminate].
    injection Hsets as Hsets; simpl; rewrite Nat.eqb_refl; simpl.
    rewrite filteri_remove, Hsets; reflexivity. }
  split; [apply delete_then_undo; assumption|].
  split; [apply insert_lengthens|].
  destruct (card_view st i ex Hcard) as (v & Hv).
  pose proof (strengthView_tab st v Hv) as Htab.
  pose proof (strengthView_live st v Hv) as Hlive.
  assert (Hdel : deleted
                 = showSnackbar "Satz gelöscht" (Some (ViewUndo (undoDelete st i j x)))
                     (onCore (updateExercise st i
                                (fun e => with_sets e
                                   (filteri (fun k => negb (k =? j)%nat) (sets e)))) st))
    by (unfold deleted; rewrite (step_DeleteSet st ex i j Hcard);
        unfold deleteSet; rewrite Hrow; reflexivity).
  assert (Hlive' : crashed (page deleted) = false) by (rewrite Hdel; exact Hlive).
  rewrite (step_Elapse 5000 deleted) by (exact Hlive' || lia).
  assert (Hgone : snackbar (elapse 5000 deleted) = None).
  { apply (snackbar_expires deleted (timers st) (clock (world st) + 5000)%Z).
    - rewrite Hdel; reflexivity.
    - rewrite Hdel; simpl; lia. }
  destruct (elapse_frame 5000 deleted) as (_ & _ & Hp).
  rewrite step_handle by ((rewrite Hp; exact Hlive') || discriminate).
  unfold handle; rewrite clickUndo_no_snackbar by exact Hgone.
  apply remount_same; reflexivity.
Qed.

Lemma undo_after_delete_duplicates_the_set_witness :
  activeSets pushInProgress 1 = Some (sets bankdruecken)
  /\ activeSets (step Undo (step (DeleteSet 1 0) pushInProgress)) 1
     = Some (firstSet :: sets bankdruecken)
  /\ firstSet :: sets bankdruecken <> sets bankdruecken
  /\ List.length (sets bankdruecken) = 5%nat
  /\ activeSets (step Undo (step (Elapse 4999) (step (DeleteSet 1 0) pushInProgress))) 1
     = Some (firstSet :: sets bankdruecken).
Proof.
  destruct (undo_after_delete_duplicates_the_set pushInProgress bankdruecken firstSet 1 0)
    as (Hbefore & _ & Hundo & Hneq & _); try (vm_compute; reflexivity).
  split; [exact Hbefore|].
  split; [exact Hundo|].
  split; [exact Hneq|].
  split; [reflexivity|].
  vm_compute; reflexivity.
Defined.

(** ** One kind of content per session *)

Ltac session_cases s :=
  destruct s as [i t d c sa ea exs n l [tt|] [m|] [rd|]];
  unfold wellKeyed, exclusive, emptied, hasStrength, hasMurph, hasRun, isStrength in *;
  simpl in *;
  destruct t; destruct c; destruct exs; simpl in *.

Lemma wellKeyed_exclusive_or_emptied (s : TrainingSession) :
  wellKeyed s = true -> exclusive s = true \/ emptied s = true.
Proof. session_cases s; intro H; auto; discriminate H. Qed.

Lemma wellKeyed_keyed_by_type (s : TrainingSession) :
  wellKeyed s = true ->
  (hasMurph s = true <-> type s = murph)
  /\ (hasRun s = true <-> type s = run)
  /\ (hasStrength s = true -> isStrength (type s) = true).
Proof.
  session_cases s; intro H; try discriminate H;
    repeat split; intros; try reflexivity; try discriminate.
Qed.

Lemma wellKeyed_with_exercises_strength (s : TrainingSession) (l : list Exercise) :
  isStrength (type s) = true -> wellKeyed s = true ->
  wellKeyed (with_exercises s l) = true.
Proof.
  destruct s as [i t d c sa ea exs n lo tt m rd].
  unfold wellKeyed, isStrength, hasStrength, hasMurph, hasRun; simpl.
  destruct t; simpl; intros Ht H; try discriminate Ht; exact H.
Qed.

Lemma wellKeyed_with_exercises_empty (s : TrainingSession) (l : list Exercise) :
  (exercises s = [] -> l = []) -> wellKeyed s = true ->
  wellKeyed (with_exercises s l) = true.
Proof.
  destruct s as [i t d c sa ea exs n lo tt m rd].
  unfold wellKeyed, hasStrength, hasMurph, hasRun; simpl.
  intros Hl H; destruct t; try exact H;
    (destruct exs; [rewrite (Hl eq_refl); exact H|
                    destruct m, rd; simpl in H; discriminate H]).
Qed.

Lemma wellKeyed_with_location (s : TrainingSession) (v : option string) :
  wellKeyed s = true -> wellKeyed (with_location s v) = true.
Proof. destruct s; exact (fun H => H). Qed.

Lemma wellKeyed_with_notes (s : TrainingSession) (v : option string) :
  wellKeyed s = true -> wellKeyed (with_notes s v) = true.
Proof. destruct s; exact (fun H => H). Qed.

Lemma wellKeyed_with_date (s : TrainingSession) (iso : Z) :
  wellKeyed s = true -> wellKeyed (with_date s iso) = true.
Proof. destruct s; exact (fun H => H). Qed.

Lemma wellKeyed_with_murphData (s : TrainingSession) (m : MurphData) :
  type s = murph -> wellKeyed s = true ->
  wellKeyed (with_murphData s (Some m)) = true.
Proof.
  destruct s as [i t d c sa ea exs n lo tt m' rd]; simpl; intros ->.
  unfold wellKeyed, hasStrength, hasMurph, hasRun; simpl.
  destruct m'; [exact (fun H => H)|intro H; discriminate H].
Qed.

Lemma wellKeyed_with_runData (s : TrainingSession) (t : Z) (d : RunData) :
  type s = run -> wellKeyed s = true -> wellKeyed (with_runData s t d) = true.
Proof.
  destruct s as [i ty da c sa ea exs n lo tt m rd]; simpl; intros ->.
  unfold wellKeyed, hasStrength, hasMurph, hasRun; simpl.
  destruct rd; [exact (fun H => H)|intro H; discriminate H].
Qed.

Lemma wellKeyed_completedSession (a : TrainingSession) (now : Z) :
  wellKeyed a = true -> wellKeyed (completedSession a now) = true.
Proof.
  destruct a as [i t d c sa ea exs n lo tt m rd].
  unfold completedSession, wellKeyed, isStrength, hasStrength, hasMurph, hasRun; simpl.
  destruct t; simpl; intro H; try exact H;
    apply andb_true_iff in H; destruct H as (H & _); rewrite H; reflexivity.
Qed.

Lemma wellKeyed_editedSession (s : TrainingSession) :
  wellKeyed s = true -> wellKeyed (editedSession s) = true.
Proof.
  destruct s as [i t d c sa ea exs n lo tt m rd].
  unfold editedSession, wellKeyed, isStrength, hasStrength, hasMurph, hasRun; simpl.
  destruct t; simpl; intro H; try exact H;
    apply andb_true_iff in H; destruct H as (H & _); rewrite H;
    apply orb_true_r.
Qed.

Lemma wellKeyed_edit (a : EditAction) (s : TrainingSession) :
  wellKeyed s = true -> wellKeyed (edit a s) = true.
Proof.
  intro H; destruct a; simpl;
    try (apply wellKeyed_with_exercises_empty; [intros ->; reflexivity|exact H]).
  - apply wellKeyed_with_date, H.
  - apply wellKeyed_with_location, H.
  - apply wellKeyed_with_notes, H.
Qed.

Lemma wellKeyed_edits (actions : list EditAction) (s : TrainingSession) :
  wellKeyed s = true ->
  wellKeyed (fold_left (fun x a => edit a x) actions s) = true.
Proof.
  revert s; induction actions as [|a actions IH]; intros s H; simpl; [exact H|].
  apply IH, wellKeyed_edit, H.
Qed.

Lemma wellKeyed_murphSession (w : World) : wellKeyed (fst (murphSession w)) = true.
Proof. reflexivity. Qed.

Lemma wellKeyed_runSession (w : World) : wellKeyed (fst (runSession w)) = true.
Proof. reflexivity. Qed.

Lemma wellKeyed_newSession (tab : TrainingType) (tpl : list ExerciseNoId) (w : World) :
  isTemplateTab tab = true -> wellKeyed (fst (newSession tab tpl w)) = true.
Proof.
  intro Htab; unfold newSession, bind, generateId, Date_now, random_suffix, ret, bind.
  destruct (mapM instantiate tpl _) as [exs w']; simpl.
  destruct tab; try discriminate Htab; reflexivity.
Qed.

(** *** Identifiers in the store *)

Lemma Forall_upsert (P : TrainingSession -> Prop) (x : TrainingSession) (d : DB) :
  P x -> Forall P (sessions d) -> Forall P (sessions (upsert x d)).
Proof.
  intros Hx Hd; unfold upsert; simpl.
  apply Forall_app; split; [|constructor; [exact Hx|constructor]].
  apply Forall_forall; intros s Hs; apply filter_In in Hs.
  eapply Forall_forall in Hd; [exact Hd|tauto].
Qed.

Lemma NoDup_ids_filter (p : TrainingSession -> bool) (l : list TrainingSession) :
  NoDup (map id l) -> NoDup (map id (filter p l)).
Proof.
  induction l as [|s l IH]; simpl; intro H; [constructor|].
  inversion H as [|? ? Hnotin Hl]; subst.
  destruct (p s); simpl; [|apply IH, Hl].
  constructor; [|apply IH, Hl].
  intro Hin; apply Hnotin.
  apply in_map_iff in Hin; destruct Hin as (y & Hy & Hin).
  apply filter_In in Hin; apply in_map_iff; exists y; tauto.
Qed.

Lemma NoDup_snoc {A : Type} (l : list A) (x : A) :
  NoDup l -> ~ In x l -> NoDup (l ++ [x]).
Proof.
  induction l as [|a l IH]; simpl; intros Hl Hx.
  - constructor; [intros []|constructor].
  - inversion Hl as [|? ? Ha Hl']; subst.
    constructor.
    + intro Hin; apply in_app_or in Hin; destruct Hin as [Hin|[Heq|[]]];
        [exact (Ha Hin)|apply Hx; left; symmetry; exact Heq].
    + apply IH; [exact Hl'|intro Hin; apply Hx; right; exact Hin].
Qed.

Lemma NoDup_append {A : Type} (l l' : list A) :
  NoDup l -> NoDup l' -> (forall x, In x l' -> ~ In x l) -> NoDup (l ++ l').
Proof.
  intros Hl Hl' Hdisj; revert Hl; induction l as [|a l IH]; simpl; intro Hl;
    [exact Hl'|].
  inversion Hl as [|? ? Ha Hl'']; subst.
  constructor.
  - intro Hin; apply in_app_or in Hin; destruct Hin as [Hin|Hin];
      [exact (Ha Hin)|apply (Hdisj a Hin); left; reflexivity].
  - apply IH; [intros x Hx Hin; apply (Hdisj x Hx); right; exact Hin|exact Hl''].
Qed.

Lemma NoDup_ids_upsert (x : TrainingSession) (d : DB) :
  NoDup (map id (sessions d)) -> NoDup (map id (sessions (upsert x d))).
Proof.
  intro H; unfold upsert; simpl.
  rewrite map_app; simpl.
  apply NoDup_snoc; [apply NoDup_ids_filter, H|].
  intro Hin; apply in_map_iff in Hin; destruct Hin as (y & Hy & Hin).
  apply filter_In in Hin; destruct Hin as (_ & Hneq).
  rewrite Hy, String.eqb_refl in Hneq; discriminate Hneq.
Qed.

Lemma NoDup_ids_merge (current backup : DB) :
  NoDup (map id (sessions current)) -> NoDup (map id (sessions backup)) ->
  NoDup (map id (sessions (mergeBackup current backup))).
Proof.
  intros Hcur Hback; unfold mergeBackup; simpl; rewrite map_app.
  apply NoDup_append; [exact Hcur|apply NoDup_ids_filter, Hback|].
  intros x Hx Hin.
  apply in_map_iff in Hx; destruct Hx as (s & <- & Hs).
  apply filter_In in Hs; destruct Hs as (_ & Hs).
  apply includes_In in Hin; rewrite Hin in Hs; discriminate Hs.
Qed.

Lemma ids_replace (u : TrainingSession) (l : list TrainingSession) :
  map id (map (fun s => if (id s =? id u)%string then u else s) l) = map id l.
Proof.
  induction l as [|s l IH]; simpl; [reflexivity|].
  rewrite IH; destruct (id s =? id u)%string eqn:E; [|reflexivity].
  apply String.eqb_eq in E; rewrite E; reflexivity.
Qed.

Lemma In_firstn {A : Type} (n : nat) (l : list A) (x : A) :
  In x (firstn n l) -> In x l.
Proof.
  intro H; rewrite <- (firstn_skipn n l); apply in_or_app; left; exact H.
Qed.

Lemma TrainingType_eqb_eq (a b : TrainingType) :
  TrainingType_eqb a b = true -> a = b.
Proof. destruct a, b; simpl; intro H; try discriminate H; reflexivity. Qed.

Lemma filteredSessions_stored (st : App) (k : nat) (s : TrainingSession) :
  nth_error (filteredSessions st) k = Some s -> In s (sessions (db (core st))).
Proof.
  intro H; apply nth_error_In, In_firstn in H.
  eapply Permutation_in in H; [|apply (Array_sort_perm date)].
  apply filter_In in H; tauto.
Qed.

Lemma filteredSessions_completed (st : App) (k : nat) (s : TrainingSession) :
  nth_error (filteredSessions st) k = Some s ->
  completed s = true /\ type s = activeTab st.
Proof.
  intro H; apply nth_error_In, In_firstn in H.
  eapply Permutation_in in H; [|apply (Array_sort_perm date)].
  apply filter_In in H; destruct H as (_ & H).
  apply andb_true_iff in H; destruct H as (Hty & Hc); split; [exact Hc|].
  apply TrainingType_eqb_eq, Hty.
Qed.

(** *** The status of a session under the operations *)

Ltac status := intros [? ? ? ? ? ? ? ? ? ? ? ?]; repeat split.

Lemma inSync_kept (f : TrainingSession -> TrainingSession) (s : TrainingSession) :
  keepsStatus f -> completed s = false -> inSync s ->
  inSync (f s) /\ completed (f s) = false.
Proof.
  intros Hf Hc Hs; destruct (Hf s) as (_ & Hc' & He & Ht).
  unfold inSync in *; rewrite Hc', He, Ht, Hc in *; split; [exact Hs|reflexivity].
Qed.

Lemma inSync_completedSession (a : TrainingSession) (now : Z) :
  inSync (completedSession a now).
Proof.
  destruct (completedSession_frame a now)
    as (_ & Hty & _ & _ & Hex & _ & _ & _ & _ & Hcc & He).
  unfold inSync; rewrite Hcc, He, Hty, Hex; split; [discriminate|].
  intro Hs; unfold completedSession; rewrite Hs; eexists; reflexivity.
Qed.

Lemma inSync_with_runData (s : TrainingSession) (t : Z) (d : RunData) :
  type s = run -> inSync (with_runData s t d).
Proof.
  intro Hty; unfold inSync; simpl; rewrite Hty; split; [discriminate|].
  intro H; discriminate H.
Qed.

Lemma edit_keeps (a : EditAction) (s : TrainingSession) :
  id (edit a s) = id s /\ type (edit a s) = type s
  /\ completed (edit a s) = completed s /\ endedAt (edit a s) = endedAt s.
Proof. destruct a; simpl; repeat split. Qed.

Lemma editedSession_keeps (s : TrainingSession) :
  id (editedSession s) = id s /\ type (editedSession s) = type s
  /\ completed (editedSession s) = completed s
  /\ endedAt (editedSession s) = endedAt s
  /\ exercises (editedSession s) = exercises s.
Proof. unfold editedSession; destruct (isStrength (type s)); repeat split. Qed.

Lemma inSync_editedSession (s : TrainingSession) :
  finished s -> inSync (editedSession s).
Proof.
  intros (Hc & He).
  destruct (editedSession_keeps s) as (_ & Hty & Hcc & Hee & Hex).
  unfold inSync; rewrite Hcc, Hc, Hee, Hty, Hex; split; [exact He|].
  intro Hs; unfold editedSession; rewrite Hs; eexists; reflexivity.
Qed.

(** *** The JSON round trip keeps what the invariant is about *)

Lemma countSets_JSON (l : list Exercise) :
  countSets (map JSON.exercise l) = countSets l.
Proof.
  rewrite !countSets_list_sum, map_map; f_equal.
  apply map_ext; intro ex; simpl; apply length_map.
Qed.

Lemma wellKeyed_JSON (s : TrainingSession) :
  wellKeyed (JSON.session s) = wellKeyed s.
Proof.
  destruct s as [i t d c sa ea exs n l [tt|] [m|] [rd|]];
    unfold wellKeyed, hasStrength, hasMurph, hasRun; simpl;
    rewrite ?length_map; reflexivity.
Qed.

Lemma inSync_JSON (s : TrainingSession) : inSync s -> inSync (JSON.session s).
Proof.
  unfold inSync; simpl.
  destruct (completed s).
  - intros (He & Ht); split; [exact He|].
    intro Hs; destruct (Ht Hs) as (v & Hv); rewrite Hv; simpl.
    rewrite countSets_JSON; eexists; reflexivity.
  - intros (He & Ht); rewrite Ht; split; [exact He|reflexivity].
Qed.

Lemma ids_JSON (l : list TrainingSession) : map id (map JSON.session l) = map id l.
Proof. rewrite map_map; reflexivity. Qed.

Lemma storedOk_JSON (s : TrainingSession) : storedOk s -> storedOk (JSON.session s).
Proof.
  intros (Hk & Hs); split; [rewrite wellKeyed_JSON; exact Hk|apply inSync_JSON, Hs].
Qed.

(** *** What holds of the active session and of the copy in the editor *)

Lemma activeOk_stored (a : TrainingSession) : activeOk a -> storedOk a.
Proof. intros (Hk & Hs & _); split; assumption. Qed.

Lemma activeOk_kept (f : TrainingSession -> TrainingSession) (a : TrainingSession) :
  keepsStatus f -> wellKeyed (f a) = true -> activeOk a -> activeOk (f a).
Proof.
  intros Hf Hk (_ & Hs & Hc).
  destruct (inSync_kept f a Hf Hc Hs) as (Hs' & Hc').
  split; [exact Hk|split; assumption].
Qed.

Lemma activeOk_with_exercises (a : TrainingSession) (l : list Exercise) :
  isStrength (type a) = true -> activeOk a -> activeOk (with_exercises a l).
Proof.
  intros Hty Ha; apply (activeOk_kept (fun s => with_exercises s l)); [status| |exact Ha].
  apply wellKeyed_with_exercises_strength; [exact Hty|apply Ha].
Qed.

Lemma activeOk_with_location (a : TrainingSession) (v : option string) :
  activeOk a -> activeOk (with_location a v).
Proof.
  intro Ha; apply (activeOk_kept (fun s => with_location s v)); [status| |exact Ha].
  apply wellKeyed_with_location, Ha.
Qed.

Lemma activeOk_with_murphData (a : TrainingSession) (m : MurphData) :
  type a = murph -> activeOk a -> activeOk (with_murphData a (Some m)).
Proof.
  intros Hty Ha; apply (activeOk_kept (fun s => with_murphData s (Some m)));
    [status| |exact Ha].
  apply wellKeyed_with_murphData; [exact Hty|apply Ha].
Qed.

Lemma activeOk_newSession (tab : TrainingType) (tpl : list ExerciseNoId) (w : World) :
  isTemplateTab tab = true -> activeOk (fst (newSession tab tpl w)).
Proof.
  intro Htab; split; [apply wellKeyed_newSession, Htab|].
  unfold newSession, bind, generateId, Date_now, random_suffix, ret, bind.
  destruct (mapM instantiate tpl _) as [exs w']; simpl.
  unfold inSync; simpl; repeat split.
Qed.

Lemma activeOk_murphSession (w : World) : activeOk (fst (murphSession w)).
Proof. split; [reflexivity|unfold inSync; simpl; repeat split]. Qed.

Lemma activeOk_runSession (w : World) : activeOk (fst (runSession w)).
Proof. split; [reflexivity|unfold inSync; simpl; repeat split]. Qed.

Lemma storedOk_completedSession (a : TrainingSession) (now : Z) :
  activeOk a -> storedOk (completedSession a now).
Proof.
  intros (Hk & _); split;
    [apply wellKeyed_completedSession, Hk|apply inSync_completedSession].
Qed.

Lemma storedOk_with_runData (a : TrainingSession) (t : Z) (d : RunData) :
  type a = run -> activeOk a -> storedOk (with_runData a t d).
Proof.
  intros Hty (Hk & _); split;
    [apply wellKeyed_with_runData; assumption|apply inSync_with_runData, Hty].
Qed.

Lemma storedOk_editedSession (e : TrainingSession) :
  editingOk e -> storedOk (editedSession e).
Proof.
  intros (Hk & Hf); split;
    [apply wellKeyed_editedSession, Hk|apply inSync_editedSession, Hf].
Qed.

Lemma editingOk_edit (a : EditAction) (e : TrainingSession) :
  editingOk e -> editingOk (edit a e).
Proof.
  intros (Hk & Hc & He); destruct (edit_keeps a e) as (_ & _ & Hc' & He').
  split; [apply wellKeyed_edit, Hk|split; [rewrite Hc'; exact Hc|rewrite He'; exact He]].
Qed.

Lemma editingOk_JSON (s : TrainingSession) :
  storedOk s -> completed s = true -> editingOk (JSON.session s).
Proof.
  intros (Hk & Hs) Hc; split; [rewrite wellKeyed_JSON; exact Hk|].
  unfold inSync in Hs; rewrite Hc in Hs; destruct Hs as (He & _).
  split; [exact Hc|exact He].
Qed.

(** *** The sessions as a whole *)

Lemma goodCore_updateSession (r : Core) (f : TrainingSession -> TrainingSession) (c : Core) :
  (forall a, activeSession r = Some a -> activeOk (f a)) ->
  goodCore c -> goodCore (updateSession r f c).
Proof.
  intros Hf (Hnd & Hdb & Hact); unfold updateSession.
  destruct (activeSession r) as [a|]; [|split; [|split]; assumption].
  specialize (Hf a eq_refl); unfold autoSaveSession; simpl; split; [|split].
  - apply NoDup_ids_upsert, Hnd.
  - apply Forall_upsert; [apply activeOk_stored, Hf|exact Hdb].
  - intros a' Ha'; injection Ha' as <-; exact Hf.
Qed.

Lemma goodCore_stored (x : TrainingSession) (c : Core) :
  storedOk x -> goodCore c -> goodCore (mkCore (upsert x (db c)) None).
Proof.
  intros Hx (Hnd & Hdb & _); split; [|split]; simpl.
  - apply NoDup_ids_upsert, Hnd.
  - apply Forall_upsert; assumption.
  - intros a Ha; discriminate Ha.
Qed.

Lemma goodCore_JSON (c : Core) :
  goodCore c -> goodCore (mkCore (JSON.roundTrip (db c)) None).
Proof.
  intros (Hnd & Hdb & _); split; [|split]; simpl.
  - rewrite ids_JSON; exact Hnd.
  - apply Forall_map; revert Hdb; apply Forall_impl; intro s; apply storedOk_JSON.
  - intros a Ha; discriminate Ha.
Qed.

(** *** The invariant under the parts the handlers are made of *)

Ltac parts := split; [|split].

Lemma invariant_sameCore (st st' : App) :
  sameCore st st' -> invariant st -> invariant st'.
Proof.
  intros (Hc & He & Hu) (Hg & Hed & Hundo); parts; rewrite ?Hc, ?He, ?Hu; assumption.
Qed.

Lemma sameCore_showSnackbar (m : string) (st : App) :
  sameCore st (showSnackbar m None st).
Proof. parts; reflexivity. Qed.

Lemma sameCore_perform {A : Type} (m : Eff A) (st : App) :
  sameCore st (snd (perform m st)).
Proof. unfold perform; destruct (m (world st)); parts; reflexivity. Qed.

Lemma perform_spec {A : Type} (m : Eff A) (st : App) :
  perform m st = (fst (m (world st)), snd (perform m st)).
Proof. unfold perform; destruct (m (world st)); reflexivity. Qed.

Lemma invariant_core (st : App) (c : Core) :
  invariant st -> goodCore c -> invariant (with_core st c).
Proof. intros (_ & He & Hundo) Hc; parts; [exact Hc|exact He|exact Hundo]. Qed.

Lemma invariant_onCore_updateSession (r st : App)
    (f : TrainingSession -> TrainingSession) :
  (forall a, activeSession (core r) = Some a -> activeOk (f a)) ->
  invariant st -> invariant (onCore (updateSession (core r) f) st).
Proof.
  intros Hf Hst; apply invariant_core; [exact Hst|].
  apply goodCore_updateSession; [exact Hf|apply Hst].
Qed.

Lemma invariant_fire (t : TimerAction) (st : App) : invariant st -> invariant (fire t st).
Proof.
  intros (Hg & He & Hundo); destruct t; parts; simpl; try assumption.
  intros u Hu; discriminate Hu.
Qed.

Lemma invariant_elapse (dt : Z) (st : App) : invariant st -> invariant (elapse dt st).
Proof.
  intro Hst; unfold elapse.
  match goal with
  | |- invariant (fold_left ?f ?l ?s) =>
      assert (Hs : invariant s) by (apply (invariant_sameCore st); [parts; reflexivity|exact Hst]);
      generalize Hs; generalize s; generalize l
  end.
  clear; intros l; induction l as [|t l IH]; intros s Hs; simpl; [exact Hs|].
  apply IH, invariant_fire, Hs.
Qed.

Lemma invariant_editing (e : option TrainingSession) (st : App) :
  (forall s, e = Some s -> editingOk s) ->
  invariant st -> invariant (setEditingSession e st).
Proof. intros He (Hg & _ & Hundo); parts; [exact Hg|exact He|exact Hundo]. Qed.

Lemma invariant_updateEditingSession (f : TrainingSession -> TrainingSession) (st : App) :
  (forall s, editingOk s -> editingOk (f s)) ->
  invariant st -> invariant (updateEditingSession f st).
Proof.
  intros Hf Hst; unfold updateEditingSession.
  destruct (editingSession (page st)) as [e|] eqn:E; [|exact Hst].
  apply invariant_editing; [|exact Hst].
  intros s Hs; injection Hs as <-; apply Hf, Hst, E.
Qed.

Lemma invariant_crash (st : App) : invariant st -> invariant (crash st).
Proof. apply invariant_sameCore; parts; reflexivity. Qed.

Lemma invariant_remount (before after : App) :
  invariant after -> invariant (remount before after).
Proof.
  intros (Hg & He & Hundo); unfold remount.
  destruct (Slot_eqb _ _); parts; simpl; try assumption.
  intros e Hnone; discriminate Hnone.
Qed.

Lemma invariant_clickUndo (st : App) : invariant st -> invariant (clickUndo st).
Proof.
  intros (Hg & He & Hundo); unfold clickUndo.
  destruct (snackbar st) as [message|]; [|parts; assumption].
  destruct (undoAction st) as [[undo|inst i j x]|] eqn:E.
  - parts; simpl; [apply (Hundo _ eq_refl), Hg|exact He|intros u Hu; discriminate Hu].
  - cbv zeta.
    assert (Hc : invariant (mkApp (core st) (activeTab st) (showHistory st) None None
                                  (timers st) (world st) (page st))).
    { parts; simpl; [exact Hg|exact He|intros u Hu; discriminate Hu]. }
    destruct (inst =? historyInstance (page st))%nat; [|exact Hc].
    destruct (editingSession (page st)) as [e|] eqn:Ee; [|exact Hc].
    destruct (i <? List.length (exercises e))%nat.
    + apply invariant_editing; [|exact Hc].
      intros s Hs; injection Hs as <-.
      apply (editingOk_edit (EditUndoDeleteSet i j x) e), He; reflexivity.
    + apply invariant_crash, Hc.
  - parts; [exact Hg|exact He|rewrite E; exact Hundo].
Qed.

Lemma invariant_activate (st : App) (s : TrainingSession) :
  invariant st -> activeOk s ->
  invariant (with_showHistory (setActiveSession (Some s) st) false).
Proof.
  intros ((Hnd & Hdb & _) & He & Hundo) Hs; parts; [parts| |]; simpl; try assumption.
  intros a Ha; injection Ha as <-; exact Hs.
Qed.

Lemma invariant_deactivate (st : App) (b : bool) :
  invariant st -> invariant (with_showHistory (setActiveSession None st) b).
Proof.
  intros ((Hnd & Hdb & _) & He & Hundo); parts; [parts| |]; simpl; try assumption.
  intros a Ha; discriminate Ha.
Qed.

Lemma invariant_setDB (st : App) (f : DB -> DB) :
  NoDup (map id (sessions (f (db (core st))))) ->
  Forall storedOk (sessions (f (db (core st)))) ->
  invariant st -> invariant (setDB f st).
Proof.
  intros Hnd Hf ((_ & _ & Hact) & He & Hundo); parts; [parts| |]; simpl; assumption.
Qed.

Lemma invariant_upsert (x : TrainingSession) (st : App) :
  storedOk x -> invariant st -> invariant (setDB (upsert x) st).
Proof.
  intros Hx Hst; apply invariant_setDB; [| |exact Hst].
  - apply NoDup_ids_upsert, Hst.
  - apply Forall_upsert; [exact Hx|apply Hst].
Qed.

Lemma invariant_showSnackbar (m : string) (st : App) :
  invariant st -> invariant (showSnackbar m None st).
Proof. apply invariant_sameCore, sameCore_showSnackbar. Qed.

Lemma invariant_showSnackbar_undo (m : string) (u : UndoClosure) (st : App) :
  keeps goodCore u ->
  invariant st -> invariant (showSnackbar m (Some u) st).
Proof.
  intros Hu (Hg & He & _); parts; [exact Hg|exact He|].
  simpl; intros u' Heq; injection Heq as <-; exact Hu.
Qed.

Lemma invariant_started (st : App) (m : Eff TrainingSession) :
  activeOk (fst (m (world st))) ->
  invariant st ->
  invariant (let (s, st') := perform m st in
             with_showHistory (setActiveSession (Some s) st') false).
Proof.
  intros Hm Hst; rewrite perform_spec.
  apply invariant_activate; [|exact Hm].
  apply (invariant_sameCore st); [apply sameCore_perform|exact Hst].
Qed.

Lemma invariant_createNewSession (st : App) :
  invariant st -> invariant (click createNewSession st).
Proof.
  intro Hst; unfold click, createNewSession.
  destruct (activeTab st) eqn:Htab; cbv beta iota zeta.
  - destruct (_ =? 0)%nat; [exact (invariant_showSnackbar _ _ Hst)|].
    apply invariant_started; [apply activeOk_newSession; reflexivity|exact Hst].
  - destruct (_ =? 0)%nat; [exact (invariant_showSnackbar _ _ Hst)|].
    apply invariant_started; [apply activeOk_newSession; reflexivity|exact Hst].
  - destruct (_ =? 0)%nat; [exact (invariant_showSnackbar _ _ Hst)|].
    apply invariant_started; [apply activeOk_newSession; reflexivity|exact Hst].
  - apply invariant_started; [apply activeOk_murphSession|exact Hst].
  - apply invariant_started; [apply activeOk_runSession|exact Hst].
  - change (List.length (template_of dashboard) =? 0)%nat with true.
    exact (invariant_showSnackbar _ _ Hst).
Qed.

Lemma invariant_saveActiveSession (r st : App) :
  (forall a, activeSession (core r) = Some a -> activeOk a) ->
  invariant st -> invariant (saveActiveSession r st).
Proof.
  intros Hr Hst; unfold saveActiveSession.
  destruct (activeSession (core r)) as [a|]; [|exact Hst].
  specialize (Hr a eq_refl); simpl.
  apply invariant_showSnackbar, invariant_deactivate, invariant_upsert.
  - apply storedOk_completedSession, Hr.
  - apply (invariant_sameCore st); [parts; reflexivity|exact Hst].
Qed.

Lemma invariant_handleSaveEdit (u : TrainingSession) (st : App) :
  editingOk u -> invariant st -> invariant (handleSaveEdit u st).
Proof.
  intros Hu Hst; unfold handleSaveEdit.
  apply invariant_showSnackbar, invariant_setDB; [| |exact Hst]; simpl.
  - rewrite ids_replace; apply Hst.
  - destruct Hst as ((_ & Hdb & _) & _).
    induction Hdb as [|s l Hs Hl IH]; simpl; constructor; [|exact IH].
    destruct (id s =? id (editedSession u))%string;
      [apply storedOk_editedSession, Hu|exact Hs].
Qed.

Lemma invariant_deleteSession (i : string) (st : App) :
  invariant st -> invariant (deleteSession i st).
Proof.
  intro Hst; unfold deleteSession.
  apply invariant_showSnackbar, invariant_setDB; [| |exact Hst]; simpl.
  - apply NoDup_ids_filter, Hst.
  - destruct Hst as ((_ & Hdb & _) & _).
    apply Forall_forall; intros s Hs; apply filter_In in Hs.
    eapply Forall_forall in Hdb; [exact Hdb|tauto].
Qed.

Lemma invariant_Run_handleSave (st : App) (d m s : string) (t : option Z) :
  (exists a, activeSession (core st) = Some a /\ type a = run) ->
  invariant st -> invariant (Run_handleSave st d m s t st).
Proof.
  intros (a & Ha & Hty) Hst; unfold Run_handleSave; rewrite Ha.
  destruct (_ || _)%bool; [apply invariant_showSnackbar, Hst|].
  destruct (PrimFloat.leb _ _); [apply invariant_showSnackbar, Hst|].
  destruct t as [t|]; [|exact Hst].
  apply invariant_showSnackbar, invariant_deactivate, invariant_upsert; [|exact Hst].
  apply storedOk_with_runData; [exact Hty|].
  destruct Hst as ((_ & _ & Hact) & _); apply Hact, Ha.
Qed.

(** The updaters of the strength views and of the Murph view. *)
Lemma strength_updater_ok (st : App) (g : TrainingSession -> list Exercise) :
  (exists a, activeSession (core st) = Some a /\ isStrength (type a) = true) ->
  invariant st ->
  forall a, activeSession (core st) = Some a ->
            activeOk (with_exercises a (g a)).
Proof.
  intros (a' & Ha' & Hty) ((_ & _ & Hact) & _) a Ha.
  rewrite Ha in Ha'; injection Ha' as <-.
  apply activeOk_with_exercises; [exact Hty|apply Hact, Ha].
Qed.

Lemma murph_updater_ok (st : App) (g : TrainingSession -> MurphData) :
  (exists a, activeSession (core st) = Some a /\ type a = murph) ->
  invariant st ->
  forall a, activeSession (core st) = Some a ->
            activeOk (with_murphData a (Some (g a))).
Proof.
  intros (a' & Ha' & Hty) ((_ & _ & Hact) & _) a Ha.
  rewrite Ha in Ha'; injection Ha' as <-.
  apply activeOk_with_murphData; [exact Hty|apply Hact, Ha].
Qed.

Lemma invariant_updateExercise (st st' : App) (i : nat) (f : Exercise -> Exercise) :
  (exists a, activeSession (core st) = Some a /\ isStrength (type a) = true) ->
  invariant st -> invariant st' ->
  invariant (onCore (updateExercise st i f) st').
Proof.
  intros Hv Hst Hst'; unfold updateExercise.
  apply invariant_onCore_updateSession; [|exact Hst'].
  apply (strength_updater_ok st
           (fun s => mapi (fun k ex => if (k =? i)%nat then f ex else ex) (exercises s)));
    assumption.
Qed.

Lemma invariant_murph_update (st : App) (g : TrainingSession -> MurphData) :
  (exists a, activeSession (core st) = Some a /\ type a = murph) ->
  invariant st ->
  invariant (onCore (updateSession (core st) (fun s => with_murphData s (Some (g s)))) st).
Proof.
  intros Hv Hst; apply invariant_onCore_updateSession; [|exact Hst].
  apply (murph_updater_ok st g); assumption.
Qed.

(** *** Every event keeps the invariant *)

Lemma invariant_handle (e : Event) (st : App) : invariant st -> invariant (handle e st).
Proof.
  intro Hst; destruct e; unfold handle, whenSome.
  - (* SelectTab *)
    apply (invariant_sameCore st); [parts; reflexivity|exact Hst].
  - (* NewTraining *)
    destruct (activeTab st), (activeSession (core st)); try exact Hst;
      apply invariant_createNewSession, Hst.
  - (* ResumeTraining *)
    destruct (activeSession (core st)); [|exact Hst].
    destruct (_ && _)%bool; [|exact Hst].
    apply (invariant_sameCore st); [parts; reflexivity|exact Hst].
  - (* Cancel *)
    destruct (strengthView st), (murphView st), (runView st);
      try exact Hst; apply invariant_deactivate, Hst.
  - (* Save *)
    destruct (strengthView st); [|exact Hst].
    apply invariant_saveActiveSession; [apply Hst|exact Hst].
  - (* AddExercise *)
    destruct (strengthView st) as [a|] eqn:Hv; [|exact Hst].
    apply strengthView_active in Hv.
    unfold addNewExercise; rewrite perform_spec.
    apply invariant_showSnackbar, invariant_onCore_updateSession.
    + apply (strength_updater_ok st (fun s => exercises s ++ [_])); [eauto|exact Hst].
    + apply (invariant_sameCore st); [apply sameCore_perform|exact Hst].
  - (* ChooseLocation *)
    destruct (strengthView st) as [a|] eqn:Hv; [|exact Hst].
    unfold handleLocationChange.
    destruct (value =? "custom")%string; [exact Hst|].
    apply invariant_onCore_updateSession; [|exact Hst].
    intros a' Ha'; apply activeOk_with_location, Hst, Ha'.
  - (* CustomLocation *)
    destruct (strengthView st) as [a|] eqn:Hv; [|exact Hst].
    unfold saveCustomLocation.
    destruct (JS.trim value =? "")%string; [exact Hst|].
    apply invariant_onCore_updateSession; [|exact Hst].
    intros a' Ha'; apply activeOk_with_location, Hst, Ha'.
  - (* AddSet *)
    destruct (card st exIndex) as [ex|] eqn:Hc; [|exact Hst].
    apply card_active in Hc.
    unfold addSet, updateExercise; rewrite perform_spec.
    apply invariant_onCore_updateSession.
    + apply (strength_updater_ok st
               (fun s => mapi (fun i ex => if (i =? exIndex)%nat
                                           then with_sets ex (sets ex ++ [_]) else ex)
                              (exercises s))); [exact Hc|exact Hst].
    + apply (invariant_sameCore st); [apply sameCore_perform|exact Hst].
  - (* DeleteSet *)
    destruct (card st exIndex) as [ex|] eqn:Hc; [|exact Hst].
    apply card_active in Hc.
    unfold deleteSet.
    destruct (nth_error (sets ex) setIndex) as [x|]; [|exact Hst].
    apply invariant_showSnackbar_undo.
    + intros c Hgood; unfold undoDelete, updateExercise.
      apply goodCore_updateSession; [|exact Hgood].
      apply (strength_updater_ok st
               (fun s => mapi (fun i ex => if (i =? exIndex)%nat
                                           then with_sets ex _ else ex)
                              (exercises s))); [exact Hc|exact Hst].
    + unfold updateExercise; apply invariant_onCore_updateSession; [|exact Hst].
      apply (strength_updater_ok st
               (fun s => mapi (fun i ex => if (i =? exIndex)%nat
                                           then with_sets ex _ else ex)
                              (exercises s))); [exact Hc|exact Hst].
  - (* DeleteExercise *)
    destruct (card st exIndex) as [ex|] eqn:Hc; [|exact Hst].
    apply card_active in Hc.
    unfold deleteExercise.
    apply invariant_showSnackbar, invariant_onCore_updateSession; [|exact Hst].
    apply (strength_updater_ok st
             (fun s => filteri (fun i => negb (i =? exIndex)%nat) (exercises s)));
      [exact Hc|exact Hst].
  - (* SelectVariation *)
    destruct (card st exIndex) as [ex|] eqn:Hc; [|exact Hst].
    apply card_active in Hc.
    unfold selectVariation; apply invariant_updateExercise; assumption.
  - (* TypeWeight *)
    destruct (row st exIndex setIndex) as [p|] eqn:Hr; [|exact Hst].
    apply row_active in Hr.
    unfold updateSetWeight, updateSet; apply invariant_updateExercise; assumption.
  - (* TypeReps *)
    destruct (row st exIndex setIndex) as [p|] eqn:Hr; [|exact Hst].
    apply row_active in Hr.
    unfold updateSetReps, updateSet; apply invariant_updateExercise; assumption.
  - (* AdjustWeight *)
    destruct (row st exIndex setIndex) as [p|] eqn:Hr; [|exact Hst].
    apply row_active in Hr.
    unfold adjustWeight, updateSet; apply invariant_updateExercise; assumption.
  - (* AdjustReps *)
    destruct (row st exIndex setIndex) as [p|] eqn:Hr; [|exact Hst].
    apply row_active in Hr.
    unfold adjustReps, updateSet; apply invariant_updateExercise; assumption.
  - (* ApplyLast *)
    destruct (row st exIndex setIndex) as [p|] eqn:Hr; [|exact Hst].
    apply row_active in Hr.
    unfold applyLast.
    destruct (findLastSet st (name (fst p)) (variation (fst p)) setIndex); [|exact Hst].
    unfold updateSet; apply invariant_updateExercise; assumption.
  - (* Undo *)
    apply invariant_clickUndo, Hst.
  - (* Elapse *)
    destruct (0 <=? dt)%Z; [apply invariant_elapse, Hst|exact Hst].
  - (* MurphMode *)
    destruct (murphView st) as [a|] eqn:Hv; [|exact Hst].
    apply murphView_active in Hv.
    unfold startMode, snd.
    apply (invariant_murph_update st (fun _ => mkMurphData 0 None (Some lite) _ _));
      [eauto|exact Hst].
  - (* MurphTick *)
    destruct (murphView st) as [a|] eqn:Hv; [|exact Hst].
    apply murphView_active in Hv.
    unfold tick.
    destruct (isRunning v); [|exact Hst].
    destruct (_ && _)%bool; [exact Hst|]; unfold snd.
    apply (invariant_murph_update st (fun s => with_totalTime (murphData_of s) _));
      [eauto|exact Hst].
  - (* MurphRound *)
    destruct (murphView st) as [a|] eqn:Hv; [|exact Hst].
    apply murphView_active in Hv.
    unfold addRound.
    apply (invariant_murph_update st
             (fun s => mkMurphData (rounds (murphData_of s) + 1) _ _ _ _));
      [eauto|exact Hst].
  - (* MurphSave *)
    destruct (murphView st) as [a|] eqn:Hv; [|exact Hst].
    apply murphView_active in Hv.
    unfold Murph_handleSave, snd.
    apply invariant_saveActiveSession; [apply Hst|].
    apply (invariant_murph_update st
             (fun s => mkMurphData (rounds (murphData_of s)) (Some (elapsedTime v)) _ _ _));
      [eauto|exact Hst].
  - (* RunSave *)
    destruct (runView st) as [a|] eqn:Hv; [|exact Hst].
    apply runView_active in Hv.
    apply invariant_Run_handleSave; [eauto|exact Hst].
  - (* DeleteStored *)
    destruct (_ && _)%bool; [apply invariant_deleteSession, Hst|exact Hst].
  - (* OpenEdit *)
    destruct (historyList st); [|exact Hst].
    destruct (nth_error (filteredSessions st) k) as [s|] eqn:Hk; [|exact Hst].
    unfold handleEdit; apply invariant_editing; [|exact Hst].
    intros s' Hs'; injection Hs' as <-.
    destruct (filteredSessions_completed st k s Hk) as (Hc & _).
    apply filteredSessions_stored in Hk.
    destruct Hst as ((_ & Hdb & _) & _).
    eapply Forall_forall in Hdb; [|exact Hk].
    apply editingOk_JSON; assumption.
  - (* EditorChange *)
    destruct (editorView st) as [s|]; [|exact Hst].
    destruct (plainControl a s); [|exact Hst].
    apply invariant_updateEditingSession; [apply editingOk_edit|exact Hst].
  - (* EditorDeleteSet *)
    destruct (editorView st) as [s|]; [|exact Hst].
    destruct (setAt s exIdx setIdx) as [removed|]; [|exact Hst].
    unfold editorDeleteSet.
    apply invariant_showSnackbar_undo; [exact I|].
    apply invariant_updateEditingSession; [apply editingOk_edit|exact Hst].
  - (* EditorAddSet *)
    destruct (editorView st) as [s|]; [|exact Hst].
    destruct (exIdx <? List.length (exercises s))%nat; [|exact Hst].
    unfold editorAddSet.
    destruct (editingSession (page st)); [|exact Hst].
    rewrite perform_spec.
    apply invariant_updateEditingSession; [apply editingOk_edit|].
    apply (invariant_sameCore st); [apply sameCore_perform|exact Hst].
  - (* SaveEdit *)
    destruct (editorView st) as [s|]; [|exact Hst].
    unfold click, saveEdit.
    destruct (editingSession (page st)) as [u|] eqn:Eu; [|exact Hst].
    apply invariant_editing; [intros ? Hn; discriminate Hn|].
    apply invariant_handleSaveEdit; [apply Hst, Eu|exact Hst].
  - (* CancelEdit *)
    destruct (editorView st) as [s|]; [|exact Hst].
    apply invariant_editing; [intros ? Hn; discriminate Hn|exact Hst].
  - (* Export *)
    destruct (TrainingType_eqb _ _); [apply invariant_showSnackbar, Hst|exact Hst].
  - (* Reload *)
    exact Hst.
Qed.

Lemma invariant_reload (st : App) : invariant st -> invariant (reload st).
Proof.
  intros (Hg & _ & _); parts; simpl.
  - apply goodCore_JSON, Hg.
  - intros e He; discriminate He.
  - intros u Hu; discriminate Hu.
Qed.

Lemma invariant_step (e : Event) (st : App) : invariant st -> invariant (step e st).
Proof.
  intro Hst.
  assert (H : invariant (if crashed (page st) then st else remount st (handle e st))).
  { destruct (crashed (page st)); [exact Hst|].
    apply invariant_remount, invariant_handle, Hst. }
  destruct e; try exact H.
  apply invariant_reload, Hst.
Qed.

Lemma invariant_importBackup (r st : App) (backup : DB) (replace : bool) :
  NoDup (map id (sessions backup)) -> Forall storedOk (sessions backup) ->
  invariant r -> invariant st ->
  invariant (importBackup r (Some backup) replace st).
Proof.
  intros Hnd Hok ((Hndr & Hdbr & _) & _) Hst; unfold importBackup.
  destruct replace.
  - apply (invariant_sameCore (showSnackbar "Backup wiederhergestellt (ersetzt)!" None
                                 (setDB (fun _ => backup) st))); [parts; reflexivity|].
    apply invariant_showSnackbar, invariant_setDB; assumption.
  - apply (invariant_sameCore (showSnackbar "Backup zusammengeführt!" None
                                 (setDB (fun _ => mergeBackup (db (core r)) backup) st)));
      [parts; reflexivity|].
    apply invariant_showSnackbar, invariant_setDB; [| |exact Hst].
    + apply NoDup_ids_merge; assumption.
    + unfold mergeBackup; simpl; apply Forall_app; split; [exact Hdbr|].
      apply Forall_forall; intros s Hs; apply filter_In in Hs.
      eapply Forall_forall in Hok; [exact Hok|tauto].
Qed.

Lemma invariant_fileLoaded (r exported st : App) (replace : bool) :
  invariant r -> invariant exported -> invariant st ->
  invariant (fileLoaded r (Some (JSON.roundTrip (db (core exported)))) replace st).
Proof.
  intros Hr Hx Hst; unfold fileLoaded.
  destruct (crashed (page st)); [exact Hst|].
  apply invariant_remount, invariant_importBackup; try assumption.
  - simpl; rewrite ids_JSON; apply Hx.
  - destruct (goodCore_JSON (core exported)) as (_ & H & _); [apply Hx|exact H].
Qed.

Lemma invariant_initApp (w : World) : invariant (initApp w).
Proof.
  parts; [parts| |]; simpl.
  - constructor.
  - constructor.
  - intros a Ha; discriminate Ha.
  - intros e He; discriminate He.
  - intros u Hu; discriminate Hu.
Qed.

Lemma invariant_run_events (l : list Event) (st : App) :
  invariant st -> invariant (run_events l st).
Proof.
  revert st; induction l as [|e l IH]; intros st Hst; simpl; [exact Hst|].
  apply IH, invariant_step, Hst.
Qed.

Lemma invariant_reachable (st : App) : reachable st -> invariant st.
Proof.
  induction 1 as [w|e st _ IH|r exported st replace _ IHr _ IHx _ IHst|r st _ _ _ IHst].
  - apply invariant_initApp.
  - apply invariant_step, IH.
  - apply invariant_fileLoaded; assumption.
  - unfold fileLoaded; destruct (crashed (page st)); [exact IHst|].
    apply invariant_remount; unfold importBackup; apply invariant_showSnackbar, IHst.
Qed.

Lemma reachable_run_events (l : list Event) :
  forall st, reachable st -> reachable (run_events l st).
Proof.
  induction l as [|e l IH]; intros st Hst; simpl; [exact Hst|].
  apply IH, reach_step, Hst.
Qed.

Lemma reachable_from_start (w : World) (l : list Event) :
  reachable (run_events l (initApp w)).
Proof. apply reachable_run_events, reach_start. Qed.

Lemma reachable_pushInProgress : reachable pushInProgress.
Proof. apply (reachable_from_start w0 pushEvents). Qed.

Lemma reachable_emptiedPush : reachable emptiedPush.
Proof. apply (reachable_from_start w0 emptyingEvents). Qed.

Lemma reachable_editedPush : reachable editedPush.
Proof.
  apply (reachable_from_start w0
           (pushEvents ++ [Save; OpenEdit 0; EditorDeleteSet 1 0; SaveEdit])).
Qed.

(** C6, as the specification states it, fails: after a push session is
    started and its seven exercises are deleted one by one, the active
    session, which is also in the store, has no exercises, no totals, no
    [murphData] and no [runData]. *)
Lemma emptied_push_session_has_no_content :
  reachable emptiedPush
  /\ session_of emptiedPush (theActive emptiedPush)
  /\ In (theActive emptiedPush) (sessions (db (core emptiedPush)))
  /\ type (theActive emptiedPush) = push
  /\ hasStrength (theActive emptiedPush) = false
  /\ hasMurph (theActive emptiedPush) = false
  /\ hasRun (theActive emptiedPush) = false
  /\ exclusive (theActive emptiedPush) = false.
Proof.
  split; [exact reachable_emptiedPush|].
  split; [right; left; vm_compute; reflexivity|].
  split; [vm_compute; left; reflexivity|].
  split; [vm_compute; reflexivity|].
  split; [vm_compute; reflexivity|].
  split; [vm_compute; reflexivity|].
  split; vm_compute; reflexivity.
Qed.

(** C6, amended.  For every session that exists (in the store, as the
    active session, or as the copy open in the history editor) in a state
    the application can reach from an empty store by its own operations
    (starting, changing, saving, cancelling, editing and deleting sessions,
    the undo button, the clock, loading the page again, and importing a
    backup that the application exported): [murphData] is present exactly
    when the type is murph, [runData] exactly when the type is run, exercises
    or totals are present only for the other types; so at most one of the
    three kinds of content is there and the type selects it.  Exactly one is
    there, unless the session is a strength session that has had all its
    exercises deleted before it was saved as completed: that one has
    none. *)
Theorem reachable_session_content (st : App) (s : TrainingSession) :
  reachable st ->
  session_of st s ->
  (exclusive s = true \/ emptied s = true)
  /\ (hasMurph s = true <-> type s = murph)
  /\ (hasRun s = true <-> type s = run)
  /\ (hasStrength s = true -> isStrength (type s) = true).
Proof.
  intros Hreach Hs.
  apply invariant_reachable in Hreach; destruct Hreach as ((_ & Hdb & Hact) & Hed & _).
  assert (Hk : wellKeyed s = true).
  { destruct Hs as [Hin|[Ha|He]]; [|apply Hact, Ha|apply Hed, He].
    eapply Forall_forall in Hdb; [apply Hdb|exact Hin]. }
  split; [apply wellKeyed_exclusive_or_emptied, Hk|].
  apply wellKeyed_keyed_by_type, Hk.
Qed.

Lemma reachable_session_content_witness :
  (exclusive (theActive pushInProgress) = true \/ emptied (theActive pushInProgress) = true)
  /\ (emptied (theActive emptiedPush) = true).
Proof.
  split.
  - apply (reachable_session_content pushInProgress (theActive pushInProgress)).
    + exact reachable_pushInProgress.
    + right; left; vm_compute; reflexivity.
  - destruct (reachable_session_content emptiedPush (theActive emptiedPush))
      as ([Hx|He] & _).
    + exact reachable_emptiedPush.
    + right; left; vm_compute; reflexivity.
    + vm_compute in Hx; discriminate Hx.
    + exact He.
Defined.

(** ** The store stays tidy *)

(** X1.  In every state the application reaches from an empty store by its
    own operations, loading the page again and importing backups that the
    application exported among them, no two stored sessions have the same
    id. *)
Theorem stored_ids_are_unique (st : App) :
  reachable st -> NoDup (map id (sessions (db (core st)))).
Proof. intro H; apply invariant_reachable in H; apply H. Qed.

Lemma stored_ids_are_unique_witness :
  NoDup (map id (sessions (db (core pushFinished))))
  /\ NoDup (map id (sessions (db (core
        (fileLoaded pushFinished (Some (JSON.roundTrip (db (core pushFinished))))
                    false (step Reload pushFinished)))))).
Proof.
  assert (Hreach : reachable pushFinished)
    by apply (reach_step Save), reachable_pushInProgress.
  split.
  - apply stored_ids_are_unique, Hreach.
  - apply stored_ids_are_unique.
    apply reach_import; [exact Hreach|exact Hreach|apply reach_step, Hreach].
Defined.

(** X2.  In every such state a session, be it stored, the active one or the
    copy open in the history editor, is completed exactly when it has an end
    time, and the active session is never a completed one. *)
Theorem completed_iff_ended (st : App) (s : TrainingSession) :
  reachable st ->
  session_of st s ->
  (completed s = true <-> endedAt s <> None)
  /\ (activeSession (core st) = Some s -> completed s = false).
Proof.
  intros Hreach Hs.
  apply invariant_reachable in Hreach; destruct Hreach as ((_ & Hdb & Hact) & Hed & _).
  split; [|intro Ha; apply Hact, Ha].
  destruct Hs as [Hin|[Ha|He]].
  - eapply Forall_forall in Hdb; [|exact Hin].
    destruct Hdb as (_ & Hsync); unfold inSync in Hsync; destruct (completed s).
    + split; [intros _; apply Hsync|reflexivity].
    + destruct Hsync as (He & _); split; [discriminate|].
      intro H; contradiction.
  - destruct (Hact s Ha) as (_ & Hsync & Hc).
    unfold inSync in Hsync; rewrite Hc in *; destruct Hsync as (He & _).
    split; [discriminate|intro H; contradiction].
  - destruct (Hed s He) as (_ & Hc & Hend); rewrite Hc.
    split; [intros _; exact Hend|reflexivity].
Qed.

Lemma completed_iff_ended_witness :
  (completed (theActive pushInProgress) = true
   <-> endedAt (theActive pushInProgress) <> None)
  /\ completed (theActive pushInProgress) = false.
Proof.
  destruct (completed_iff_ended pushInProgress (theActive pushInProgress))
    as (Hiff & Hact).
  - exact reachable_pushInProgress.
  - right; left; vm_compute; reflexivity.
  - split; [exact Hiff|apply Hact; vm_compute; reflexivity].
Defined.

(** X3.  In every such state the totals of a completed strength session,
    stored or active, count the sets the session has, also after the session
    was edited and saved from the history editor and after the page was
    loaded again; a session that is not completed has no totals. *)
Theorem stored_set_count_is_current (st : App) (s : TrainingSession) :
  reachable st ->
  In s (sessions (db (core st))) \/ activeSession (core st) = Some s ->
  (completed s = true -> isStrength (type s) = true ->
   exists volume, totals s = Some (mkTotals volume (Some (List.length (allSets s)))))
  /\ (completed s = false -> totals s = None).
Proof.
  intros Hreach Hs.
  apply invariant_reachable in Hreach; destruct Hreach as ((_ & Hdb & Hact) & _).
  assert (Hsync : inSync s).
  { destruct Hs as [Hin|Ha]; [|apply Hact, Ha].
    eapply Forall_forall in Hdb; [apply Hdb|exact Hin]. }
  unfold inSync in Hsync; split; intro Hc; rewrite Hc in Hsync.
  - intro Hty; destruct Hsync as (_ & Ht).
    destruct (Ht Hty) as (volume & Hv); exists volume.
    rewrite Hv, countSets_allSets; reflexivity.
  - apply Hsync.
Qed.

Lemma stored_set_count_is_current_witness :
  (exists volume,
     totals (theLast (reload editedPush)) = Some (mkTotals volume (Some 22%nat)))
  /\ totals (theActive pushInProgress) = None.
Proof.
  assert (Hreach : reachable (reload editedPush))
    by exact (reach_step Reload editedPush reachable_editedPush).
  destruct (stored_set_count_is_current (reload editedPush) (theLast (reload editedPush)) Hreach)
    as (Hdone & _); [left; vm_compute; left; reflexivity|].
  destruct (stored_set_count_is_current pushInProgress (theActive pushInProgress))
    as (_ & Hopen);
    [exact reachable_pushInProgress|right; vm_compute; reflexivity|].
  split; [|apply Hopen; vm_compute; reflexivity].
  destruct Hdone as (volume & Hv); [vm_compute; reflexivity|vm_compute; reflexivity|].
  exists volume; rewrite Hv; f_equal.
Defined.

(** ** More on importing, auto-saving and the history list *)

Lemma filter_nil {A : Type} (p : A -> bool) (l : list A) :
  (forall x, In x l -> p x = false) -> filter p l = [].
Proof.
  induction l as [|x l IH]; simpl; intro H; [reflexivity|].
  rewrite (H x (or_introl eq_refl)); apply IH.
  intros y Hy; apply H; right; exact Hy.
Qed.

Lemma mergeBackup_absorbs (current backup : DB) :
  mergeBackup (mergeBackup current backup) backup = mergeBackup current backup.
Proof.
  unfold mergeBackup; cbn [sessions version]; f_equal.
  match goal with |- _ ++ ?again = _ => assert (Hnil : again = []) end;
    [|rewrite Hnil; apply app_nil_r].
  apply filter_nil.
  intros s Hs; apply negb_false_iff, includes_In.
  rewrite map_app; apply in_or_app.
  destruct (includes (map id (sessions current)) (id s)) eqn:E.
  - left; apply includes_In, E.
  - right; apply in_map, filter_In; split; [exact Hs|rewrite E; reflexivity].
Qed.

(** X4.  Merging the same backup a second time changes nothing: every
    session of the backup is by then either in the store or shadowed by a
    stored session with its id. *)
Theorem merge_import_idempotent (st : App) (backup : DB) :
  let once := importBackup st (Some backup) false st in
  db (core (importBackup once (Some backup) false once)) = db (core once).
Proof.
  intro once.
  change (mergeBackup (mergeBackup (db (core st)) backup) backup
          = mergeBackup (db (core st)) backup).
  apply mergeBackup_absorbs.
Qed.

(** X5.  Merging keeps the ids of the store pairwise distinct, provided
    they were and the backup does not repeat an id itself. *)
Theorem merge_import_keeps_ids_unique (r st : App) (backup : DB) :
  NoDup (map id (sessions (db (core r)))) ->
  NoDup (map id (sessions backup)) ->
  NoDup (map id (sessions (db (core (importBackup r (Some backup) false st))))).
Proof.
  intros Hcur Hback; rewrite importBackup_merge.
  unfold mergeBackup; simpl; rewrite map_app.
  apply NoDup_append; [exact Hcur|apply NoDup_ids_filter, Hback|].
  intros x Hx Hin.
  apply in_map_iff in Hx; destruct Hx as (s & <- & Hs).
  apply filter_In in Hs; destruct Hs as (_ & Hs).
  apply includes_In in Hin; rewrite Hin in Hs; discriminate Hs.
Qed.

Lemma merge_import_keeps_ids_unique_witness :
  NoDup (map id (sessions (db (core (importBackup storeWithA (Some backupOfA)
                                                  false storeWithA))))).
Proof.
  apply merge_import_keeps_ids_unique;
    (constructor; [intros []|constructor]).
Defined.

Lemma filter_negb_filter {A : Type} (p : A -> bool) (l : list A) :
  filter p (filter (fun x => negb (p x)) l) = [].
Proof.
  apply filter_nil; intros x Hx; apply filter_In in Hx.
  destruct Hx as (_ & Hx); apply negb_true_iff, Hx.
Qed.

Lemma updateSession_store (r c : Core) (f : TrainingSession -> TrainingSession)
    (a : TrainingSession) :
  activeSession r = Some a ->
  activeSession (updateSession r f c) = Some (f a)
  /\ filter (fun s => (id s =? id (f a))%string) (sessions (db (updateSession r f c)))
     = [f a]
  /\ filter (fun s => negb (id s =? id (f a))%string) (sessions (db (updateSession r f c)))
     = filter (fun s => negb (id s =? id (f a))%string) (sessions (db c))
  /\ version (db (updateSession r f c)) = version (db c).
Proof.
  intros Ha; unfold updateSession; rewrite Ha; simpl.
  split; [reflexivity|].
  rewrite !filter_app; simpl; rewrite String.eqb_refl; simpl.
  rewrite filter_negb_filter, filter_filter_same, app_nil_r.
  repeat split.
Qed.

(** X6.  Auto-save.  [updateSession] makes the updated session the active
    one and leaves exactly one copy of it in the store, the updated one;
    the sessions with another id and the store's version are untouched.
    This holds for whatever state the update is applied to. *)
Theorem autosave_keeps_one_copy (r c : Core) (f : TrainingSession -> TrainingSession)
    (a : TrainingSession) :
  activeSession r = Some a ->
  let c' := updateSession r f c in
  activeSession c' = Some (f a)
  /\ filter (fun s => (id s =? id (f a))%string) (sessions (db c')) = [f a]
  /\ filter (fun s => negb (id s =? id (f a))%string) (sessions (db c'))
     = filter (fun s => negb (id s =? id (f a))%string) (sessions (db c))
  /\ version (db c') = version (db c).
Proof. intros Ha c'; apply updateSession_store, Ha. Qed.

Lemma autosave_keeps_one_copy_witness :
  filter (fun s => (id s =? id (with_location (theActive pushInProgress) (Some "Kirkel")))%string)
         (sessions (db (updateSession (core pushInProgress)
                          (fun s => with_location s (Some "Kirkel"))
                          (core pushInProgress))))
  = [with_location (theActive pushInProgress) (Some "Kirkel")].
Proof.
  destruct (autosave_keeps_one_copy (core pushInProgress) (core pushInProgress)
              (fun s => with_location s (Some "Kirkel")) (theActive pushInProgress))
    as (_ & H & _); [vm_compute; reflexivity|exact H].
Defined.

(** *** The history list *)

Lemma StronglySorted_app_order {A : Type} (R : A -> A -> Prop) (l1 l2 : list A) :
  StronglySorted R (l1 ++ l2) ->
  StronglySorted R l1 /\ (forall x y, In x l1 -> In y l2 -> R x y).
Proof.
  induction l1 as [|a l1 IH]; simpl; intro H.
  - split; [constructor|intros x y []].
  - inversion H as [|? ? Hs Hall]; subst.
    destruct (IH Hs) as (Hs1 & Hord); split.
    + constructor; [exact Hs1|].
      apply Forall_forall; intros x Hx.
      eapply Forall_forall in Hall; [exact Hall|apply in_or_app; left; exact Hx].
    + intros x y [<-|Hx] Hy; [|apply Hord; assumption].
      eapply Forall_forall in Hall; [exact Hall|apply in_or_app; right; exact Hy].
Qed.

(** X7.  The history list shows at most ten sessions; they are stored,
    completed, of the type of the current tab and ordered latest first; and
    a completed session of that type that is not shown is no later than
    any of the ten that are. *)
Theorem history_shows_the_ten_latest (st : App) :
  let shown := filteredSessions st in
  (List.length shown <= 10)%nat
  /\ (forall s, In s shown ->
                In s (sessions (db (core st))) /\ completed s = true
                /\ type s = activeTab st)
  /\ StronglySorted (fun a b => (date b <= date a)%Z) shown
  /\ (forall s, In s (sessions (db (core st))) -> completed s = true ->
                type s = activeTab st -> ~ In s shown ->
                List.length shown = 10%nat
                /\ (forall x, In x shown -> (date s <= date x)%Z)).
Proof.
  intro shown; unfold shown, filteredSessions.
  set (all := Array_sort _ _).
  assert (Hperm : Permutation all
            (filter (fun s => TrainingType_eqb (type s) (activeTab st) && completed s)
                    (sessions (db (core st)))))
    by apply (Array_sort_perm date).
  assert (Hsorted : StronglySorted (fun a b => (date b <= date a)%Z) all)
    by apply (Array_sort_sorted date).
  rewrite <- (firstn_skipn 10 all) in Hsorted.
  apply StronglySorted_app_order in Hsorted; destruct Hsorted as (Hs1 & Hord).
  split; [apply firstn_le_length|].
  split.
  { intros s Hs; apply In_firstn in Hs.
    eapply Permutation_in in Hs; [|exact Hperm].
    apply filter_In in Hs; destruct Hs as (Hin & Hp).
    apply andb_true_iff in Hp; destruct Hp as (Hty & Hc).
    split; [exact Hin|split; [exact Hc|apply TrainingType_eqb_eq, Hty]]. }
  split; [exact Hs1|].
  intros s Hin Hc Hty Hnot.
  assert (Hall : In s all).
  { eapply Permutation_in; [apply Permutation_sym, Hperm|].
    apply filter_In; split; [exact Hin|].
    rewrite Hc, Hty; destruct (activeTab st); reflexivity. }
  rewrite <- (firstn_skipn 10 all) in Hall.
  apply in_app_or in Hall; destruct Hall as [Hall|Hall]; [contradiction|].
  split.
  - rewrite length_firstn.
    destruct (Nat.le_gt_cases (List.length all) 10) as [Hle|Hgt]; [|lia].
    rewrite skipn_all2 in Hall by exact Hle; destruct Hall.
  - intros x Hx; apply (Hord x s Hx Hall).
Qed.

(** *** Ties of the sort *)

Section Stable.
Context {A : Type} (key : A -> Z).

Lemma insert_sorted_stable (k : Z) (x : A) (l : list A) :
  filter (fun y => (key y =? k)%Z) (insert_sorted (fun a b => (key b - key a)%Z) x l)
  = filter (fun y => (key y =? k)%Z) (x :: l).
Proof.
  induction l as [|y l IH]; [reflexivity|].
  simpl insert_sorted.
  destruct (key y - key x <=? 0)%Z eqn:E; [reflexivity|].
  apply Z.leb_gt in E.
  simpl in IH |- *; rewrite IH.
  destruct (key x =? k)%Z eqn:Ex, (key y =? k)%Z eqn:Ey; try reflexivity.
  apply Z.eqb_eq in Ex, Ey; lia.
Qed.

Lemma Array_sort_stable (k : Z) (l : list A) :
  filter (fun y => (key y =? k)%Z) (Array_sort (fun a b => (key b - key a)%Z) l)
  = filter (fun y => (key y =? k)%Z) l.
Proof.
  induction l as [|x l IH]; [reflexivity|].
  simpl Array_sort; rewrite insert_sorted_stable; simpl; rewrite IH; reflexivity.
Qed.
End Stable.

(** X8.  Sessions with the same date are scanned by [findLastSet], and
    listed in the history, in the order in which the store holds them. *)
Theorem same_date_keeps_store_order (r : App) (d : Z) :
  filter (fun s => (date s =? d)%Z) (completedSessions r)
  = filter (fun s => (date s =? d)%Z)
      (filter (fun s => TrainingType_eqb (type s) (activeTab r) && completed s
                        && differsFromActive (activeSession (core r)) s)
              (sessions (db (core r)))).
Proof. apply (Array_sort_stable date). Qed.

(** *** Where a suggested set comes from *)

Lemma findLastSet_loop_sound (n : string) (v : option string) (i : nat)
    (l : list TrainingSession) (x : SetEntry) :
  findLastSet_loop n v i l = Some x ->
  exists s ex, In s l /\ In ex (exercises s)
               /\ name ex = n /\ variation ex = v /\ In x (sets ex).
Proof.
  induction l as [|s l IH]; simpl; intro H; [discriminate H|].
  destruct (find (matches n v) (exercises s)) as [ex|] eqn:Hfind.
  - apply find_some in Hfind; destruct Hfind as (Hin & Hm).
    apply matches_exact in Hm; destruct Hm as (Hn & Hv).
    destruct (nth_error (sets ex) i) as [y|] eqn:Hnth.
    + injection H as <-; exists s, ex.
      repeat split; try assumption; [left; reflexivity|].
      apply nth_error_In in Hnth; exact Hnth.
    + destruct (0 <? List.length (sets ex))%nat.
      * exists s, ex; repeat split; try assumption; [left; reflexivity|].
        apply nth_error_In in H; exact H.
      * destruct (IH H) as (s' & ex' & Hs' & Hrest); exists s', ex'.
        split; [right; exact Hs'|exact Hrest].
  - destruct (IH H) as (s' & ex' & Hs' & Hrest); exists s', ex'.
    split; [right; exact Hs'|exact Hrest].
Qed.

(** X9.  A set that [findLastSet] returns is a set of an exercise with the
    given name and variation in a stored session that is completed, of the
    type of the current tab, and not the copy of the active session. *)
Theorem findLastSet_source (r : App) (exerciseName : string)
    (variation' : option string) (setIndex : nat) (x : SetEntry) :
  findLastSet r exerciseName variation' setIndex = Some x ->
  exists s ex,
    In s (sessions (db (core r)))
    /\ completed s = true
    /\ type s = activeTab r
    /\ (forall a, activeSession (core r) = Some a -> id s <> id a)
    /\ In ex (exercises s)
    /\ name ex = exerciseName /\ variation ex = variation'
    /\ In x (sets ex).
Proof.
  intro H; apply findLastSet_loop_sound in H.
  destruct H as (s & ex & Hs & Hex & Hn & Hv & Hx).
  exists s, ex.
  eapply Permutation_in in Hs; [|apply (Array_sort_perm date)].
  apply filter_In in Hs; destruct Hs as (Hin & Hp).
  apply andb_true_iff in Hp; destruct Hp as (Hp & Hd).
  apply andb_true_iff in Hp; destruct Hp as (Hty & Hc).
  split; [exact Hin|].
  split; [exact Hc|].
  split; [apply TrainingType_eqb_eq, Hty|].
  split; [|repeat split; assumption].
  intros a Ha Heq; rewrite Ha in Hd; simpl in Hd.
  rewrite Heq, String.eqb_refl in Hd; discriminate Hd.
Qed.

Lemma findLastSet_source_witness :
  exists s ex,
    In s (sessions (db (core pullTab)))
    /\ completed s = true
    /\ type s = activeTab pullTab
    /\ (forall a, activeSession (core pullTab) = Some a -> id s <> id a)
    /\ In ex (exercises s)
    /\ name ex = "Klimmzüge" /\ variation ex = None
    /\ In (sampleSet "k5" (Some 0%float) (Some 6%float)) (sets ex).
Proof.
  apply (findLastSet_source pullTab "Klimmzüge" None 10); reflexivity.
Defined.

(** ** The Murph view: rounds and timer over many steps *)

Lemma active_after_update (st : App) (f : TrainingSession -> TrainingSession)
    (a : TrainingSession) :
  activeSession (core st) = Some a ->
  activeSession (core (onCore (updateSession (core st) f) st)) = Some (f a).
Proof. intro H; unfold onCore, updateSession; rewrite H; reflexivity. Qed.

Lemma isLite'_active (st st' : App) (a a' : TrainingSession) :
  activeSession (core st) = Some a ->
  activeSession (core st') = Some a' ->
  isLite (murphData_of a') = isLite (murphData_of a) ->
  isLite' st' = isLite' st.
Proof.
  intros H H' E; unfold isLite'; rewrite H, H'.
  unfold murphData_of in E.
  destruct (murphData a) as [m|], (murphData a') as [m'|]; simpl in E;
    try rewrite E; try reflexivity.
  - rewrite <- E; reflexivity.
Qed.

Lemma addRound_active (st : App) (a : TrainingSession) :
  activeSession (core st) = Some a ->
  activeSession (core (addRound st st))
  = Some (with_murphData a
            (Some (mkMurphData (rounds (murphData_of a) + 1) (totalTime (murphData_of a))
                               (isLite (murphData_of a)) (weightVest (murphData_of a))
                               (weightVestKg (murphData_of a))))).
Proof. intro H; unfold addRound; rewrite (active_after_update _ _ _ H); reflexivity. Qed.

Lemma rounds_after_clicks_gen (n : nat) :
  forall (st : App) (a : TrainingSession),
    activeSession (core st) = Some a ->
    (isLite' st = false -> (rounds (murphData_of a) <= 20)%Z) ->
    Murph_rounds (clicks n clickAddRound st)
    = if isLite' st
      then (rounds (murphData_of a) + Z.of_nat n)%Z
      else Z.min 20 (rounds (murphData_of a) + Z.of_nat n).
Proof.
  induction n as [|n IH]; intros st a Ha Hcap.
  - simpl clicks; unfold Murph_rounds; rewrite Ha.
    destruct (isLite' st); [lia|specialize (Hcap eq_refl); lia].
  - simpl clicks; unfold click.
    change (clickAddRound st st)
      with (if (negb (isLite' st) && (20 <=? Murph_rounds st)%Z)%bool
            then st else addRound st st).
    assert (Hr : Murph_rounds st = rounds (murphData_of a))
      by (unfold Murph_rounds; rewrite Ha; reflexivity).
    pose proof (addRound_active st a Ha) as Hnext.
    assert (Hlite : isLite' (addRound st st) = isLite' st)
      by (eapply isLite'_active; [exact Ha|exact Hnext|reflexivity]).
    destruct (isLite' st) eqn:El; simpl negb.
    + rewrite andb_false_l; cbv iota.
      rewrite (IH _ _ Hnext) by (rewrite Hlite; discriminate).
      rewrite Hlite; simpl; lia.
    + specialize (Hcap eq_refl); rewrite andb_true_l, Hr.
      destruct (20 <=? rounds (murphData_of a))%Z eqn:E; cbv iota.
      * apply Z.leb_le in E.
        rewrite (IH _ _ Ha) by (intros _; exact Hcap).
        rewrite El; lia.
      * apply Z.leb_gt in E.
        rewrite (IH _ _ Hnext) by (intros _; simpl; lia).
        rewrite Hlite; simpl; lia.
Qed.

(** X10.  Pressing the round button [n] times, each press on the render
    that followed the one before: a Lite workout counts every press; a Full
    workout that stood at no more than 20 rounds counts up to 20 and stays
    there. *)
Theorem rounds_after_clicks (n : nat) (st : App) (a : TrainingSession) :
  activeSession (core st) = Some a ->
  (isLite' st = false -> (rounds (murphData_of a) <= 20)%Z) ->
  Murph_rounds (clicks n clickAddRound st)
  = if isLite' st
    then (rounds (murphData_of a) + Z.of_nat n)%Z
    else Z.min 20 (rounds (murphData_of a) + Z.of_nat n).
Proof. apply rounds_after_clicks_gen. Qed.

Lemma rounds_after_clicks_witness :
  Murph_rounds (clicks 25 clickAddRound liteAt1499) = 25%Z.
Proof.
  apply (rounds_after_clicks 25 liteAt1499 (theActive liteAt1499));
    [reflexivity|vm_compute; discriminate].
Defined.

Lemma ticks_stopped (n : nat) (v : MurphView) (st : App) :
  isRunning v = false -> ticks n v st = (v, st).
Proof.
  intro H; induction n as [|n IH]; [reflexivity|].
  simpl; unfold tick; rewrite H; exact IH.
Qed.

Lemma tick_running (st : App) (v : MurphView) (a : TrainingSession) :
  activeSession (core st) = Some a ->
  isRunning v = true ->
  (isLite' st && (MURPH_LITE_TIME <=? elapsedTime v + 1)%Z)%bool = false ->
  exists st',
    tick st v st = (with_timer v (elapsedTime v + 1) true, st')
    /\ (exists a', activeSession (core st') = Some a')
    /\ activeTotalTime st' = Some (elapsedTime v + 1)%Z
    /\ isLite' st' = isLite' st.
Proof.
  intros Ha Hrun Hcap; unfold tick; rewrite Hrun, Hcap.
  eexists; split; [reflexivity|].
  pose proof (active_after_update st
                (fun s => with_murphData s
                   (Some (with_totalTime (murphData_of s)
                                         (Some (elapsedTime v + 1)%Z)))) a Ha) as Hnext.
  split; [eexists; exact Hnext|].
  split; [unfold activeTotalTime; rewrite Hnext; reflexivity|].
  eapply isLite'_active; [exact Ha|exact Hnext|reflexivity].
Qed.

Lemma ticks_full_gen (n : nat) :
  forall (st : App) (v : MurphView),
    (exists a, activeSession (core st) = Some a) ->
    isLite' st = false ->
    isRunning v = true ->
    let (v', st') := ticks n v st in
    elapsedTime v' = (elapsedTime v + Z.of_nat n)%Z
    /\ isRunning v' = true
    /\ activeTotalTime st'
       = match n with
         | O => activeTotalTime st
         | S _ => Some (elapsedTime v + Z.of_nat n)%Z
         end.
Proof.
  induction n as [|n IH]; intros st v [a Ha] Hfull Hrun.
  - simpl; repeat split; [lia|exact Hrun].
  - destruct (tick_running st v a Ha Hrun) as (st1 & Htick & Hact & Htime & Hlite);
      [rewrite Hfull; reflexivity|].
    simpl ticks; rewrite Htick.
    specialize (IH st1 (with_timer v (elapsedTime v + 1) true) Hact).
    rewrite Hlite in IH; specialize (IH Hfull eq_refl).
    destruct (ticks n _ st1) as [v' st'].
    destruct IH as (He & Hr & Ht); simpl in He.
    split; [lia|split; [exact Hr|]].
    rewrite Ht; destruct n; [rewrite Htime; f_equal; lia|f_equal; simpl; lia].
Qed.

(** X11.  A running timer of a Full workout: after [n] ticks the display
    has advanced by [n] seconds, the timer still runs, and the active
    session holds the displayed time. *)
Theorem full_timer_after_ticks (n : nat) (st : App) (v : MurphView)
    (a : TrainingSession) :
  activeSession (core st) = Some a ->
  isLite' st = false ->
  isRunning v = true ->
  (0 < n)%nat ->
  elapsedTime (fst (ticks n v st)) = (elapsedTime v + Z.of_nat n)%Z
  /\ isRunning (fst (ticks n v st)) = true
  /\ activeTotalTime (snd (ticks n v st)) = Some (elapsedTime (fst (ticks n v st))).
Proof.
  intros Ha Hfull Hrun Hn.
  pose proof (ticks_full_gen n st v (ex_intro _ a Ha) Hfull Hrun) as H.
  destruct (ticks n v st) as [v' st']; cbn [fst snd].
  destruct H as (He & Hr & Ht).
  split; [exact He|split; [exact Hr|]].
  rewrite Ht, He; destruct n; [lia|reflexivity].
Qed.

Lemma ticks_lite_gen (n : nat) :
  forall (st : App) (v : MurphView),
    (exists a, activeSession (core st) = Some a) ->
    isLite' st = true ->
    isRunning v = true ->
    (elapsedTime v < MURPH_LITE_TIME)%Z ->
    (elapsedTime v = MURPH_LITE_TIME - 1 ->
     activeTotalTime st = Some (MURPH_LITE_TIME - 1))%Z ->
    let (v', st') := ticks n v st in
    elapsedTime v' = Z.min MURPH_LITE_TIME (elapsedTime v + Z.of_nat n)
    /\ isRunning v' = (elapsedTime v + Z.of_nat n <? MURPH_LITE_TIME)%Z
    /\ activeTotalTime st'
       = match n with
         | O => activeTotalTime st
         | S _ => Some (Z.min (MURPH_LITE_TIME - 1) (elapsedTime v + Z.of_nat n))
         end.
Proof.
  unfold MURPH_LITE_TIME.
  induction n as [|n IH]; intros st v [a Ha] Hlite Hrun Hlt Hsync.
  - simpl; repeat split; [lia|].
    rewrite Hrun; symmetry; apply Z.ltb_lt; lia.
  - destruct (25 * 60 <=? elapsedTime v + 1)%Z eqn:E.
    + apply Z.leb_le in E.
      assert (Htick : tick st v st = (with_timer v MURPH_LITE_TIME false, st)).
      { unfold tick, MURPH_LITE_TIME; rewrite Hrun, Hlite.
        replace (25 * 60 <=? elapsedTime v + 1)%Z with true
          by (symmetry; apply Z.leb_le; exact E).
        reflexivity. }
      simpl ticks; rewrite Htick, ticks_stopped by reflexivity.
      unfold MURPH_LITE_TIME; simpl elapsedTime; simpl isRunning.
      split; [lia|split; [symmetry; apply Z.ltb_ge; lia|]].
      rewrite Hsync by lia; f_equal; lia.
    + apply Z.leb_gt in E.
      destruct (tick_running st v a Ha Hrun) as (st1 & Htick & Hact & Htime & Hl);
        [unfold MURPH_LITE_TIME; rewrite Hlite;
         apply andb_false_iff; right; apply Z.leb_gt; exact E|].
      simpl ticks; rewrite Htick.
      specialize (IH st1 (with_timer v (elapsedTime v + 1) true) Hact).
      rewrite Hl in IH; specialize (IH Hlite eq_refl).
      simpl elapsedTime in IH.
      assert (H1 : (elapsedTime v + 1 < 25 * 60)%Z) by lia.
      assert (H2 : (elapsedTime v + 1 = 25 * 60 - 1 ->
                    activeTotalTime st1 = Some (25 * 60 - 1))%Z)
        by (intro H; rewrite Htime; f_equal; exact H).
      specialize (IH H1 H2).
      destruct (ticks n _ st1) as [v' st'].
      destruct IH as (He & Hr & Ht).
      split; [lia|split].
      * rewrite Hr; f_equal; lia.
      * rewrite Ht; destruct n; [rewrite Htime; f_equal; lia|f_equal; lia].
Qed.

(** X12.  A running timer of a Lite workout that shows less than 24:59:
    after [n] ticks the display shows the elapsed time capped at 25:00, the
    timer runs as long as that is below 25:00, the time left is what
    remains of the 25 minutes, and the active session holds the elapsed
    time capped at 24:59, one second less than the display once the cap is
    reached. *)
Theorem lite_timer_after_ticks (n : nat) (st : App) (v : MurphView)
    (a : TrainingSession) :
  activeSession (core st) = Some a ->
  isLite' st = true ->
  isRunning v = true ->
  (elapsedTime v < MURPH_LITE_TIME - 1)%Z ->
  (0 < n)%nat ->
  let v' := fst (ticks n v st) in
  let st' := snd (ticks n v st) in
  elapsedTime v' = Z.min MURPH_LITE_TIME (elapsedTime v + Z.of_nat n)
  /\ isRunning v' = (elapsedTime v + Z.of_nat n <? MURPH_LITE_TIME)%Z
  /\ timeRemaining st v' = Z.max 0 (MURPH_LITE_TIME - (elapsedTime v + Z.of_nat n))
  /\ activeTotalTime st'
     = Some (Z.min (MURPH_LITE_TIME - 1) (elapsedTime v + Z.of_nat n)).
Proof.
  intros Ha Hlite Hrun Hlt Hn v' st'; unfold v', st'.
  assert (H1 : (elapsedTime v < MURPH_LITE_TIME)%Z) by lia.
  assert (H2 : (elapsedTime v = MURPH_LITE_TIME - 1 ->
                activeTotalTime st = Some (MURPH_LITE_TIME - 1))%Z) by lia.
  pose proof (ticks_lite_gen n st v (ex_intro _ a Ha) Hlite Hrun H1 H2) as H.
  unfold timeRemaining; rewrite Hlite.
  destruct (ticks n v st) as [v1 st1]; cbn [fst snd].
  destruct H as (He & Hr & Ht).
  split; [exact He|split; [exact Hr|split]].
  - rewrite He; lia.
  - rewrite Ht; destruct n; [lia|reflexivity].
Qed.

Lemma full_timer_after_ticks_witness :
  elapsedTime (fst (ticks 90 (runningAt 0) fullStarted)) = 90%Z
  /\ activeTotalTime (snd (ticks 90 (runningAt 0) fullStarted)) = Some 90%Z.
Proof.
  destruct (full_timer_after_ticks 90 fullStarted (runningAt 0) (theActive fullStarted))
    as (He & _ & Ht);
    [reflexivity|reflexivity|reflexivity|lia|].
  split; [exact He|rewrite Ht, He; reflexivity].
Defined.

Lemma lite_timer_after_ticks_witness :
  elapsedTime (fst (ticks 20 (runningAt 1490) liteAt1499)) = 1500%Z
  /\ activeTotalTime (snd (ticks 20 (runningAt 1490) liteAt1499)) = Some 1499%Z.
Proof.
  destruct (lite_timer_after_ticks 20 liteAt1499 (runningAt 1490) (theActive liteAt1499))
    as (He & _ & _ & Ht);
    [reflexivity|reflexivity|reflexivity|reflexivity|lia|].
  split; [exact He|exact Ht].
Defined.

(** ** The dashboard *)

Section Tally.
Context {K : Type} (eqb : K -> K -> bool).
Hypothesis eqb_eq : forall a b, eqb a b = true <-> a = b.

Lemma lookup_bump_same (key : K) (m : list (K * nat)) :
  Dashboard.lookup eqb key (Dashboard.bump eqb key m) = S (Dashboard.lookup eqb key m).
Proof.
  induction m as [|[k n] m IH]; simpl.
  - replace (eqb key key) with true by (symmetry; apply eqb_eq; reflexivity).
    reflexivity.
  - destruct (eqb k key) eqn:E; simpl; rewrite E; [reflexivity|exact IH].
Qed.

Lemma lookup_bump_other (key key' : K) (m : list (K * nat)) :
  key <> key' ->
  Dashboard.lookup eqb key' (Dashboard.bump eqb key m) = Dashboard.lookup eqb key' m.
Proof.
  intro Hne; induction m as [|[k n] m IH]; simpl.
  - destruct (eqb key key') eqn:E; [apply eqb_eq in E; contradiction|reflexivity].
  - destruct (eqb k key) eqn:E; simpl.
    + destruct (eqb k key') eqn:E'; [|reflexivity].
      apply eqb_eq in E, E'; congruence.
    + destruct (eqb k key'); [reflexivity|exact IH].
Qed.

Lemma lookup_fold_bump (key : K) (keys : list K) :
  forall m,
    Dashboard.lookup eqb key (fold_left (fun m k => Dashboard.bump eqb k m) keys m)
    = (Dashboard.lookup eqb key m
       + List.length (filter (fun k => eqb k key) keys))%nat.
Proof.
  induction keys as [|k keys IH]; intro m; simpl; [lia|].
  rewrite IH.
  destruct (eqb k key) eqn:E.
  - apply eqb_eq in E; subst k; rewrite lookup_bump_same; simpl; lia.
  - rewrite lookup_bump_other; [lia|].
    intro Heq; subst k.
    assert (eqb key key = true) by (apply eqb_eq; reflexivity); congruence.
Qed.

Lemma lookup_tally (key : K) (keys : list K) :
  Dashboard.lookup eqb key (Dashboard.tally eqb keys)
  = List.length (filter (fun k => eqb k key) keys).
Proof. unfold Dashboard.tally; rewrite lookup_fold_bump; reflexivity. Qed.

Lemma sum_bump (key : K) (m : list (K * nat)) :
  list_sum (map snd (Dashboard.bump eqb key m)) = S (list_sum (map snd m)).
Proof.
  induction m as [|[k n] m IH]; simpl; [reflexivity|].
  destruct (eqb k key); simpl; [reflexivity|rewrite IH; lia].
Qed.

Lemma sum_fold_bump (keys : list K) :
  forall m,
    list_sum (map snd (fold_left (fun m k => Dashboard.bump eqb k m) keys m))
    = (list_sum (map snd m) + List.length keys)%nat.
Proof.
  induction keys as [|k keys IH]; intro m; simpl; [lia|].
  rewrite IH, sum_bump; lia.
Qed.
End Tally.

Lemma fold_left_plus (l : list nat) :
  forall a, fold_left (fun a b => (a + b)%nat) l a = (a + list_sum l)%nat.
Proof.
  induction l as [|x l IH]; intro a; simpl; [lia|rewrite IH; lia].
Qed.

Lemma length_filter_map {A B : Type} (f : A -> B) (p : B -> bool) (l : list A) :
  List.length (filter p (map f l)) = List.length (filter (fun x => p (f x)) l).
Proof.
  induction l as [|x l IH]; simpl; [reflexivity|].
  destruct (p (f x)); simpl; rewrite IH; reflexivity.
Qed.

Lemma filter_filter_implies {A : Type} (p q : A -> bool) (l : list A) :
  (forall x, p x = true -> q x = true) ->
  filter p (filter q l) = filter p l.
Proof.
  intro H; induction l as [|x l IH]; simpl; [reflexivity|].
  destruct (q x) eqn:Eq; simpl.
  - rewrite IH; reflexivity.
  - destruct (p x) eqn:Ep; [rewrite (H x Ep) in Eq; discriminate Eq|exact IH].
Qed.

(** X13.  The training split of the dashboard: the count shown for a label
    is the number of completed sessions of the last 30 days with that label,
    and the total the percentages are taken of is the number of all of
    them. *)
Theorem split_counts_add_up (d : DB) (now : Z) :
  Dashboard.total d now = List.length (Dashboard.last30Days d now)
  /\ forall label,
       Dashboard.lookup String.eqb label (Dashboard.splitCounts d now)
       = List.length (filter (fun s => (Dashboard.typeLabel (type s) =? label)%string)
                             (Dashboard.last30Days d now)).
Proof.
  split.
  - unfold Dashboard.total, Dashboard.splitCounts, Dashboard.tally.
    rewrite fold_left_plus, sum_fold_bump, length_map; reflexivity.
  - intro label; unfold Dashboard.splitCounts.
    rewrite (lookup_tally String.eqb String.eqb_eq), length_filter_map; reflexivity.
Qed.

Lemma same_day_is_recent (now d : Z) (i : nat) :
  (Dashboard.dateKey d =? Dashboard.cellKey now i)%Z = true ->
  (now - 90 * Dashboard.DAY <=? d)%Z = true.
Proof.
  unfold Dashboard.cellKey, Dashboard.dateKey, Dashboard.DAY.
  intro H; apply Z.eqb_eq in H; apply Z.leb_le.
  replace (now - (89 - Z.of_nat i) * (24 * 60 * 60 * 1000))%Z
    with (now + (Z.of_nat i - 89) * 86400000)%Z in H by lia.
  rewrite Z.div_add in H by lia.
  change (24 * 60 * 60 * 1000)%Z with 86400000%Z in *.
  pose proof (Z.mul_div_le d 86400000 eq_refl).
  pose proof (Z.mul_succ_div_gt now 86400000 eq_refl).
  lia.
Qed.

(** X14.  The heat map: every cell shows the number of completed sessions
    whose date falls on the cell's day; the ninety-day cut of the data
    behind it never removes a session of a displayed day. *)
Theorem heatmap_cell_counts_the_day (d : DB) (now : Z) (i : nat) :
  Dashboard.cellCount d now i
  = List.length (filter (fun s => (Dashboard.dateKey (date s) =? Dashboard.cellKey now i)%Z)
                        (Dashboard.completedSessions d)).
Proof.
  unfold Dashboard.cellCount, Dashboard.heatmapData.
  rewrite (lookup_tally Z.eqb Z.eqb_eq), length_filter_map.
  unfold Dashboard.since; rewrite filter_filter_implies; [reflexivity|].
  intros s Hs; apply (same_day_is_recent now (date s) i Hs).
Qed.

(** X15.  The sessions of the last 7 days are those of the last 30 days
    that lie within 7 days, so the first number of the frequency card never
    exceeds the second. *)
Theorem week_is_within_month (d : DB) (now : Z) :
  Dashboard.last7Days d now = Dashboard.since now 7 (Dashboard.last30Days d now)
  /\ (List.length (Dashboard.last7Days d now)
      <= List.length (Dashboard.last30Days d now))%nat.
Proof.
  assert (H : Dashboard.last7Days d now
              = Dashboard.since now 7 (Dashboard.last30Days d now)).
  { unfold Dashboard.last7Days, Dashboard.last30Days, Dashboard.since.
    rewrite filter_filter_implies; [reflexivity|].
    unfold Dashboard.DAY; intros s Hs.
    apply Z.leb_le in Hs; apply Z.leb_le; lia. }
  split; [exact H|].
  rewrite H; unfold Dashboard.since; apply filter_length_le.
Qed.

(** ** formatTime *)









(** ** Editing sets and exercises *)

Lemma mapi_from_id {A : Type} (f : nat -> A -> A) (l : list A) :
  forall k,
    (forall i x, nth_error l i = Some x -> f (k + i)%nat x = x) ->
    mapi_from k f l = l.
Proof.
  induction l as [|x l IH]; intros k H; simpl; [reflexivity|].
  rewrite <- (Nat.add_0_r k) at 1; rewrite (H 0%nat x eq_refl).
  f_equal; apply IH; intros i y Hy.
  replace (S k + i)%nat with (k + S i)%nat by lia; apply H; exact Hy.
Qed.

Lemma mapi_from_compose {A : Type} (f g : nat -> A -> A) (l : list A) :
  forall k, mapi_from k f (mapi_from k g l) = mapi_from k (fun i x => f i (g i x)) l.
Proof.
  induction l as [|x l IH]; intro k; simpl; [reflexivity|rewrite IH; reflexivity].
Qed.

Lemma map_mapi_from {A B : Type} (h : A -> B) (f : nat -> A -> A) (l : list A) :
  (forall i x, h (f i x) = h x) ->
  forall k, map h (mapi_from k f l) = map h l.
Proof.
  intro H; induction l as [|x l IH]; intro k; simpl; [reflexivity|].
  rewrite H, IH; reflexivity.
Qed.

Lemma atIndex_restores {A : Type} (f g : A -> A) (l : list A) (k : nat) (x : A) :
  nth_error l k = Some x -> f (g x) = x ->
  atIndex k f (atIndex k g l) = l.
Proof.
  intros Hk Hfg; unfold atIndex, mapi.
  rewrite mapi_from_compose; apply mapi_from_id.
  intros i y Hy; simpl.
  destruct (i =? k)%nat eqn:E; [|reflexivity].
  apply Nat.eqb_eq in E; subst i; rewrite Hk in Hy; injection Hy as <-; exact Hfg.
Qed.

Lemma reinsert_removed {A : Type} (l : list A) (j : nat) (x : A) :
  nth_error l j = Some x ->
  firstn j (firstn j l ++ skipn (S j) l) ++ x :: skipn j (firstn j l ++ skipn (S j) l) = l.
Proof.
  revert j; induction l as [|y l IH]; intros [|j] H; simpl in H; try discriminate H.
  - injection H as ->; reflexivity.
  - simpl; f_equal; apply IH, H.
Qed.

(** X17.  In the history's edit view, Undo after deleting a set gives back
    the session as it was before: the undo there is a functional update of
    the copy being edited. *)
Theorem edit_undo_restores_the_set (s : TrainingSession) (i j : nat)
    (ex : Exercise) (x : SetEntry) :
  nth_error (exercises s) i = Some ex ->
  nth_error (sets ex) j = Some x ->
  edit (EditUndoDeleteSet i j x) (edit (EditDeleteSet i j) s) = s.
Proof.
  intros Hex Hx; destruct s; simpl in *.
  unfold with_exercises; simpl; f_equal.
  apply (atIndex_restores _ _ _ i ex Hex).
  destruct ex; unfold with_sets; simpl in *; f_equal.
  unfold slice_to, slice_from; rewrite filteri_remove.
  apply reinsert_removed, Hx.
Qed.

Lemma edit_undo_restores_the_set_witness :
  edit (EditUndoDeleteSet 1 2 (sampleSet "k3" (Some 0%float) (Some 8%float)))
       (edit (EditDeleteSet 1 2) pullDay)
  = pullDay.
Proof.
  apply (edit_undo_restores_the_set pullDay 1 2 klimmzuege); reflexivity.
Defined.

(** *** What a freshly created set contributes *)

Lemma emptySet_blank (w : World) : blankSet (fst (emptySet w)) = true.
Proof. reflexivity. Qed.

Lemma replicateM_S {A : Type} (n : nat) (m : Eff A) (w : World) :
  fst (replicateM (S n) m w) = fst (m w) :: fst (replicateM n m (snd (m w))).
Proof.
  cbn [replicateM]; unfold bind, ret.
  destruct (m w) as [x w1]; cbn [fst snd].
  destruct (replicateM n m w1); reflexivity.
Qed.

Lemma mapM_cons {A B : Type} (f : A -> Eff B) (x : A) (l : list A) (w : World) :
  fst (mapM f (x :: l) w) = fst (f x w) :: fst (mapM f l (snd (f x w))).
Proof.
  cbn [mapM]; unfold bind, ret.
  destruct (f x w) as [y w1]; cbn [fst snd].
  destruct (mapM f l w1); reflexivity.
Qed.

Lemma replicateM_emptySet (n : nat) :
  forall w, List.length (fst (replicateM n emptySet w)) = n
            /\ forallb blankSet (fst (replicateM n emptySet w)) = true.
Proof.
  induction n as [|n IH]; intro w; [split; reflexivity|].
  rewrite replicateM_S; cbn [List.length forallb].
  destruct (IH (snd (emptySet w))) as (Hlen & Hblank).
  rewrite Hlen, Hblank, emptySet_blank; split; reflexivity.
Qed.

Lemma instantiate_fromTemplate (t : ExerciseNoId) (w : World) :
  fromTemplate t (fst (instantiate t w)).
Proof.
  unfold instantiate, bind.
  destruct (generateId w) as [i w1].
  unfold getDefaultSetsForExercise.
  destruct (replicateM_emptySet (defaultSetCount (t_name t)) w1) as (Hlen & Hblank).
  destruct (replicateM _ emptySet w1) as [l w2]; cbn [fst snd] in *.
  unfold fromTemplate, allBlank, ret; cbn [fst name variation targetRepHint order sets].
  repeat split; assumption.
Qed.

Lemma mapM_instantiate (l : list ExerciseNoId) :
  forall w, Forall2 fromTemplate l (fst (mapM instantiate l w)).
Proof.
  induction l as [|t l IH]; intro w; [constructor|].
  rewrite mapM_cons; constructor; [apply instantiate_fromTemplate|apply IH].
Qed.

Lemma blank_sets_add_nothing (l : list SetEntry) (t : float) :
  forallb blankSet l = true ->
  fold_left (fun total set =>
               match weightKg set, reps set with
               | Some w, Some r => (total + w * r)%float
               | _, _ => total
               end) l t = t.
Proof.
  induction l as [|x l IH]; simpl; intro H; [reflexivity|].
  apply andb_true_iff in H; destruct H as (Hx & Hl).
  unfold blankSet in Hx.
  destruct (weightKg x), (reps x); try discriminate Hx; apply IH, Hl.
Qed.

Lemma blank_exercises_add_nothing (l : list Exercise) (t : float) :
  Forall (fun ex => allBlank ex = true) l ->
  fold_left (fun total ex =>
               fold_left (fun total set =>
                            match weightKg set, reps set with
                            | Some w, Some r => (total + w * r)%float
                            | _, _ => total
                            end) (sets ex) total) l t = t.
Proof.
  intro H; revert t; induction H as [|ex l Hex _ IH]; intro t; simpl; [reflexivity|].
  rewrite blank_sets_add_nothing by exact Hex; apply IH.
Qed.

Lemma Forall2_allBlank (ts : list ExerciseNoId) (l : list Exercise) :
  Forall2 fromTemplate ts l -> Forall (fun ex => allBlank ex = true) l.
Proof.
  induction 1 as [|t ex ts l (_ & _ & _ & _ & _ & Hb) _ IH]; constructor; assumption.
Qed.

Lemma newSession_shape (tab : TrainingType) (template : list ExerciseNoId) (w : World) :
  let s := fst (newSession tab template w) in
  type s = tab /\ completed s = false /\ endedAt s = None /\ totals s = None
  /\ Forall2 fromTemplate template (exercises s).
Proof.
  unfold newSession, bind, Date_now, ret.
  destruct (generateId w) as [i w1].
  pose proof (mapM_instantiate template w1) as Hexs.
  destruct (mapM instantiate template w1) as [exs w2]; cbn [fst] in *.
  split; [reflexivity|].
  split; [reflexivity|].
  split; [reflexivity|].
  split; [reflexivity|exact Hexs].
Qed.

Lemma started_session (tab : TrainingType) (st : App) :
  exists s,
    activeSession (core (let (s, st') := perform (newSession tab (template_of tab)) st in
                         with_showHistory (setActiveSession (Some s) st') false))
    = Some s
    /\ db (core (let (s, st') := perform (newSession tab (template_of tab)) st in
                 with_showHistory (setActiveSession (Some s) st') false))
       = db (core st)
    /\ type s = tab
    /\ completed s = false /\ endedAt s = None /\ totals s = None
    /\ Forall2 fromTemplate (template_of tab) (exercises s)
    /\ calcVolume s = 0%float.
Proof.
  pose proof (newSession_shape tab (template_of tab) (world st)) as H.
  unfold perform.
  destruct (newSession tab (template_of tab) (world st)) as [s w']; cbn [fst] in H.
  destruct H as (Hty & Hc & He & Ht & Hexs).
  exists s.
  split; [reflexivity|].
  split; [reflexivity|].
  split; [exact Hty|].
  split; [exact Hc|].
  split; [exact He|].
  split; [exact Ht|].
  split; [exact Hexs|].
  unfold calcVolume.
  apply blank_exercises_add_nothing, (Forall2_allBlank _ _ Hexs).
Qed.

(** X18.  "Neues Training" on a push, pull or legs tab, at any time and
    with any ids drawn: the new active session has the type of the tab, is
    not completed, and holds the exercises of the tab's template in order,
    each with its name, variation and position, with five blank sets for
    Bankdrücken, Klimmzüge and Kreuzheben and three for the others; its
    volume is 0, and the store is not written. *)
Theorem new_session_follows_template (r st : App) :
  isTemplateTab (activeTab r) = true ->
  exists s,
    activeSession (core (createNewSession r st)) = Some s
    /\ db (core (createNewSession r st)) = db (core st)
    /\ type s = activeTab r
    /\ completed s = false /\ endedAt s = None /\ totals s = None
    /\ Forall2 fromTemplate (template_of (activeTab r)) (exercises s)
    /\ calcVolume s = 0%float.
Proof.
  intro Htab; unfold createNewSession.
  destruct (activeTab r); try discriminate Htab; cbv beta iota zeta.
  - change (List.length (template_of push) =? 0)%nat with false; cbv iota.
    apply (started_session push st).
  - change (List.length (template_of pull) =? 0)%nat with false; cbv iota.
    apply (started_session pull st).
  - change (List.length (template_of legs_core) =? 0)%nat with false; cbv iota.
    apply (started_session legs_core st).
Qed.

Lemma new_session_follows_template_witness :
  exists s,
    activeSession (core (createNewSession pullTab pullTab)) = Some s
    /\ type s = pull
    /\ Forall2 fromTemplate PULL_TEMPLATE (exercises s)
    /\ calcVolume s = 0%float.
Proof.
  destruct (new_session_follows_template pullTab pullTab)
    as (s & Ha & _ & Hty & _ & _ & _ & Hexs & Hv); [reflexivity|].
  exists s; split; [exact Ha|split; [exact Hty|split; [exact Hexs|exact Hv]]].
Defined.

Lemma threeSets_blank (w : World) :
  List.length (fst (threeSets w)) = 3%nat
  /\ forallb blankSet (fst (threeSets w)) = true.
Proof.
  unfold threeSets, bind.
  destruct (emptySet w) as [a w1] eqn:Ea.
  destruct (emptySet w1) as [b w2] eqn:Eb.
  destruct (emptySet w2) as [c w3] eqn:Ec; simpl.
  pose proof (emptySet_blank w) as Ha; rewrite Ea in Ha.
  pose proof (emptySet_blank w1) as Hb; rewrite Eb in Hb.
  pose proof (emptySet_blank w2) as Hc; rewrite Ec in Hc.
  simpl in *; rewrite Ha, Hb, Hc; split; reflexivity.
Qed.

Lemma calcVolume_snoc_blank (a : TrainingSession) (ex : Exercise) :
  allBlank ex = true ->
  calcVolume (with_exercises a (exercises a ++ [ex])) = calcVolume a.
Proof.
  intro H; unfold calcVolume; simpl.
  rewrite fold_left_app; simpl.
  apply blank_sets_add_nothing, H.
Qed.

(** X19.  An exercise added by hand goes to the end of the active session
    with the given name and variation, its position being the number of
    exercises before, and always with three blank sets, whatever its name;
    the volume of the session is unchanged. *)
Theorem added_exercise_is_appended (r st : App) (exerciseName : string)
    (variation' : option string) (a : TrainingSession) :
  activeSession (core r) = Some a ->
  exists ex,
    activeSession (core (addNewExercise r exerciseName variation' st))
    = Some (with_exercises a (exercises a ++ [ex]))
    /\ name ex = exerciseName /\ variation ex = variation'
    /\ order ex = List.length (exercises a)
    /\ List.length (sets ex) = 3%nat /\ allBlank ex = true
    /\ calcVolume (with_exercises a (exercises a ++ [ex])) = calcVolume a.
Proof.
  intro Ha; unfold addNewExercise; rewrite Ha.
  unfold perform, bind.
  destruct (generateId (world st)) as [i w1].
  destruct (threeSets_blank w1) as (Hlen & Hblank).
  destruct (threeSets w1) as [l w2]; simpl in Hlen, Hblank.
  eexists; split.
  - unfold showSnackbar, onCore, updateSession; rewrite Ha; reflexivity.
  - repeat split; try assumption.
    apply calcVolume_snoc_blank; exact Hblank.
Qed.

Lemma added_exercise_is_appended_witness :
  exists ex,
    name ex = "Kreuzheben" /\ variation ex = None
    /\ List.length (sets ex) = 3%nat /\ allBlank ex = true.
Proof.
  destruct (added_exercise_is_appended pushInProgress pushInProgress "Kreuzheben" None
              (theActive pushInProgress))
    as (ex & _ & Hn & Hv & _ & Hl & Hb & _); [vm_compute; reflexivity|].
  exists ex; split; [exact Hn|split; [exact Hv|split; [exact Hl|exact Hb]]].
Defined.

(** *** Writing to one set *)

Lemma updateSet_active (r : App) (i j : nat) (f : SetEntry -> SetEntry) (c : Core)
    (a : TrainingSession) :
  activeSession (core r) = Some a ->
  activeSession (updateSet r i j f c)
  = Some (with_exercises a
            (atIndex i (fun ex => with_sets ex (atIndex j f (sets ex))) (exercises a))).
Proof.
  intro Ha; unfold updateSet, updateExercise, updateSession; rewrite Ha; reflexivity.
Qed.

Lemma nth_error_atIndex {A : Type} (k : nat) (f : A -> A) (l : list A) (i : nat) :
  nth_error (atIndex k f l) i
  = if (i =? k)%nat then option_map f (nth_error l i) else nth_error l i.
Proof.
  unfold atIndex; rewrite nth_error_mapi.
  destruct (i =? k)%nat; [reflexivity|destruct (nth_error l i); reflexivity].
Qed.

Lemma setAt_atIndex (a : TrainingSession) (i j : nat) (f : SetEntry -> SetEntry)
    (i' j' : nat) :
  setAt (with_exercises a
           (atIndex i (fun ex => with_sets ex (atIndex j f (sets ex))) (exercises a)))
        i' j'
  = if ((i' =? i) && (j' =? j))%nat%bool
    then option_map f (setAt a i j)
    else setAt a i' j'.
Proof.
  unfold setAt; simpl; rewrite nth_error_atIndex.
  destruct (i' =? i)%nat eqn:Ei; simpl.
  - apply Nat.eqb_eq in Ei; subst i'.
    destruct (nth_error (exercises a) i) as [ex|]; simpl.
    + rewrite nth_error_atIndex.
      destruct (j' =? j)%nat eqn:Ej; [|reflexivity].
      apply Nat.eqb_eq in Ej; subst j'; reflexivity.
    + destruct (j' =? j)%nat; reflexivity.
  - reflexivity.
Qed.

(** X20.  Every write to a set of the active session (typing a weight or
    repetitions, the plus and minus buttons, taking over the last values)
    goes through [updateSet]: it applies the change to set [j] of exercise
    [i] of the session the render showed, leaves every other set as it was
    there, and keeps the exercises' own fields.  *)
Theorem updateSet_changes_one_set (r : App) (i j : nat) (f : SetEntry -> SetEntry)
    (c : Core) (a : TrainingSession) :
  activeSession (core r) = Some a ->
  exists a',
    activeSession (updateSet r i j f c) = Some a'
    /\ with_exercises a' (exercises a) = a
    /\ map header (exercises a') = map header (exercises a)
    /\ forall i' j',
         setAt a' i' j'
         = if ((i' =? i) && (j' =? j))%nat%bool
           then option_map f (setAt a i j)
           else setAt a i' j'.
Proof.
  intro Ha; eexists; split; [apply updateSet_active, Ha|].
  split; [destruct a; reflexivity|].
  split; [|intros i' j'; apply setAt_atIndex].
  simpl; unfold atIndex, mapi; apply map_mapi_from.
  intros k ex; destruct (k =? i)%nat; reflexivity.
Qed.

Lemma updateSet_changes_one_set_witness :
  exists a',
    activeSession (updateSet pushInProgress 1 0 (fun s => with_reps s None)
                             (core pushInProgress)) = Some a'
    /\ map header (exercises a') = map header (exercises (theActive pushInProgress)).
Proof.
  destruct (updateSet_changes_one_set pushInProgress 1 0 (fun s => with_reps s None)
              (core pushInProgress) (theActive pushInProgress))
    as (a' & Ha & _ & Hh & _); [vm_compute; reflexivity|].
  exists a'; split; [exact Ha|exact Hh].
Defined.

Lemma max0_not_negative (x : float) : PrimFloat.ltb (max0 x) 0%float = false.
Proof.
  unfold max0.
  destruct (PrimFloat.is_nan x); [reflexivity|].
  destruct (PrimFloat.leb x 0%float) eqn:E; [reflexivity|].
  rewrite ltb_spec; rewrite leb_spec in E.
  unfold SFltb; unfold SFleb in E.
  destruct (SFcompare (Prim2SF x) (Prim2SF 0%float)) as [[]|];
    try reflexivity; discriminate E.
Qed.

(** X21.  The plus and minus buttons never leave a negative number: the
    weight and the repetitions they write to the set are not below 0,
    whatever the set held and whatever the step. *)
Theorem adjusted_values_are_not_negative (r st : App) (i j : nat) (set x : SetEntry)
    (delta multiplier : float) (a : TrainingSession) :
  activeSession (core r) = Some a ->
  setAt a i j = Some x ->
  (exists a' w,
     activeSession (core (adjustWeight r i set j delta multiplier st)) = Some a'
     /\ option_map weightKg (setAt a' i j) = Some (Some w)
     /\ PrimFloat.ltb w 0%float = false)
  /\ (exists a' n,
        activeSession (core (adjustReps r i set j delta st)) = Some a'
        /\ option_map reps (setAt a' i j) = Some (Some n)
        /\ PrimFloat.ltb n 0%float = false).
Proof.
  intros Ha Hx; split.
  - eexists; eexists; split;
      [unfold adjustWeight, onCore; simpl; apply updateSet_active, Ha|].
    rewrite setAt_atIndex, !Nat.eqb_refl, Hx; simpl.
    split; [reflexivity|apply max0_not_negative].
  - eexists; eexists; split;
      [unfold adjustReps, onCore; simpl; apply updateSet_active, Ha|].
    rewrite setAt_atIndex, !Nat.eqb_refl, Hx; simpl.
    split; [reflexivity|apply max0_not_negative].
Qed.

Lemma adjusted_values_are_not_negative_witness :
  exists a' w,
    activeSession (core (adjustWeight pushInProgress 1 firstSet 0
                           (-2.5)%float 2%float pushInProgress)) = Some a'
    /\ option_map weightKg (setAt a' 1 0) = Some (Some w)
    /\ PrimFloat.ltb w 0%float = false.
Proof.
  destruct (adjusted_values_are_not_negative pushInProgress pushInProgress 1 0
              firstSet firstSet (-2.5)%float 2%float (theActive pushInProgress))
    as (H & _); [vm_compute; reflexivity|vm_compute; reflexivity|exact H].
Defined.

(** ** The snackbar and its timers *)

Lemma fire_all_timers (l : list (Z * TimerAction)) :
  forall s, timers (fold_left (fun s t => fire (snd t) s) l s) = timers s
            /\ world (fold_left (fun s t => fire (snd t) s) l s) = world s.
Proof.
  induction l as [|[d t] l IH]; intro s; [split; reflexivity|].
  simpl fold_left; destruct (IH (fire t s)) as (Ht & Hw); rewrite Ht, Hw.
  destruct t; split; reflexivity.
Qed.

Lemma fire_all_cleared (l : list (Z * TimerAction)) :
  forall s, snackbar s = None ->
            snackbar (fold_left (fun s t => fire (snd t) s) l s) = None.
Proof.
  induction l as [|[d t] l IH]; intros s H; [exact H|].
  simpl fold_left; apply IH; destruct t; [exact H|reflexivity].
Qed.

Lemma fire_all_clears (l : list (Z * TimerAction)) (d : Z) :
  In (d, ClearSnackbar) l ->
  forall s, snackbar (fold_left (fun s t => fire (snd t) s) l s) = None.
Proof.
  induction l as [|[d' t] l IH]; intros Hin s; [destruct Hin|].
  simpl fold_left; destruct Hin as [Heq|Hin]; [|apply IH, Hin].
  injection Heq as -> ->; apply fire_all_cleared; reflexivity.
Qed.

Lemma elapse_timers (dt : Z) (st : App) :
  timers (elapse dt st)
  = filter (fun t => negb (fst t <=? clock (world st) + dt)%Z) (timers st).
Proof. unfold elapse; apply fire_all_timers. Qed.

Lemma elapse_clock (dt : Z) (st : App) :
  clock (world (elapse dt st)) = (clock (world st) + dt)%Z.
Proof.
  unfold elapse.
  match goal with
  | |- context [fold_left ?f ?l ?s] => destruct (fire_all_timers l s) as (_ & Hw)
  end.
  rewrite Hw; reflexivity.
Qed.

Lemma showSnackbar_timers (message : string) (undo : option UndoClosure) (st : App) :
  In (clock (world st) + 5000, ClearSnackbar)%Z (timers (showSnackbar message undo st))
  /\ (forall t, In t (timers st) -> In t (timers (showSnackbar message undo st)))
  /\ world (showSnackbar message undo st) = world st.
Proof.
  unfold showSnackbar; cbn [timers world]; split; [|split; [|reflexivity]].
  - apply in_or_app; right; apply in_or_app; right; left; reflexivity.
  - intros t Ht; apply in_or_app; left; exact Ht.
Qed.

(** X22.  The timer of a snackbar is never cancelled.  When a second
    snackbar is shown less than five seconds after a first one, it is
    removed when the first one's five seconds are over, however short it has
    been on screen by then. *)
Theorem earlier_timer_removes_later_snackbar (st : App) (first second : string)
    (undo undo' : option UndoClosure) (dt dt' : Z) :
  (0 <= dt < 5000)%Z ->
  (5000 <= dt + dt')%Z ->
  let shown := showSnackbar second undo' (elapse dt (showSnackbar first undo st)) in
  snackbar shown = Some second
  /\ snackbar (elapse dt' shown) = None.
Proof.
  intros Hdt Hsum shown; split; [reflexivity|].
  destruct (showSnackbar_timers first undo st) as (Hin & _ & Hw).
  destruct (showSnackbar_timers second undo' (elapse dt (showSnackbar first undo st)))
    as (_ & Hkeep & Hw').
  fold shown in Hkeep, Hw'.
  unfold elapse at 1.
  apply (fire_all_clears _ (clock (world st) + 5000)%Z).
  apply filter_In; split.
  - apply Hkeep; rewrite elapse_timers; apply filter_In; split; [exact Hin|].
    cbn [fst]; apply negb_true_iff, Z.leb_gt; rewrite Hw; lia.
  - cbn [fst]; apply Z.leb_le; rewrite Hw', elapse_clock, Hw; lia.
Qed.

Lemma earlier_timer_removes_later_snackbar_witness :
  snackbar (elapse 1000
              (showSnackbar "Training gespeichert!" None
                 (elapse 4000 (showSnackbar "Satz gelöscht" None pushInProgress))))
  = None.
Proof.
  destruct (earlier_timer_removes_later_snackbar pushInProgress "Satz gelöscht"
              "Training gespeichert!" None None 4000 1000) as (_ & H);
    [lia|lia|exact H].
Defined.

(** ** Undo across a save *)

Lemma strengthView_same (st st' : App) (a a' : TrainingSession) :
  strengthView st = Some a ->
  activeSession (core st') = Some a' ->
  type a' = type a -> activeTab st' = activeTab st -> showHistory st' = showHistory st ->
  crashed (page st') = crashed (page st) ->
  strengthView st' = Some a'.
Proof.
  unfold strengthView; intros Hv Ha Hty Htab Hh Hlive.
  rewrite Hlive, Ha, Hty, Htab, Hh.
  destruct (crashed (page st)); [discriminate Hv|].
  destruct (activeSession (core st)) as [b|]; [|discriminate Hv].
  destruct (isTemplateTab (activeTab st) && negb (showHistory st)
            && TrainingType_eqb (type b) (activeTab st))%bool eqn:E; [|discriminate Hv].
  injection Hv as ->; rewrite E; reflexivity.
Qed.

Lemma step_Save (st : App) (a : TrainingSession) :
  strengthView st = Some a -> step Save st = saveActiveSession st st.
Proof.
  intro Hv.
  pose proof (strengthView_live st a Hv) as Hlive.
  destruct (strengthView_active st a Hv) as (Ha & _).
  rewrite step_handle by (exact Hlive || discriminate).
  unfold handle, whenSome; rewrite Hv; unfold click.
  apply remount_strength_tab; [apply (strengthView_tab st a Hv)| |exact Hlive|];
    unfold saveActiveSession; rewrite Ha; [reflexivity|exact Hlive].
Qed.

Lemma save_keeps_the_undo (st : App) (a : TrainingSession) (u : Core -> Core) :
  strengthView st = Some a -> undoAction st = Some (ViewUndo u) ->
  activeSession (core (step Save st)) = None
  /\ core (step Undo (step Save st)) = u (core (step Save st)).
Proof.
  intros Hv Hu.
  pose proof (strengthView_live st a Hv) as Hlive.
  pose proof (strengthView_tab st a Hv) as Htab.
  rewrite (step_Save st a Hv).
  apply strengthView_active in Hv; destruct Hv as (Ha & _).
  assert (Hundo : undoAction (saveActiveSession st st) = Some (ViewUndo u))
    by (unfold saveActiveSession; rewrite Ha; exact Hu).
  rewrite step_Undo.
  - unfold clickUndo; rewrite Hundo.
    unfold saveActiveSession; rewrite Ha.
    unfold perform, Date_now; cbv beta iota zeta.
    split; reflexivity.
  - unfold saveActiveSession; rewrite Ha; exact Htab.
  - unfold saveActiveSession; rewrite Ha; exact Hlive.
  - intros i e j x H; rewrite Hundo in H; discriminate H.
Qed.

(** X23.  A snackbar without an undo of its own keeps the pending one.
    Delete a set, save the training and press Undo (all within five
    seconds): the saved training is active again and unfinished, and the
    store holds that unfinished session in place of the finished one. *)
Theorem undo_after_save_reopens_the_session (st : App) (ex : Exercise) (x : SetEntry)
    (i j : nat) :
  reachable st ->
  card st i = Some ex ->
  nth_error (sets ex) j = Some x ->
  let saved := step Save (step (DeleteSet i j) st) in
  let undone := step Undo saved in
  activeSession (core saved) = None
  /\ exists a,
       activeSession (core undone) = Some a
       /\ completed a = false
       /\ filter (fun s => (id s =? id a)%string) (sessions (db (core undone))) = [a].
Proof.
  intros Hreach Hcard Hrow; cbv zeta.
  pose proof Hcard as Hview; unfold card in Hview.
  destruct (strengthView st) as [a|] eqn:Hv; [|discriminate Hview].
  destruct (strengthView_active st a Hv) as (Ha & _).
  assert (Hst1 : exists st1,
            step (DeleteSet i j) st = st1
            /\ st1 = showSnackbar "Satz gelöscht" (Some (ViewUndo (undoDelete st i j x)))
                       (onCore (updateExercise st i
                                  (fun e => with_sets e
                                     (filteri (fun k => negb (k =? j)%nat) (sets e)))) st)).
  { eexists; split; [reflexivity|].
    rewrite (step_DeleteSet st ex i j Hcard); unfold deleteSet; rewrite Hrow.
    reflexivity. }
  destruct Hst1 as (st1 & -> & Hst1).
  assert (Ha1 : exists a1, activeSession (core st1) = Some a1 /\ type a1 = type a).
  { eexists; split.
    - rewrite Hst1; unfold showSnackbar, onCore, updateExercise, updateSession.
      rewrite Ha; reflexivity.
    - reflexivity. }
  destruct Ha1 as (a1 & Ha1 & Hty).
  assert (Htab : activeTab st1 = activeTab st) by (rewrite Hst1; reflexivity).
  assert (Hhist : showHistory st1 = showHistory st) by (rewrite Hst1; reflexivity).
  assert (Hlive : crashed (page st1) = crashed (page st)) by (rewrite Hst1; reflexivity).
  assert (Hundo : undoAction st1 = Some (ViewUndo (undoDelete st i j x)))
    by (rewrite Hst1; reflexivity).
  pose proof (strengthView_same st st1 a a1 Hv Ha1 Hty Htab Hhist Hlive) as Hv1.
  destruct (save_keeps_the_undo st1 a1 (undoDelete st i j x) Hv1 Hundo) as (Hnone & Hcore).
  split; [exact Hnone|].
  unfold undoDelete, updateExercise in Hcore.
  match type of Hcore with
  | _ = updateSession (core st) ?f ?c =>
      destruct (updateSession_store (core st) c f a Ha) as (Hact & Hone & _);
      exists (f a)
  end.
  rewrite Hcore.
  split; [exact Hact|split; [|exact Hone]].
  destruct (invariant_reachable st Hreach) as ((_ & _ & Hactive) & _).
  destruct (Hactive a Ha) as (_ & _ & Hc); exact Hc.
Qed.

Lemma undo_after_save_reopens_the_session_witness :
  activeSession (core (step Save (step (DeleteSet 1 0) pushInProgress))) = None
  /\ exists a,
       activeSession (core (step Undo (step Save (step (DeleteSet 1 0) pushInProgress))))
       = Some a
       /\ completed a = false.
Proof.
  destruct (undo_after_save_reopens_the_session pushInProgress bankdruecken firstSet 1 0)
    as (Hnone & a & Ha & Hc & _);
    [apply reachable_pushInProgress|vm_compute; reflexivity|vm_compute; reflexivity|].
  split; [exact Hnone|exists a; split; [exact Ha|exact Hc]].
Defined.

(** ** The history editor and loading the page again *)

(** X24.  A stored volume that is not a finite number does not survive
    loading the page again.  A training saved with the weight [1e999] has the
    volume [Infinity]; [JSON.stringify] writes that, and the weight, as
    [null], so after the page is loaded again the stored volume is [null]
    and [calcVolume] of the stored session is [0]; the set count is
    unchanged. *)
Lemma infinite_volume_is_lost_on_reload :
  reachable hugePush
  /\ reachable (step Reload hugePush)
  /\ option_map totals (lastStored hugePush)
     = Some (Some (mkTotals (Some infinity) (Some 23%nat)))
  /\ option_map calcVolume (lastStored hugePush) = Some infinity
  /\ option_map totals (lastStored (step Reload hugePush))
     = Some (Some (mkTotals None (Some 23%nat)))
  /\ option_map calcVolume (lastStored (step Reload hugePush)) = Some 0%float.
Proof.
  split; [apply (reachable_from_start w0 hugeEvents)|].
  split; [apply reach_step, (reachable_from_start w0 hugeEvents)|].
  split; [vm_compute; reflexivity|].
  split; [vm_compute; reflexivity|].
  split; vm_compute; reflexivity.
Qed.






(** X26.  The three strength tabs render [HistoryView] at one place of
    the tree, so the copy open in its editor stays when the user goes from
    one of them to another; going to any other tab unmounts the view and the
    copy is gone. *)
Theorem editor_copy_outlives_tab_changes (st : App) (e : TrainingSession) (t : TrainingType) :
  crashed (page st) = false ->
  isTemplateTab (activeTab st) = true ->
  editingSession (page st) = Some e ->
  editingSession (page (step (SelectTab t) st))
  = if isTemplateTab t then Some e else None.
Proof.
  intros Hlive Htab He.
  rewrite step_handle by (exact Hlive || discriminate).
  unfold handle, remount, historySlot, with_tab; cbn [page activeTab core].
  rewrite Hlive.
  destruct (activeTab st); try discriminate Htab;
    destruct t, (activeSession (core st)); cbn; try exact He; reflexivity.
Qed.

Lemma editor_copy_outlives_tab_changes_witness :
  editingSession (page (step (SelectTab pull) editingPush))
  = Some (JSON.session (theLast pushFinished))
  /\ editingSession (page (step (SelectTab dashboard) editingPush)) = None.
Proof.
  assert (Hlive : crashed (page editingPush) = false) by (vm_compute; reflexivity).
  assert (Htab : isTemplateTab (activeTab editingPush) = true) by (vm_compute; reflexivity).
  assert (He : editingSession (page editingPush) = Some (JSON.session (theLast pushFinished)))
    by (vm_compute; reflexivity).
  split.
  - exact (editor_copy_outlives_tab_changes editingPush _ pull Hlive Htab He).
  - exact (editor_copy_outlives_tab_changes editingPush _ dashboard Hlive Htab He).
Defined.

Lemma historySlot_clickUndo_editor (st : App) (inst i j : nat) (x : SetEntry) :
  undoAction st = Some (EditorUndo inst i j x) ->
  crashed (page (clickUndo st)) = crashed (page st) ->
  historySlot (clickUndo st) = historySlot st.
Proof.
  intros Hu Hc; unfold historySlot; rewrite Hc.
  unfold clickUndo; rewrite Hu.
  destruct (snackbar st); [|reflexivity].
  cbv zeta; destruct (inst =? _)%nat; [|reflexivity].
  destruct (editingSession (page st)) as [e|]; [|reflexivity].
  destruct (i <? _)%nat; reflexivity.
Qed.

(** X27.  Undo after a set was deleted in the history editor never
    touches the stored sessions or the active one, and it removes the
    snackbar.  It leaves the editor alone when nothing is being edited or
    the view that made it is gone; otherwise it puts the set back into
    exercise [exIdx] of the copy that is open now, and when that copy has no
    exercise [exIdx] the application goes down. *)
Theorem editor_undo_acts_on_the_copy_only (st : App) (inst i j : nat) (x : SetEntry) :
  crashed (page st) = false ->
  snackbar st <> None ->
  undoAction st = Some (EditorUndo inst i j x) ->
  let undone := step Undo st in
  core undone = core st
  /\ snackbar undone = None
  /\ undoAction undone = None
  /\ (inst <> historyInstance (page st) \/ editingSession (page st) = None ->
      page undone = page st)
  /\ (forall e,
        inst = historyInstance (page st) -> editingSession (page st) = Some e ->
        (i < List.length (exercises e))%nat ->
        editingSession (page undone) = Some (edit (EditUndoDeleteSet i j x) e)
        /\ crashed (page undone) = false)
  /\ (forall e,
        inst = historyInstance (page st) -> editingSession (page st) = Some e ->
        (List.length (exercises e) <= i)%nat ->
        crashed (page undone) = true).
Proof.
  intros Hlive Hsnack Hu; cbv zeta.
  rewrite step_handle by (exact Hlive || discriminate).
  change (handle Undo st) with (clickUndo st).
  destruct (snackbar st) as [message|] eqn:Hs; [clear Hsnack|congruence].
  split; [rewrite remount_core; unfold clickUndo; rewrite Hs, Hu; cbv zeta;
          destruct (inst =? _)%nat; [|reflexivity];
          destruct (editingSession (page st)); [|reflexivity];
          destruct (i <? _)%nat; reflexivity|].
  split; [rewrite remount_snackbar; unfold clickUndo; rewrite Hs, Hu; cbv zeta;
          destruct (inst =? _)%nat; [|reflexivity];
          destruct (editingSession (page st)); [|reflexivity];
          destruct (i <? _)%nat; reflexivity|].
  split; [rewrite remount_undoAction; unfold clickUndo; rewrite Hs, Hu; cbv zeta;
          destruct (inst =? _)%nat; [|reflexivity];
          destruct (editingSession (page st)); [|reflexivity];
          destruct (i <? _)%nat; reflexivity|].
  split; [|split].
  - intro Hno.
    assert (Hpage : page (clickUndo st) = page st).
    { unfold clickUndo; rewrite Hs, Hu; cbv zeta.
      destruct Hno as [Hinst|He].
      - apply Nat.eqb_neq in Hinst; rewrite Hinst; reflexivity.
      - rewrite He; destruct (inst =? _)%nat; reflexivity. }
    rewrite remount_same; [exact Hpage|].
    apply (historySlot_clickUndo_editor st inst i j x Hu); rewrite Hpage; reflexivity.
  - intros e Hinst He Hi.
    assert (Hundone : clickUndo st
                      = setEditingSession (Some (edit (EditUndoDeleteSet i j x) e))
                          (mkApp (core st) (activeTab st) (showHistory st) None None
                                 (timers st) (world st) (page st))).
    { unfold clickUndo; rewrite Hs, Hu; cbv zeta.
      apply Nat.eqb_eq in Hinst; rewrite Hinst, He.
      apply Nat.ltb_lt in Hi; rewrite Hi; reflexivity. }
    rewrite remount_same.
    + rewrite Hundone; split; [reflexivity|exact Hlive].
    + apply (historySlot_clickUndo_editor st inst i j x Hu).
      rewrite Hundone; reflexivity.
  - intros e Hinst He Hi.
    rewrite remount_crashed.
    unfold clickUndo; rewrite Hs, Hu; cbv zeta.
    apply Nat.eqb_eq in Hinst; rewrite Hinst, He.
    apply Nat.ltb_ge in Hi; rewrite Hi; reflexivity.
Qed.

Lemma editor_undo_acts_on_the_copy_only_witness :
  editingSession (page (step Undo deletingInEditor))
  = Some (JSON.session (theLast pushFinished))
  /\ core (step Undo deletingInEditor) = core deletingInEditor
  /\ crashed (page (step Undo beforeCrash)) = true.
Proof.
  destruct (editor_undo_acts_on_the_copy_only deletingInEditor 1 1 0 firstSet)
    as (Hcore & _ & _ & _ & Hback & _).
  - vm_compute; reflexivity.
  - vm_compute; discriminate.
  - vm_compute; reflexivity.
  - destruct (Hback (edit (EditDeleteSet 1 0) (JSON.session (theLast pushFinished))))
      as (Hcopy & _).
    + vm_compute; reflexivity.
    + vm_compute; reflexivity.
    + vm_compute; lia.
    + split; [rewrite Hcopy; vm_compute; reflexivity|].
      split; [exact Hcore|].
      destruct (editor_undo_acts_on_the_copy_only beforeCrash 1 6 0
                  (mkSetEntry "1700000000000_28" None None None 1700000000000))
        as (_ & _ & _ & _ & _ & Hcrash).
      * vm_compute; reflexivity.
      * vm_compute; discriminate.
      * vm_compute; reflexivity.
      * apply (Hcrash (edit (EditDeleteExercise 6)
                         (edit (EditDeleteSet 6 0) (JSON.session (theLast pushFinished))))).
        -- vm_compute; reflexivity.
        -- vm_compute; reflexivity.
        -- vm_compute; lia.
Defined.
